(** * Multi-tenant OAuth credential lifecycle and callback routing

    A shallow embedding of the credential store, the token manager, the
    lookup cache, the callback dispatcher and the transport classifier of
    the Gmail and Google Calendar servers, with the properties the
    specification states about them.

    Conventions of the embedding.
    - JavaScript strings are [string]s of 8-bit characters; [toLowerCase]
      acts on the letters A-Z.
    - Numbers are integers ([Z]); a value that may be [NaN] is an
      [option Z] with [None] for [NaN].
    - [undefined] is [None]; a JSON document is a [json] value.
    - A text that is handed to [JSON.parse] is a [text]: either a JSON
      text, given by the document it denotes, or any other text, on which
      [JSON.parse] raises [SyntaxError].
    - Logging is left out: [FileLogger.log] catches its own write errors
      and [console.log] has no effect on the state modelled here.  *)

From Stdlib Require Import ZArith String Ascii List Bool Lia.
From stdpp Require Import gmap strings list fin_maps.

Set Warnings "-register-all".

Local Open Scope string_scope.
Local Open Scope Z_scope.

(** ** JavaScript values and strings *)

Module JS.

Inductive json : Type :=
| JNull
| JBool (b : bool)
| JNum (n : Z)
| JStr (s : string)
| JArr (items : list json)
| JObj (fields : list (string * json)).

(** [text]: what [JSON.parse] is applied to. *)
Inductive text : Type :=
| Garbage (raw : string)
| Doc (j : json).

(** A JavaScript value read from a property: [None] is [undefined]. *)
Definition value := option json.

Definition undefined : value := None.

(** ToBoolean. *)
Definition truthy_json (j : json) : bool :=
  match j with
  | JNull => false
  | JBool b => b
  | JNum n => negb (n =? 0)
  | JStr s => negb (String.eqb s "")
  | JArr _ => true
  | JObj _ => true
  end.

Definition truthy (v : value) : bool :=
  match v with
  | None => false
  | Some j => truthy_json j
  end.

(** ToBoolean of a string that may be null or undefined. *)
Definition truthy_str (s : option string) : bool :=
  match s with
  | None => false
  | Some s => negb (String.eqb s "")
  end.

(** ToBoolean of a text: only the empty string is falsy. *)
Definition truthy_text (t : text) : bool :=
  match t with
  | Garbage raw => negb (String.eqb raw "")
  | Doc _ => true
  end.

(** [JSON.parse]: [None] stands for the [SyntaxError] it raises. *)
Definition JSON_parse (t : text) : option json :=
  match t with
  | Garbage _ => None
  | Doc j => Some j
  end.

(** Own-property lookup in an object literal. *)
Fixpoint assoc {A : Type} (k : string) (l : list (string * A)) : option A :=
  match l with
  | [] => None
  | (k', v) :: l' => if String.eqb k k' then Some v else assoc k l'
  end.

(** [o[k] = v] on an object literal: an own property keeps its place,
    a new one comes last.  The list keeps the properties in the order
    of their creation; [Object_entries] below gives the order in which
    the object enumerates them. *)
Fixpoint set_prop {A : Type} (k : string) (v : A) (l : list (string * A))
  : list (string * A) :=
  match l with
  | [] => [(k, v)]
  | (k', v') :: l' =>
      if String.eqb k k' then (k, v) :: l' else (k', v') :: set_prop k v l'
  end.

(** [delete o[k]] *)
Fixpoint delete_prop {A : Type} (k : string) (l : list (string * A))
  : list (string * A) :=
  match l with
  | [] => []
  | (k', v') :: l' =>
      if String.eqb k k' then delete_prop k l' else (k', v') :: delete_prop k l'
  end.

(** A property key that is an array index: the decimal numeral,
    without sign or leading zero, of an integer from 0 to 2^32 - 2. *)
Definition digit (c : ascii) : option N :=
  let n := N_of_ascii c in
  if ((48 <=? n) && (n <=? 57))%N then Some (n - 48)%N else None.

Fixpoint numeral (s : string) (acc : N) : option N :=
  match s with
  | EmptyString => Some acc
  | String c s' =>
      match digit c with
      | Some d => numeral s' (10 * acc + d)%N
      | None => None
      end
  end.

Definition array_index (k : string) : option N :=
  match k with
  | EmptyString => None
  | String c rest =>
      if Ascii.eqb c "0"
      then if String.eqb rest "" then Some 0%N else None
      else match numeral k 0 with
           | Some n => if (n <=? 4294967294)%N then Some n else None
           | None => None
           end
  end.

(** The place of the index [n] among properties sorted by index. *)
Fixpoint insert_by_index {A : Type} (n : N) (kv : string * A)
  (l : list (N * (string * A))) : list (N * (string * A)) :=
  match l with
  | [] => [(n, kv)]
  | (m, kv') :: l' =>
      if (n <=? m)%N then (n, kv) :: l
      else (m, kv') :: insert_by_index n kv l'
  end.

(** The properties whose key is an array index, in ascending order of
    the index. *)
Fixpoint index_properties {A : Type} (l : list (string * A))
  : list (N * (string * A)) :=
  match l with
  | [] => []
  | kv :: l' =>
      match array_index (fst kv) with
      | Some n => insert_by_index n kv (index_properties l')
      | None => index_properties l'
      end
  end.

(** [Object.entries(o)], also of a copy [{ ...o }]: the properties
    whose key is an array index come first, in ascending order of the
    index, then the others in the order of their creation. *)
Definition Object_entries {A : Type} (l : list (string * A))
  : list (string * A) :=
  (List.map snd (index_properties l)
   ++ List.filter
        (fun kv =>
           match array_index (fst kv) with Some _ => false | None => true end)
        l)%list.

(** [o.k] for a value [o] that is not null: a primitive has none of the
    properties read by this code. *)
Definition prop (k : string) (j : json) : value :=
  match j with
  | JObj fields => assoc k fields
  | _ => None
  end.

(** [Object.keys(o).length]. *)
Definition keys_length (j : json) : Z :=
  match j with
  | JObj fields => Z.of_nat (List.length fields)
  | JArr items => Z.of_nat (List.length items)
  | JStr s => Z.of_nat (String.length s)
  | _ => 0
  end.

(** [v?.length > n]: [undefined > n] is false.  An object is read at
    its own [length] property, taken to be a number when present. *)
Definition length_gt (v : value) (n : Z) : bool :=
  match v with
  | Some (JArr items) => n <? Z.of_nat (List.length items)
  | Some (JStr s) => n <? Z.of_nat (String.length s)
  | Some (JObj fields) =>
      match assoc "length" fields with
      | Some (JNum m) => n <? m
      | _ => false
      end
  | _ => false
  end.

(** [s.toLowerCase()]. *)
Definition lower_ascii (c : ascii) : ascii :=
  let n := nat_of_ascii c in
  if (Nat.leb 65 n && Nat.leb n 90)%bool then ascii_of_nat (n + 32) else c.

Fixpoint toLowerCase (s : string) : string :=
  match s with
  | EmptyString => EmptyString
  | String c s' => String (lower_ascii c) (toLowerCase s')
  end.

(** [s.startsWith(p)]. *)
Definition startsWith (s p : string) : bool := String.prefix p s.

(** [s.substring(0, n)] for [n >= 0]. *)
Fixpoint substring0 (n : nat) (s : string) : string :=
  match n, s with
  | O, _ => EmptyString
  | S n', EmptyString => EmptyString
  | S n', String c s' => String c (substring0 n' s')
  end.

(** [s.includes(sub)]. *)
Fixpoint includes (s sub : string) : bool :=
  String.prefix sub s ||
  match s with
  | EmptyString => false
  | String _ s' => includes s' sub
  end.

(** [arr.includes(x)] on an array of strings. *)
Definition arr_includes (arr : list string) (x : string) : bool :=
  existsb (String.eqb x) arr.

Definition strlen (s : string) : Z := Z.of_nat (String.length s).
Definition arrlen {A : Type} (l : list A) : Z := Z.of_nat (List.length l).

End JS.

(** ** TransportSelector: [shouldUseSSE] *)

Module Transport.
Import JS.

Inductive complexity : Type := simple | complex.

Definition is_complex (c : complexity) : bool :=
  match c with complex => true | simple => false end.

(** The request headers the classifier reads. *)
Record headers : Type := {
  accept : option string;
  x_prefer_streaming : option string
}.

(** Step 1 of both classifiers: [Some b] when a client header decides. *)
Definition client_preference (req : option headers) : option bool :=
  match req with
  | None => None
  | Some h =>
      if match accept h with
         | Some a => includes a "text/event-stream"
         | None => false
         end
      then Some true
      else if match x_prefer_streaming h with
              | Some v => String.eqb v "true"
              | None => false
              end
      then Some true
      else if match x_prefer_streaming h with
              | Some v => String.eqb v "false"
              | None => false
              end
      then Some false
      else None
  end.

(** *** Gmail server *)
Module Gmail.

Definition TOOL_COMPLEXITY_simple : list string :=
  [ "authenticate_user"; "read_email"; "get_cache_stats";
    "create_label"; "update_label"; "delete_label";
    "get_or_create_label"; "modify_email"; "delete_email" ].

Definition TOOL_COMPLEXITY_complex : list string := [].

Definition TOOL_COMPLEXITY_variable : list string :=
  [ "send_email"; "draft_email"; "search_emails";
    "list_email_labels"; "batch_modify_emails"; "batch_delete_emails" ].

(** The argument object, with the fields the analyzers read, typed as
    the tool schemas type them. *)
Record args : Type := {
  body : option string;
  htmlBody : option string;
  to : option (list string);
  cc : option (list string);
  bcc : option (list string);
  maxResults : option Z;
  query : option string;
  messageIds : option (list string)
}.

(** [args?.f] *)
Definition field {A : Type} (f : args -> option A) (a : option args)
  : option A :=
  match a with
  | None => None
  | Some r => f r
  end.

(** [(x || '').length] *)
Definition str_or_empty_length (s : option string) : Z :=
  match s with
  | Some s => strlen s
  | None => 0
  end.

(** [(x || []).length] *)
Definition arr_or_empty_length (l : option (list string)) : Z :=
  match l with
  | Some l => arrlen l
  | None => 0
  end.

(** [x || d] on a number. *)
Definition num_or (x : option Z) (d : Z) : Z :=
  match x with
  | Some n => if n =? 0 then d else n
  | None => d
  end.

Definition analyzeSendEmail (a : option args) : complexity :=
  let bodyLength :=
    str_or_empty_length (field body a)
    + str_or_empty_length (field htmlBody a) in
  let recipients :=
    arr_or_empty_length (field to a)
    + arr_or_empty_length (field cc a)
    + arr_or_empty_length (field bcc a) in
  if 50000 <? bodyLength then complex
  else if 20 <? recipients then complex
  else if truthy_str (field htmlBody a) && (20000 <? bodyLength)
  then complex
  else simple.

Definition analyzeSearchEmails (a : option args) : complexity :=
  let maxResults := num_or (field maxResults a) 10 in
  let query := match field query a with
               | Some q => q
               | None => ""
               end in
  if 100 <? maxResults then complex
  else if 200 <? strlen query then complex
  else if includes query "has:attachment" && (50 <? maxResults)
  then complex
  else simple.

Definition analyzeBatchModifyEmails (a : option args) : complexity :=
  let messageIds := match field messageIds a with
                    | Some l => l
                    | None => []
                    end in
  if 100 <? arrlen messageIds then complex
  else if 50 <? arrlen messageIds then complex
  else simple.

Definition analyzeBatchDeleteEmails (a : option args) : complexity :=
  let messageIds := match field messageIds a with
                    | Some l => l
                    | None => []
                    end in
  if 50 <? arrlen messageIds then complex
  else if 25 <? arrlen messageIds then complex
  else simple.

(** The [switch] of step 3. *)
Definition variable_complexity (toolName : string) (a : option args)
  : complexity :=
  if String.eqb toolName "send_email" then analyzeSendEmail a
  else if String.eqb toolName "draft_email" then analyzeSendEmail a
  else if String.eqb toolName "search_emails" then analyzeSearchEmails a
  else if String.eqb toolName "batch_modify_emails"
  then analyzeBatchModifyEmails a
  else if String.eqb toolName "batch_delete_emails"
  then analyzeBatchDeleteEmails a
  else simple.

Definition shouldUseSSE (toolName : string) (a : option args)
  (req : option headers) : bool :=
  match client_preference req with
  | Some b => b
  | None =>
      if arr_includes TOOL_COMPLEXITY_simple toolName then false
      else if arr_includes TOOL_COMPLEXITY_complex toolName then true
      else if arr_includes TOOL_COMPLEXITY_variable toolName
      then is_complex (variable_complexity toolName a)
      else false
  end.

End Gmail.

(** *** Google Calendar server *)
Module Calendar.

Definition TOOL_COMPLEXITY_simple : list string :=
  [ "auth_status"; "get_calendar_info"; "get_single_event";
    "get_calendar_list"; "get_event_attendees" ].

Definition TOOL_COMPLEXITY_complex : list string :=
  [ "sync_all_calendars"; "backup_calendar_data"; "import_calendar_file";
    "generate_calendar_report"; "bulk_calendar_migration" ].

Definition TOOL_COMPLEXITY_variable : list string :=
  [ "list_events"; "create_events"; "search_events";
    "update_events"; "delete_events" ].

(** An element of [args.events]. *)
Record event : Type := {
  ev_recurrence : value;
  ev_attendees : value;
  ev_attachments : value
}.

(** The argument object.  [timeMin] and [timeMax] hold, for a non-empty
    string, the time value [new Date(s).getTime()] in milliseconds, [None]
    for an invalid date. *)
Record args : Type := {
  maxResults : option Z;
  timeMin : option (option Z);
  timeMax : option (option Z);
  searchQuery : option string;
  calendarIds : option (list string);
  events : option (list event);
  recurrence : value;
  attendees : value;
  attachments : value;
  query : option string;
  filters : value;
  eventIds : option (list string);
  eventId : option string;
  updates : value;
  deleteRecurring : option bool;
  notifyAttendees : option bool
}.

(** [args?.f] *)
Definition field {A : Type} (f : args -> option A) (a : option args)
  : option A :=
  match a with
  | None => None
  | Some r => f r
  end.

(** [x || d] on a number. *)
Definition num_or (x : option Z) (d : Z) : Z :=
  match x with
  | Some n => if n =? 0 then d else n
  | None => d
  end.

(** [x || {}] *)
Definition obj_or_empty (v : value) : json :=
  if truthy v then match v with Some j => j | None => JObj [] end
  else JObj [].

Definition MS_PER_DAY : Z := 1000 * 60 * 60 * 24.

(** [Math.abs(tmax - tmin) / MS_PER_DAY > 365]; the quotient of the
    integer difference exceeds 365 exactly when the difference exceeds
    365 days, and [NaN > 365] is false. *)
Definition dayRange_gt_365 (tmin tmax : option Z) : bool :=
  match tmin, tmax with
  | Some a, Some b => 365 * MS_PER_DAY <? Z.abs (b - a)
  | _, _ => false
  end.

(** [now_min] and [now_max] are what the clock reads at the two
    [new Date()] expressions. *)
Definition analyzeListEvents (now_min now_max : Z) (a : option args)
  : complexity :=
  let maxResults := num_or (field maxResults a) 10 in
  let timeMin := match field timeMin a with
                 | Some d => d
                 | None => Some now_min
                 end in
  let timeMax := match field timeMax a with
                 | Some d => d
                 | None => Some now_max
                 end in
  if 100 <? maxResults then complex
  else if dayRange_gt_365 timeMin timeMax then complex
  else if match field searchQuery a with
          | Some q => 50 <? strlen q
          | None => false
          end then complex
  else if match field calendarIds a with
          | Some l => 5 <? arrlen l
          | None => false
          end then complex
  else simple.

(** [args] read as an event, for [[args]]. *)
Definition as_event (r : args) : event :=
  {| ev_recurrence := recurrence r;
     ev_attendees := attendees r;
     ev_attachments := attachments r |}.

Definition events_complexity (evs : list event) : complexity :=
  if 10 <? arrlen evs then complex
  else if existsb (fun e => truthy (ev_recurrence e)) evs then complex
  else if existsb (fun e => length_gt (ev_attendees e) 10) evs then complex
  else if existsb (fun e => length_gt (ev_attachments e) 0) evs then complex
  else simple.

(** [None]: with [args] undefined the array is [[undefined]] and reading
    [e.recurrence] raises [TypeError]. *)
Definition analyzeCreateEvents (a : option args) : option complexity :=
  match a with
  | None => None
  | Some r =>
      match events r with
      | Some evs => Some (events_complexity evs)
      | None => Some (events_complexity [as_event r])
      end
  end.

Definition analyzeSearchEvents (a : option args) : complexity :=
  let query := match field query a with
               | Some q => q
               | None => ""
               end in
  let filters := obj_or_empty (field filters a) in
  let maxResults := num_or (field maxResults a) 25 in
  if includes query "*" || includes query "?" then complex
  else if 100 <? strlen query then complex
  else if 100 <? maxResults then complex
  else if 5 <? keys_length filters then complex
  else if truthy (prop "dateRangeIntersection" filters)
          || truthy (prop "attendeeIntersection" filters) then complex
  else if truthy (prop "customFields" filters)
          || truthy (prop "metadata" filters) then complex
  else simple.

(** [Array.isArray(args?.eventIds) ? args.eventIds
     : [args?.eventId].filter(Boolean)], by its length. *)
Definition eventIds_length (a : option args) : Z :=
  match field eventIds a with
  | Some l => arrlen l
  | None => if truthy_str (field eventId a) then 1 else 0
  end.

Definition analyzeUpdateEvents (a : option args) : complexity :=
  let updates := obj_or_empty (field updates a) in
  if 10 <? eventIds_length a then complex
  else if truthy (prop "recurrence" updates)
          || length_gt (prop "attendees" updates) 5 then complex
  else if truthy (prop "moveToCalendar" updates)
          || truthy (prop "duplicateToCalendar" updates) then complex
  else if truthy (prop "attachments" updates)
          || truthy (prop "conferenceData" updates) then complex
  else if 5 <? keys_length updates then complex
  else simple.

(** [x === true] *)
Definition is_true (b : option bool) : bool :=
  match b with
  | Some true => true
  | _ => false
  end.

Definition analyzeDeleteEvents (a : option args) : complexity :=
  if 15 <? eventIds_length a then complex
  else if is_true (field deleteRecurring a) then complex
  else if is_true (field notifyAttendees a) && (5 <? eventIds_length a)
  then complex
  else simple.

(** The [switch] of step 3; [None] when the analyzer raises. *)
Definition variable_complexity (now_min now_max : Z) (toolName : string)
  (a : option args) : option complexity :=
  if String.eqb toolName "list_events"
  then Some (analyzeListEvents now_min now_max a)
  else if String.eqb toolName "create_events" then analyzeCreateEvents a
  else if String.eqb toolName "search_events"
  then Some (analyzeSearchEvents a)
  else if String.eqb toolName "update_events"
  then Some (analyzeUpdateEvents a)
  else if String.eqb toolName "delete_events"
  then Some (analyzeDeleteEvents a)
  else Some simple.

(** [None] when the call raises [TypeError]. *)
Definition shouldUseSSE (now_min now_max : Z) (toolName : string)
  (a : option args) (req : option headers) : option bool :=
  match client_preference req with
  | Some b => Some b
  | None =>
      if arr_includes TOOL_COMPLEXITY_simple toolName then Some false
      else if arr_includes TOOL_COMPLEXITY_complex toolName then Some true
      else if arr_includes TOOL_COMPLEXITY_variable toolName
      then option_map is_complex
             (variable_complexity now_min now_max toolName a)
      else Some false
  end.

End Calendar.

End Transport.

(** ** The file system *)

Module Fs.
Import JS.

(** The files, by full path, in the order [readdir] lists them; whether
    the storage directory exists; whether the process may write. *)
Record disk : Type := {
  dir_exists : bool;
  files : list (string * text);
  writable : bool
}.

(** [path.join(dir, name)] for a [name] without separators. *)
Definition path_join (dir name : string) : string :=
  dir ++ "/" ++ name.

(** [fs.existsSync(p)] *)
Definition existsSync (d : disk) (p : string) : bool :=
  match assoc p (files d) with
  | Some _ => true
  | None => false
  end.

(** [fs.readFileSync(p, 'utf8')]: [None] stands for the error raised on
    a missing file. *)
Definition readFileSync (d : disk) (p : string) : option text :=
  assoc p (files d).

(** [s] without its prefix [p]. *)
Fixpoint strip_prefix (p s : string) : option string :=
  match p, s with
  | EmptyString, _ => Some s
  | String a p', String b s' =>
      if Ascii.eqb a b then strip_prefix p' s' else None
  | String _ _, EmptyString => None
  end.

(** The name of [p] as an entry of [dir], when [p] lies directly in it. *)
Definition entry_name (dir p : string) : option string :=
  match strip_prefix (dir ++ "/") p with
  | Some n => if includes n "/" then None else Some n
  | None => None
  end.

Fixpoint entry_names (dir : string) (l : list (string * text))
  : list string :=
  match l with
  | [] => []
  | (p, _) :: l' =>
      match entry_name dir p with
      | Some n => n :: entry_names dir l'
      | None => entry_names dir l'
      end
  end.

(** [fs.readdirSync(dir)] of the storage directory: [None] stands for
    the error raised when the directory does not exist. *)
Definition readdirSync (d : disk) (dir : string) : option (list string) :=
  if dir_exists d then Some (entry_names dir (files d)) else None.

(** Replace the content at [p], or add [p] as the last file. *)
Fixpoint put (p : string) (t : text) (l : list (string * text))
  : list (string * text) :=
  match l with
  | [] => [(p, t)]
  | (p', t') :: l' =>
      if String.eqb p p' then (p, t) :: l' else (p', t') :: put p t l'
  end.

(** [fs.mkdirSync(dir, { recursive: true })] of the storage directory;
    [None] when it raises. *)
Definition mkdirSync (d : disk) : option disk :=
  if dir_exists d then Some d
  else if writable d
  then Some {| dir_exists := true; files := files d; writable := true |}
  else None.

(** [fs.writeFileSync(p, t)]; [None] when it raises. *)
Definition writeFileSync (d : disk) (p : string) (t : text) : option disk :=
  if writable d && dir_exists d
  then Some {| dir_exists := true; files := put p t (files d);
               writable := true |}
  else None.

Fixpoint remove (p : string) (l : list (string * text))
  : list (string * text) :=
  match l with
  | [] => []
  | (p', t') :: l' =>
      if String.eqb p p' then l' else (p', t') :: remove p l'
  end.

(** [fs.unlink(p)]; [None] when it raises. *)
Definition unlink (d : disk) (p : string) : option disk :=
  if writable d && existsSync d p
  then Some {| dir_exists := dir_exists d; files := remove p (files d);
               writable := true |}
  else None.

End Fs.

(** ** Token files and the fuzzy scan *)

Module TokenFiles.
Import JS Fs.

(** The file name of the credential record of an identity. *)
Definition token_file_name (id : string) : string :=
  "." ++ id ++ "-gcp-saved-tokens.json".

(** A line terminator, which [.] of a regular expression does not
    match. *)
Definition line_terminator (c : ascii) : bool :=
  (Ascii.eqb c "010" || Ascii.eqb c "013")%char.

(** Group 1 of [/^\.(.+)-gcp-saved-tokens/] on the text after the
    leading dot: the longest run the greedy [.+] can keep. *)
Fixpoint match_id (r : string) : option string :=
  match r with
  | EmptyString => None
  | String c r' =>
      if line_terminator c then None
      else match match_id r' with
           | Some id => Some (String c id)
           | None =>
               if String.prefix "-gcp-saved-tokens" r'
               then Some (String c EmptyString)
               else None
           end
  end.

(** [fileLower.match(/^\.(.+)-gcp-saved-tokens/)], by its group 1. *)
Definition fileIdMatch (fileLower : string) : option string :=
  match fileLower with
  | String c r => if Ascii.eqb c "."%char then match_id r else None
  | EmptyString => None
  end.

(** The test applied to a file id and a search prefix. *)
Definition id_matches (fileId searchPrefix : string) : bool :=
  startsWith fileId searchPrefix
  || startsWith searchPrefix
       (substring0 (Nat.min (String.length fileId)
                            (String.length searchPrefix)) fileId).

(** The body of the inner loop for one [file]. *)
Definition file_matches (searchPrefix file : string) : bool :=
  if includes file "gcp-saved-tokens"
  then match fileIdMatch (toLowerCase file) with
       | Some fileId => id_matches fileId searchPrefix
       | None => false
       end
  else false.

(** The inner loop: the first matching file of the listing. *)
Fixpoint scan_files (searchPrefix : string) (listing : list string)
  : option string :=
  match listing with
  | [] => None
  | file :: rest =>
      if file_matches searchPrefix file then Some file
      else scan_files searchPrefix rest
  end.

Definition prefixLengths (targetLower : string) : list nat :=
  let n := String.length targetLower in
  [ n; Nat.max 6 (n - 4); 3 ]%nat.

(** The outer loop over the prefix lengths. *)
Fixpoint scan_lengths (targetLower : string) (listing : list string)
  (lengths : list nat) : option string :=
  match lengths with
  | [] => None
  | prefixLength :: rest =>
      match scan_files (substring0 prefixLength targetLower) listing with
      | Some file => Some file
      | None => scan_lengths targetLower listing rest
      end
  end.

(** [findCaseInsensitiveTokenFile], shared by [UserManager] (over
    [CONFIG_DIR]) and the calendar server's [utils] (over the project
    root).  An error of [readdirSync] is caught and gives [null]. *)
Definition findCaseInsensitiveTokenFile (dir : string) (d : disk)
  (hashID : string) : option string :=
  match readdirSync d dir with
  | None => None
  | Some listing =>
      let targetLower := toLowerCase hashID in
      match scan_lengths targetLower listing (prefixLengths targetLower) with
      | Some file => Some (path_join dir file)
      | None => None
      end
  end.

End TokenFiles.

(** ** Gmail server: [UserManager] *)

Module UserManager.
Import JS Fs TokenFiles.

Section WithConfigDir.

Variable CONFIG_DIR : string.

Definition getCredentialsPath (gmailHashID : string) : string :=
  path_join CONFIG_DIR (token_file_name gmailHashID).

Definition findCaseInsensitiveTokenFile (d : disk) (gmailHashID : string)
  : option string :=
  TokenFiles.findCaseInsensitiveTokenFile CONFIG_DIR d gmailHashID.

(** The value of [finalCredPath] when [loadUserCredentials] reaches its
    [try] block; [None] on the early [return null]. *)
Definition finalCredPath (d : disk) (gmailHashID : string) : option string :=
  let credPath := getCredentialsPath gmailHashID in
  let credPathWithSave := credPath ++ ".save" in
  if existsSync d credPath then Some credPath
  else if existsSync d credPathWithSave then Some credPathWithSave
  else findCaseInsensitiveTokenFile d gmailHashID.

(** [loadUserCredentials]: the parsed document, [JNull] for [null]. *)
Definition loadUserCredentials (d : disk) (gmailHashID : string) : json :=
  match finalCredPath d gmailHashID with
  | None => JNull
  | Some p =>
      match readFileSync d p with
      | None => JNull
      | Some t =>
          match JSON_parse t with
          | Some credentials => credentials
          | None => JNull
          end
      end
  end.

(** The loop that fills [cleanCredentials]. *)
Definition cleanCredentials (credentials : list (string * value))
  : list (string * json) :=
  fold_left
    (fun clean kv =>
       match snd kv with
       | None => clean
       | Some JNull => clean
       | Some v => set_prop (fst kv) v clean
       end)
    credentials [].

(** [saveUserCredentials]; [None] when it raises. *)
Definition saveUserCredentials (d : disk) (gmailHashID : string)
  (credentials : list (string * value)) : option disk :=
  let clean := cleanCredentials credentials in
  let credPath := getCredentialsPath gmailHashID in
  match mkdirSync d with
  | None => None
  | Some d1 => writeFileSync d1 credPath (Doc (JObj clean))
  end.

(** *** The callback handler of [authenticateUser] *)

Record request : Type := {
  on_callback_path : bool;
  code : option string;
  error : option string;
  state : option text
}.

Inductive page : Type :=
| NotFoundPage
| AuthenticationErrorPage (e : string)
| NoAuthorizationCodePage
| InvalidStateParameterPage
| AuthenticationSuccessfulPage
| AuthenticationFailedPage.

Record response : Type := { status : Z; body : page }.

(** What the handler acts on: the disk, the identities with a running
    auth server and the identities with a cached client. *)
Record world : Type := {
  disk_of : disk;
  authServers : gset string;
  clientCache : gset string
}.

Record outcome : Type := {
  resp : response;
  after : world;
  exchanged : option string;   (* the code sent to the provider *)
  rejected : bool              (* [reject] was called *)
}.

Definition cleanupAuthServer (w : world) (gmailHashID : string) : world :=
  {| disk_of := disk_of w;
     authServers := authServers w ∖ {[ gmailHashID ]};
     clientCache := clientCache w |}.

Definition reject_with (w : world) (gmailHashID : string) (st : Z) (p : page)
  : outcome :=
  {| resp := {| status := st; body := p |};
     after := cleanupAuthServer w gmailHashID;
     exchanged := None;
     rejected := true |}.

(** The outcome of the state validation: [true] when the handler goes on
    to the exchange. *)
Definition state_accepted (gmailHashID : string) (st : option text) : bool :=
  match st with
  | None => true
  | Some t =>
      if truthy_text t
      then match JSON_parse t with
           | None => false
           | Some JNull => false          (* reading [userID] raises *)
           | Some stateData =>
               match prop "userID" stateData with
               | Some (JStr u) => String.eqb u gmailHashID
               | _ => false
               end
           end
      else true
  end.

(** [getToken] is the provider's answer to a code: the tokens, or [None]
    when the exchange raises. *)
Definition handle_callback
  (getToken : string -> option (list (string * value)))
  (gmailHashID : string) (w : world) (req : request) : outcome :=
  if negb (on_callback_path req)
  then {| resp := {| status := 404; body := NotFoundPage |};
          after := w; exchanged := None; rejected := false |}
  else if truthy_str (error req)
  then reject_with w gmailHashID 400
         (AuthenticationErrorPage
            (match error req with Some e => e | None => "" end))
  else if negb (truthy_str (code req))
  then reject_with w gmailHashID 400 NoAuthorizationCodePage
  else if negb (state_accepted gmailHashID (state req))
  then reject_with w gmailHashID 400 InvalidStateParameterPage
  else
    let c := match code req with Some c => c | None => "" end in
    match getToken c with
    | None =>
        {| resp := {| status := 500; body := AuthenticationFailedPage |};
           after := cleanupAuthServer w gmailHashID;
           exchanged := Some c; rejected := true |}
    | Some tokens =>
        match saveUserCredentials (disk_of w) gmailHashID tokens with
        | None =>
            {| resp := {| status := 500; body := AuthenticationFailedPage |};
               after := cleanupAuthServer w gmailHashID;
               exchanged := Some c; rejected := true |}
        | Some d' =>
            {| resp := {| status := 200;
                          body := AuthenticationSuccessfulPage |};
               after :=
                 cleanupAuthServer
                   {| disk_of := d';
                      authServers := authServers w;
                      clientCache := clientCache w ∖ {[ gmailHashID ]} |}
                   gmailHashID;
               exchanged := Some c; rejected := false |}
        end
    end.

End WithConfigDir.

End UserManager.

(** ** Errors *)

Module Exn.

Inductive exn : Type :=
| ENOENT          (* no such file *)
| EACCES          (* any other file-system error *)
| SyntaxError     (* [JSON.parse] *)
| TypeError       (* a property of [null] or [undefined] is read *)
| ErrorMessage (msg : string).   (* [new Error(msg)] *)

Inductive result (A : Type) : Type :=
| Ok (a : A)
| Raise (e : exn).

Arguments Ok {A} a.
Arguments Raise {A} e.

Definition bind {A B : Type} (r : result A) (k : A -> result B) : result B :=
  match r with
  | Ok a => k a
  | Raise e => Raise e
  end.

(** [try { r } catch (e) { h e }] *)
Definition try_catch {A : Type} (r : result A) (h : exn -> result A)
  : result A :=
  match r with
  | Ok a => Ok a
  | Raise e => h e
  end.

End Exn.

Notation "'let!' x ':=' r 'in' k" := (Exn.bind r (fun x => k))
  (at level 10, x name, r at level 100, k at level 200).

(** ** Calendar server: [UserHashCache] *)

Module UserHashCache.
Import JS Fs Exn.

(** *** Loading *)

(** The cache the constructor builds and [loadCache] resets to. *)
Definition emptyCache : json :=
  JObj [("version", JStr "1.0.0"); ("entries", JObj [])].

(** [fs.readFile(this.cacheFilePath, 'utf8')] *)
Definition readFile (d : disk) (p : string) : result text :=
  match readFileSync d p with
  | Some t => Ok t
  | None => Raise ENOENT
  end.

(** [JSON.parse(cacheContent)] *)
Definition parse (t : text) : result json :=
  match JSON_parse t with
  | Some j => Ok j
  | None => Raise SyntaxError
  end.

(** [loadedCache.version && loadedCache.entries], which raises on
    [null]. *)
Definition structure_check (loadedCache : json) : result bool :=
  match loadedCache with
  | JNull => Raise TypeError
  | _ => Ok (truthy (prop "version" loadedCache)
             && truthy (prop "entries" loadedCache))
  end.

(** The [try] block of [loadCache], given what [readFile] did: the new
    value of [this.cache]. *)
Definition loadCache_try (read : result text) : result json :=
  let! cacheContent := read in
  let! loadedCache := parse cacheContent in
  let! valid := structure_check loadedCache in
  if valid then Ok loadedCache
  else Raise (ErrorMessage "Invalid cache structure").

(** [loadCache]: every error is caught and resets the cache. *)
Definition loadCache (read : result text) : result json :=
  try_catch (loadCache_try read) (fun _ => Ok emptyCache).

(** [Object.keys(this.cache.entries).length], which raises when
    [entries] is [null] or [undefined]. *)
Definition entryCount (cache : json) : result Z :=
  match cache with
  | JNull => Raise TypeError
  | _ =>
      match prop "entries" cache with
      | None => Raise TypeError
      | Some JNull => Raise TypeError
      | Some entries => Ok (keys_length entries)
      end
  end.

(** [initialize], from the cache the constructor left in [this.cache]:
    the cache afterwards. *)
Definition initialize (cache0 : json) (read : result text) : result json :=
  try_catch
    (let! cache := loadCache read in
     let! entryCount := entryCount cache in
     Ok cache)
    (fun _ => Ok cache0).

(** *** The table of the declared type [CacheData] *)

Record CacheEntry : Type := {
  originalUserHashID : string;
  actualTokenFilename : string;
  createdAt : Z;
  lastAccessed : Z
}.

Record CacheData : Type := {
  version : string;
  entries : list (string * CacheEntry)
}.

Definition encode_entry (e : CacheEntry) : json :=
  JObj [ ("originalUserHashID", JStr (originalUserHashID e));
         ("actualTokenFilename", JStr (actualTokenFilename e));
         ("createdAt", JNum (createdAt e));
         ("lastAccessed", JNum (lastAccessed e)) ].

(** The document [JSON.stringify(this.cache, null, 2)] denotes. *)
Definition encode (c : CacheData) : json :=
  JObj [ ("version", JStr (version c));
         ("entries",
          JObj (List.map (fun kv => (fst kv, encode_entry (snd kv)))
                  (entries c))) ].

(** The cache object with its file: [this.cache], [this.isDirty] and the
    disk holding [this.cacheFilePath].  The entries are the properties
    of an object whose prototype is [Object.prototype], as the
    constructor and [JSON.parse] make it; the operations below are
    those of the code on identities that name none of the members the
    object inherits. *)
Record t : Type := {
  cache : CacheData;
  isDirty : bool;
  on_disk : disk
}.

Section WithCacheFile.

Variable cacheFilePath : string.

(** [saveCache]: a failed write is logged and leaves the cache dirty. *)
Definition saveCache (c : t) : t :=
  if isDirty c
  then match writeFileSync (on_disk c) cacheFilePath
               (Doc (encode (cache c))) with
       | Some d' => {| cache := cache c; isDirty := false; on_disk := d' |}
       | None => c
       end
  else c.

Definition with_entries (c : t) (es : list (string * CacheEntry)) : t :=
  {| cache := {| version := version (cache c); entries := es |};
     isDirty := true;
     on_disk := on_disk c |}.

(** [addEntry] at time [now]. *)
Definition addEntry (now : Z) (c : t) (original actual : string) : t :=
  let created :=
    match assoc original (entries (cache c)) with
    | Some e => if createdAt e =? 0 then now else createdAt e
    | None => now
    end in
  saveCache
    (with_entries c
       (set_prop original
          {| originalUserHashID := original;
             actualTokenFilename := actual;
             createdAt := created;
             lastAccessed := now |}
          (entries (cache c)))).

(** [getTokenFilename] at time [now]. *)
Definition getTokenFilename (now : Z) (c : t) (original : string)
  : option string * t :=
  match assoc original (entries (cache c)) with
  | Some e =>
      (Some (actualTokenFilename e),
       saveCache
         (with_entries c
            (set_prop original
               {| originalUserHashID := originalUserHashID e;
                  actualTokenFilename := actualTokenFilename e;
                  createdAt := createdAt e;
                  lastAccessed := now |}
               (entries (cache c)))))
  | None => (None, c)
  end.

(** [removeEntry] *)
Definition removeEntry (c : t) (original : string) : bool * t :=
  match assoc original (entries (cache c)) with
  | Some _ =>
      (true,
       saveCache (with_entries c (delete_prop original (entries (cache c)))))
  | None => (false, c)
  end.

(** [hasEntry] *)
Definition hasEntry (c : t) (original : string) : bool :=
  match assoc original (entries (cache c)) with
  | Some _ => true
  | None => false
  end.

(** [getAllEntries]: a copy of the entries, listed in the order in
    which [Object.entries] enumerates it. *)
Definition getAllEntries (c : t) : list (string * CacheEntry) :=
  Object_entries (entries (cache c)).

End WithCacheFile.

End UserHashCache.

(** ** Calendar server: token paths ([utils]) *)

Module Utils.
Import JS Fs TokenFiles.

Section WithProjectRoot.

Variable projectRoot : string.
Variable cacheFilePath : string.

Definition getSecureTokenPath : string :=
  path_join projectRoot ".gcp-saved-tokens.json".

Definition getSecureTokenPathWithUserHash (userHash : string) : string :=
  path_join projectRoot ("." ++ userHash ++ "-gcp-saved-tokens.json").

Definition findCaseInsensitiveTokenFile (d : disk) (userHashID : string)
  : option string :=
  TokenFiles.findCaseInsensitiveTokenFile projectRoot d userHashID.

Definition getSecureTokenPathWithFuzzyMatching (d : disk) (userHash : string)
  : string :=
  let exactPath := getSecureTokenPathWithUserHash userHash in
  if existsSync d exactPath then exactPath
  else match findCaseInsensitiveTokenFile d userHash with
       | Some fuzzyPath => fuzzyPath
       | None => exactPath
       end.

(** [getSecureTokenPathWithCacheAndFuzzyMatching] at time [now], on the
    initialized cache [c]: the path and the cache afterwards. *)
Definition getSecureTokenPathWithCacheAndFuzzyMatching (now : Z)
  (c : UserHashCache.t) (userHash : string) : string * UserHashCache.t :=
  let (cachedPath, c1) :=
    UserHashCache.getTokenFilename cacheFilePath now c userHash in
  if truthy_str cachedPath
  then
    let p := match cachedPath with Some p => p | None => "" end in
    if existsSync (UserHashCache.on_disk c1) p then (p, c1)
    else
      let c2 := snd (UserHashCache.removeEntry cacheFilePath c1 userHash) in
      (getSecureTokenPathWithFuzzyMatching (UserHashCache.on_disk c2) userHash,
       c2)
  else
    (getSecureTokenPathWithFuzzyMatching (UserHashCache.on_disk c1) userHash,
     c1).

End WithProjectRoot.

End Utils.

(** ** Calendar server: [TokenManager] *)

Module TokenManager.
Import JS Fs Exn.

(** A credentials object: its properties, some of which may hold
    [undefined]. *)
Definition Credentials : Type := list (string * value).

(** [credentials.k] *)
Definition cred (k : string) (c : Credentials) : value :=
  match assoc k c with
  | Some v => v
  | None => None
  end.

(** The properties [JSON.stringify] writes: those that are not
    [undefined]. *)
Fixpoint stringify_fields (c : Credentials) : list (string * json) :=
  match c with
  | [] => []
  | (k, Some v) :: c' => (k, v) :: stringify_fields c'
  | (k, None) :: c' => stringify_fields c'
  end.

(** The credentials object a parsed document is. *)
Definition of_json (j : json) : Credentials :=
  match j with
  | JObj fields => List.map (fun kv => (fst kv, Some (snd kv))) fields
  | _ => []
  end.

(** [this.tokenPath] and [this.oauth2Client.credentials]. *)
Record t : Type := {
  tokenPath : string;
  credentials : Credentials
}.

(** What [oauth2Client.refreshAccessToken()] does. *)
Inductive refresh_response : Type :=
| Refreshed (newTokens : Credentials)
| InvalidGrant          (* a GaxiosError whose data.error is invalid_grant *)
| RefreshFailed.        (* any other error *)

Definition BUFFER_MS : Z := 5 * 60 * 1000.

(** The [isExpired] of [refreshTokensIfNeeded] at time [now].
    [expiry_date] is a number when it is truthy, as [Credentials]
    declares it; any other truthy value is read as [NaN]. *)
Definition isExpired (now : Z) (c : Credentials) : bool :=
  let expiryDate := cred "expiry_date" c in
  if truthy expiryDate
  then match expiryDate with
       | Some (JNum n) => n - BUFFER_MS <=? now
       | _ => false
       end
  else negb (truthy (cred "access_token" c)).

(** The largest time value of a [Date], in milliseconds on either
    side of the epoch. *)
Definition MAX_TIME_VALUE : Z := 8640000000000000.

(** Whether the debug log at the head of [refreshTokensIfNeeded] can
    print the expiry date.  It prints ['none'] for a falsy date and
    [new Date(expiryDate).toISOString()] otherwise, which raises
    RangeError unless the date is a time value a [Date] can hold; the
    call then ends before it looks at the tokens.
    [refreshTokensIfNeeded] below is the call on credentials whose
    expiry date is printed. *)
Definition expiry_date_is_logged (c : Credentials) : bool :=
  let expiryDate := cred "expiry_date" c in
  if truthy expiryDate
  then match expiryDate with
       | Some (JNum n) => (- MAX_TIME_VALUE <=? n) && (n <=? MAX_TIME_VALUE)
       | _ => false
       end
  else true.

Section WithProjectRoot.

Variable projectRoot : string.
Variable cacheFilePath : string.

(** [new TokenManager(oauth2Client, userID)] on the disk [d]. *)
Definition constructor (d : disk) (creds : Credentials)
  (userID : option string) : t :=
  {| tokenPath :=
       if truthy_str userID
       then Utils.getSecureTokenPathWithFuzzyMatching projectRoot d
              (match userID with Some u => u | None => "" end)
       else Utils.getSecureTokenPath projectRoot;
     credentials := creds |}.

(** [ensureTokenDirectoryExists] *)
Definition ensureTokenDirectoryExists (d : disk) : result disk :=
  match mkdirSync d with
  | Some d' => Ok d'
  | None => Raise EACCES
  end.

(** [fs.writeFile(this.tokenPath, ..., { mode: 0o600 })] *)
Definition writeFile (d : disk) (p : string) (content : text) : result disk :=
  match writeFileSync d p content with
  | Some d' => Ok d'
  | None => Raise EACCES
  end.

(** [saveTokens(tokens, originalUserHashID)] at time [now]; an error is
    raised again. *)
Definition saveTokens (now : Z) (tm : t) (c : UserHashCache.t)
  (tokens : Credentials) (originalUserHashID : option string)
  : result (t * UserHashCache.t) :=
  let! d1 := ensureTokenDirectoryExists (UserHashCache.on_disk c) in
  let! d2 := writeFile d1 (tokenPath tm)
               (Doc (JObj (stringify_fields tokens))) in
  let tm' := {| tokenPath := tokenPath tm; credentials := tokens |} in
  let c2 := {| UserHashCache.cache := UserHashCache.cache c;
               UserHashCache.isDirty := UserHashCache.isDirty c;
               UserHashCache.on_disk := d2 |} in
  if truthy_str originalUserHashID
     && negb (String.eqb (tokenPath tm) "")
  then Ok (tm',
           UserHashCache.addEntry cacheFilePath now c2
             (match originalUserHashID with Some u => u | None => "" end)
             (tokenPath tm))
  else Ok (tm', c2).

(** The part of the loaders after the token path is fixed: the [try]
    block with its [catch].  [unlink] is attempted for an error that
    carries a code other than ENOENT. *)
Definition load_at (tm : t) (d : disk) : bool * t * disk :=
  match mkdirSync d with
  | None =>
      (false, tm,
       match unlink d (tokenPath tm) with Some d' => d' | None => d end)
  | Some d1 =>
      if negb (existsSync d1 (tokenPath tm)) then (false, tm, d1)
      else match readFileSync d1 (tokenPath tm) with
           | None => (false, tm, d1)
           | Some content =>
               match JSON_parse content with
               | None => (false, tm, d1)
               | Some tokens =>
                   match tokens with
                   | JObj _ | JArr _ =>
                       (true,
                        {| tokenPath := tokenPath tm;
                           credentials := of_json tokens |},
                        d1)
                   | _ => (false, tm, d1)
                   end
               end
           end
  end.

Definition loadSavedTokens (tm : t) (d : disk) : bool * t * disk :=
  load_at tm d.

Definition loadSavedTokensWithUserHash (tm : t) (d : disk)
  (userHashID : string) : bool * t * disk :=
  let fuzzyTokenPath :=
    Utils.getSecureTokenPathWithFuzzyMatching projectRoot d userHashID in
  load_at {| tokenPath := fuzzyTokenPath; credentials := credentials tm |} d.

(** The loop of the invalid-grant branch over [getAllEntries()]: the
    key of the first entry that names [path]. *)
Fixpoint first_entry_for (path : string)
  (es : list (string * UserHashCache.CacheEntry)) : option string :=
  match es with
  | [] => None
  | (userHashID, entry) :: es' =>
      if String.eqb (UserHashCache.actualTokenFilename entry) path
      then Some userHashID
      else first_entry_for path es'
  end.

(** [refreshTokensIfNeeded] at time [now], with [provider] the answer
    of [refreshAccessToken] should it be called, on credentials for
    which [expiry_date_is_logged] holds.  The file that the listener of
    the tokens event writes after a refresh is not part of the call. *)
Definition refreshTokensIfNeeded (now : Z) (provider : refresh_response)
  (tm : t) (c : UserHashCache.t) : bool * t * UserHashCache.t :=
  let creds := credentials tm in
  if isExpired now creds && truthy (cred "refresh_token" creds)
  then
    match provider with
    | Refreshed newTokens =>
        if truthy (cred "access_token" newTokens)
        then (true,
              {| tokenPath := tokenPath tm; credentials := newTokens |}, c)
        else (false, tm, c)
    | InvalidGrant =>
        match first_entry_for (tokenPath tm)
                (UserHashCache.getAllEntries c) with
        | Some userHashID =>
            (false, tm,
             snd (UserHashCache.removeEntry cacheFilePath c userHashID))
        | None => (false, tm, c)
        end
    | RefreshFailed => (false, tm, c)
    end
  else if negb (truthy (cred "access_token" creds))
          && negb (truthy (cred "refresh_token" creds))
  then (false, tm, c)
  else (true, tm, c).

End WithProjectRoot.

End TokenManager.

(** ** Calendar server: [CallbackDispatcher] *)

Module CallbackDispatcher.
Import JS.

Record AuthServerInfo : Type := {
  userID : string;
  port : Z;
  timestamp : Z
}.

(** [this.activeServers], a [Map] from user identities. *)
Abbreviation table := (gmap string AuthServerInfo).

Inductive reply : Type :=
| MissingStateParameter                      (* 400 *)
| InvalidStateParameter                      (* 400 *)
| NoActiveSession (userID : value)           (* 404 *)
| Relayed (status : Z) (content : string)    (* the downstream answer *)
| AuthenticationFailed (status : Z) (statusText : string)
| InternalServerError                        (* 500 *)
| MissingUserIDOrPort                        (* 400 *)
| MissingUserID                              (* 400 *)
| Registered (userID : string) (port : Z)
| Unregistered (userID : string) (removed : bool).

Definition reply_status (r : reply) : Z :=
  match r with
  | MissingStateParameter => 400
  | InvalidStateParameter => 400
  | NoActiveSession _ => 404
  | Relayed status _ => status
  | AuthenticationFailed status _ => status
  | InternalServerError => 500
  | MissingUserIDOrPort => 400
  | MissingUserID => 400
  | Registered _ _ => 200
  | Unregistered _ _ => 200
  end.

(** What the loopback request to an auth server does: it answers with a
    status, a status text and a body that may fail to be read, or the
    request raises. *)
Inductive downstream : Type :=
| Answer (status : Z) (statusText : string) (content : option string)
| FetchError.

(** [response.ok] *)
Definition ok (status : Z) : bool := (200 <=? status) && (status <=? 299).

(** The user identity in the state: [None] when parsing or reading
    [userID] raises. *)
Definition userID_of_state (st : text) : option value :=
  match JSON_parse st with
  | None => None
  | Some JNull => None
  | Some stateData => Some (prop "userID" stateData)
  end.

(** [this.activeServers.get(userID)] for the value read from the
    state: the keys are strings. *)
Definition get (servers : table) (u : value) : option AuthServerInfo :=
  match u with
  | Some (JStr u) => servers !! u
  | _ => None
  end.

(** The handler of GET /oauth2callback; [fetch] gives what the request
    forwarded to a port does. *)
Definition oauth2callback (fetch : Z -> downstream) (servers : table)
  (st : option text) : reply * table :=
  match st with
  | None => (MissingStateParameter, servers)
  | Some st =>
      if negb (truthy_text st) then (MissingStateParameter, servers)
      else
        match userID_of_state st with
        | None => (InvalidStateParameter, servers)
        | Some u =>
            match get servers u with
            | None => (NoActiveSession u, servers)
            | Some authServer =>
                match fetch (port authServer) with
                | Answer status statusText content =>
                    if ok status
                    then match content with
                         | Some content =>
                             (Relayed status content,
                              match u with
                              | Some (JStr u) => delete u servers
                              | _ => servers
                              end)
                         | None => (InternalServerError, servers)
                         end
                    else (AuthenticationFailed status statusText, servers)
                | FetchError => (InternalServerError, servers)
                end
            end
        end
  end.

(** The handler of POST /register-auth-server at time [now]. *)
Definition register (now : Z) (servers : table)
  (u : option string) (p : option Z) : reply * table :=
  match u, p with
  | Some u, Some p =>
      if negb (String.eqb u "") && negb (p =? 0)
      then (Registered u p,
            <[ u := {| userID := u; port := p; timestamp := now |} ]> servers)
      else (MissingUserIDOrPort, servers)
  | _, _ => (MissingUserIDOrPort, servers)
  end.

(** The handler of POST /unregister-auth-server. *)
Definition unregister (servers : table) (u : option string) : reply * table :=
  match u with
  | Some u =>
      if negb (String.eqb u "")
      then (Unregistered u (bool_decide (is_Some (servers !! u))),
            delete u servers)
      else (MissingUserID, servers)
  | None => (MissingUserID, servers)
  end.

Definition maxAge : Z := 30 * 60 * 1000.

(** The periodic sweep at time [now]. *)
Definition cleanup (now : Z) (servers : table) : table :=
  filter (fun kv => ¬ (now - timestamp (snd kv) > maxAge)) servers.

(** The [servers] of GET /status, by user identity and port. *)
Definition status_servers (servers : table) : list (string * Z) :=
  (fun kv => (fst kv, port (snd kv))) <$> map_to_list servers.

(** One request, or one tick of the sweep. *)
Inductive step (servers : table) : table -> Prop :=
| step_callback fetch st :
    step servers (snd (oauth2callback fetch servers st))
| step_register now u p :
    step servers (snd (register now servers u p))
| step_unregister u :
    step servers (snd (unregister servers u))
| step_cleanup now :
    step servers (cleanup now servers).

(** The tables the dispatcher can be in, from the empty one it starts
    with. *)
Inductive reachable : table -> Prop :=
| reachable_start : reachable ∅
| reachable_step servers servers' :
    reachable servers -> step servers servers' -> reachable servers'.

End CallbackDispatcher.

From Stdlib Require DecimalString.

(** * Further parts of the two servers

    The conventions are those above.  An identity that serves as a key
    of the lookup cache is not the name of a member every object
    inherits ([constructor], [__proto__] and the like), so that reading
    [entries[id]] is a lookup among the entries; the handler table of
    the calendar server, whose keys are fixed, is modelled with the
    members it inherits. *)

(** ** Calendar server: maintenance of the lookup cache *)

Module CacheMaintenance.
Import JS Fs UserHashCache.

Section WithCacheFile.

Variable cacheFilePath : string.

(** The loop of [cleanup] over the snapshot [Object.entries] gave: an
    entry last accessed before [cutoffTime] is deleted by its key and
    counted. *)
Fixpoint cleanup_loop (cutoffTime : Z) (snapshot : list (string * CacheEntry))
  (es : list (string * CacheEntry)) (removedCount : Z)
  : list (string * CacheEntry) * Z :=
  match snapshot with
  | [] => (es, removedCount)
  | (userHashID, entry) :: rest =>
      if lastAccessed entry <? cutoffTime
      then cleanup_loop cutoffTime rest (delete_prop userHashID es)
             (removedCount + 1)
      else cleanup_loop cutoffTime rest es removedCount
  end.

(** [cleanup(maxAgeMs)] at time [now]: the number of entries removed
    and the cache afterwards. *)
Definition cleanup (now maxAgeMs : Z) (c : t) : Z * t :=
  let cutoffTime := now - maxAgeMs in
  let (es, removedCount) :=
    cleanup_loop cutoffTime (entries (cache c)) (entries (cache c)) 0 in
  if 0 <? removedCount
  then (removedCount, saveCache cacheFilePath (with_entries c es))
  else (removedCount, c).

Definition DEFAULT_MAX_AGE_MS : Z := 30 * 24 * 60 * 60 * 1000.

(** The counters of [validateEntries]. *)
Record validation : Type := {
  valid : Z;
  invalid : Z;
  removed : Z
}.

(** The first loop of [validateEntries]: [fs.access] on the file of
    each entry. *)
Fixpoint validate_loop (d : disk) (snapshot : list (string * CacheEntry))
  (validCount invalidCount : Z) (entriesToRemove : list string)
  : Z * Z * list string :=
  match snapshot with
  | [] => (validCount, invalidCount, entriesToRemove)
  | (userHashID, entry) :: rest =>
      if existsSync d (actualTokenFilename entry)
      then validate_loop d rest (validCount + 1) invalidCount entriesToRemove
      else validate_loop d rest validCount (invalidCount + 1)
             (entriesToRemove ++ [userHashID])%list
  end.

(** The second loop: the invalid entries are deleted and counted. *)
Fixpoint remove_loop (entriesToRemove : list string)
  (es : list (string * CacheEntry)) (removedCount : Z)
  : list (string * CacheEntry) * Z :=
  match entriesToRemove with
  | [] => (es, removedCount)
  | userHashID :: rest =>
      remove_loop rest (delete_prop userHashID es) (removedCount + 1)
  end.

(** [validateEntries] *)
Definition validateEntries (c : t) : validation * t :=
  let '(validCount, invalidCount, entriesToRemove) :=
    validate_loop (on_disk c) (entries (cache c)) 0 0 [] in
  let (es, removedCount) :=
    remove_loop entriesToRemove (entries (cache c)) 0 in
  ({| valid := validCount; invalid := invalidCount;
      removed := removedCount |},
   if 0 <? removedCount
   then saveCache cacheFilePath (with_entries c es)
   else c).

End WithCacheFile.

End CacheMaintenance.

(** ** Calendar server: the rest of [TokenManager] *)

Module TokenLifecycle.
Import JS Fs Exn TokenManager.

(** [String(i)] for an array index. *)
Definition index_key (i : nat) : string :=
  DecimalString.NilZero.string_of_uint (Nat.to_uint i).

Fixpoint indexed {A : Type} (i : nat) (l : list A) : list (string * A) :=
  match l with
  | [] => []
  | x :: l' => (index_key i, x) :: indexed (S i) l'
  end.

Fixpoint chars (s : string) : list json :=
  match s with
  | EmptyString => []
  | String c s' => JStr (String c EmptyString) :: chars s'
  end.

(** The own enumerable properties [{...v}] copies from a parsed
    document. *)
Definition spread_json (j : json) : Credentials :=
  match j with
  | JObj fields => List.map (fun kv => (fst kv, Some (snd kv))) fields
  | JArr items => List.map (fun kv => (fst kv, Some (snd kv))) (indexed 0 items)
  | JStr s => List.map (fun kv => (fst kv, Some (snd kv))) (indexed 0 (chars s))
  | _ => []
  end.

(** [{...a, ...b}]: the properties of [b] are assigned onto a copy of
    [a]. *)
Definition assign (a b : Credentials) : Credentials :=
  fold_left (fun acc kv => set_prop (fst kv) (snd kv) acc) b a.

(** [x || y] on two values. *)
Definition or_else (x y : value) : value := if truthy x then x else y.

(** The object the listener of the tokens event writes over the stored
    document. *)
Definition updatedTokens (currentTokens : json) (newTokens : Credentials)
  : Credentials :=
  set_prop "refresh_token"
    (or_else (cred "refresh_token" newTokens)
       (prop "refresh_token" currentTokens))
    (assign (spread_json currentTokens) newTokens).

(** Whether building that object reads [refresh_token] of [null]: the
    right operand of [||] is evaluated only when the left one is
    falsy. *)
Definition reads_null (currentTokens : json) (newTokens : Credentials)
  : bool :=
  match currentTokens with
  | JNull => negb (truthy (cred "refresh_token" newTokens))
  | _ => false
  end.

(** The listener [setupTokenRefresh] installs for the tokens event: the
    disk afterwards.  Every error is caught and logged; only a missing
    file makes the listener write the new tokens alone. *)
Definition on_tokens (tm : t) (d : disk) (newTokens : Credentials) : disk :=
  match mkdirSync d with
  | None => d
  | Some d1 =>
      match readFileSync d1 (tokenPath tm) with
      | None =>
          match writeFileSync d1 (tokenPath tm)
                  (Doc (JObj (stringify_fields newTokens))) with
          | Some d2 => d2
          | None => d1
          end
      | Some content =>
          match JSON_parse content with
          | None => d1
          | Some currentTokens =>
              if reads_null currentTokens newTokens then d1
              else
                match writeFileSync d1 (tokenPath tm)
                        (Doc (JObj (stringify_fields
                                      (updatedTokens currentTokens newTokens))))
                with
                | Some d2 => d2
                | None => d1
                end
          end
      end
  end.

Section WithProjectRoot.

Variable projectRoot : string.
Variable cacheFilePath : string.

Definition with_disk (c : UserHashCache.t) (d : disk) : UserHashCache.t :=
  {| UserHashCache.cache := UserHashCache.cache c;
     UserHashCache.isDirty := UserHashCache.isDirty c;
     UserHashCache.on_disk := d |}.

(** [clearTokens(originalUserHashID)]: no error leaves it. *)
Definition clearTokens (tm : t) (c : UserHashCache.t)
  (originalUserHashID : option string) : t * UserHashCache.t :=
  let tm' := {| tokenPath := tokenPath tm; credentials := [] |} in
  match unlink (UserHashCache.on_disk c) (tokenPath tm) with
  | Some d' =>
      if truthy_str originalUserHashID
      then (tm',
            snd (UserHashCache.removeEntry cacheFilePath (with_disk c d')
                   (match originalUserHashID with
                    | Some u => u
                    | None => ""
                    end)))
      else (tm', with_disk c d')
  | None => (tm', c)
  end.

(** The check both validators start with: [!credentials ||
    !credentials.access_token]. *)
Definition lacks_access_token (tm : t) : bool :=
  negb (truthy (cred "access_token" (credentials tm))).

(** [validateTokens] at time [now]. *)
Definition validateTokens (now : Z) (provider : refresh_response)
  (tm : t) (c : UserHashCache.t) : bool * t * UserHashCache.t :=
  if lacks_access_token tm
  then
    let '(loaded, tm1, d1) := loadSavedTokens tm (UserHashCache.on_disk c) in
    if negb loaded then (false, tm1, with_disk c d1)
    else if lacks_access_token tm1 then (false, tm1, with_disk c d1)
    else refreshTokensIfNeeded cacheFilePath now provider tm1 (with_disk c d1)
  else refreshTokensIfNeeded cacheFilePath now provider tm c.

(** [validateTokensWithUserHash(userHashID)] at time [now]. *)
Definition validateTokensWithUserHash (now : Z) (provider : refresh_response)
  (tm : t) (c : UserHashCache.t) (userHashID : string)
  : bool * t * UserHashCache.t :=
  if lacks_access_token tm
  then
    let '(loaded, tm1, d1) :=
      loadSavedTokensWithUserHash projectRoot tm (UserHashCache.on_disk c)
        userHashID in
    if negb loaded then (false, tm1, with_disk c d1)
    else if lacks_access_token tm1 then (false, tm1, with_disk c d1)
    else refreshTokensIfNeeded cacheFilePath now provider tm1 (with_disk c d1)
  else refreshTokensIfNeeded cacheFilePath now provider tm c.

End WithProjectRoot.

End TokenLifecycle.

(** ** Gmail server: the rest of [UserManager] *)

Module GmailUsers.
Import JS Fs UserManager.

Section WithConfigDir.

Variable CONFIG_DIR : string.

(** [isUserAuthenticated] *)
Definition isUserAuthenticated (d : disk) (gmailHashID : string) : bool :=
  let credentials := loadUserCredentials CONFIG_DIR d gmailHashID in
  truthy_json credentials
  && (truthy (prop "access_token" credentials)
      || truthy (prop "refresh_token" credentials)).

(** [removeUser]; [None] when [unlinkSync] raises. *)
Definition removeUser (w : world) (gmailHashID : string) : option world :=
  let credPath := getCredentialsPath CONFIG_DIR gmailHashID in
  let removed :=
    if existsSync (disk_of w) credPath
    then unlink (disk_of w) credPath
    else Some (disk_of w) in
  match removed with
  | None => None
  | Some d' =>
      Some (cleanupAuthServer
              {| disk_of := d';
                 authServers := authServers w;
                 clientCache := clientCache w ∖ {[ gmailHashID ]} |}
              gmailHashID)
  end.

(** *** The status endpoint *)

Inductive gmail_status : Type :=
| NoSession                  (* 401 *)
| NoAuthenticationTokens     (* status: false *)
| AuthenticationExpired      (* status: false *)
| Authenticated.             (* status: true *)

(** [/checkGmailStatus]: [cookie] is the identity cookie and [probe]
    whether creating the client and reading the profile succeed. *)
Definition checkGmailStatus (d : disk) (cookie : option string)
  (probe : bool) : gmail_status :=
  if negb (truthy_str cookie) then NoSession
  else
    let gmailHashID := match cookie with Some u => u | None => "" end in
    if negb (isUserAuthenticated d gmailHashID) then NoAuthenticationTokens
    else if probe then Authenticated
    else AuthenticationExpired.

(** *** The shared callback server *)

Inductive shared_page : Type :=
| NotFound
| AuthenticationError (e : string)
| MissingRequiredParameters
| InvalidStateParameter
| AuthenticationSuccessful
| ExchangeFailed.

Record shared_outcome : Type := {
  shared_status : Z;
  shared_body : shared_page;
  shared_disk : disk;
  shared_exchanged : option string;    (* the code sent to the provider *)
  shared_pending : gset string         (* [pendingAuthentications] *)
}.

(** The identity a template string makes of the value of [userID]. *)
Definition identity_string (template : json -> string) (v : json) : string :=
  match v with
  | JStr s => s
  | _ => template v
  end.

Definition answer (status : Z) (body : shared_page) (d : disk)
  (exchanged : option string) (pending : gset string) : shared_outcome :=
  {| shared_status := status; shared_body := body; shared_disk := d;
     shared_exchanged := exchanged; shared_pending := pending |}.

(** The request handler of [startSharedOAuthServer].  [template] is the
    conversion a template string applies to a value that is not a
    string, [globalOAuthKeys] whether the keys are loaded and [getToken]
    the provider's answer to a code. *)
Definition shared_callback (template : json -> string)
  (globalOAuthKeys : bool)
  (getToken : string -> option (list (string * value)))
  (d : disk) (pending : gset string) (req : request) : shared_outcome :=
  if negb (on_callback_path req)
  then answer 404 NotFound d None pending
  else if truthy_str (error req)
  then answer 400
         (AuthenticationError
            (match error req with Some e => e | None => "" end))
         d None pending
  else if negb (truthy_str (code req))
          || negb (match state req with
                   | Some t => truthy_text t
                   | None => false
                   end)
  then answer 400 MissingRequiredParameters d None pending
  else
    let c := match code req with Some c => c | None => "" end in
    match state req with
    | None => answer 400 MissingRequiredParameters d None pending
    | Some t =>
        match JSON_parse t with
        | None => answer 400 ExchangeFailed d None pending
        | Some JNull => answer 400 ExchangeFailed d None pending
        | Some stateData =>
            match prop "userID" stateData with
            | None => answer 400 InvalidStateParameter d None pending
            | Some v =>
                if negb (truthy_json v)
                then answer 400 InvalidStateParameter d None pending
                else
                  let gmailHashID := identity_string template v in
                  if negb globalOAuthKeys
                  then answer 400 ExchangeFailed d None pending
                  else
                    match getToken c with
                    | None => answer 400 ExchangeFailed d (Some c) pending
                    | Some tokens =>
                        match saveUserCredentials CONFIG_DIR d gmailHashID
                                tokens with
                        | None =>
                            answer 400 ExchangeFailed d (Some c) pending
                        | Some d' =>
                            answer 200 AuthenticationSuccessful d' (Some c)
                              (pending ∖ {[ gmailHashID ]})
                        end
                    end
            end
        end
    end.

End WithConfigDir.

(** *** Looking for a free port *)

(** [tryPort] of [findAvailablePort], with [port] the variable it
    shares with the error handler: [inUse p] tells whether listening on
    [p] fails.  [None] when the fuel runs out, [Some None] when the
    promise is rejected. *)
Fixpoint tryPort (inUse : Z -> bool) (endPort : Z) (fuel : nat) (port : Z)
  : option (option Z) :=
  match fuel with
  | O => None
  | S fuel' =>
      if endPort <? port then Some None
      else if inUse port then tryPort inUse endPort fuel' (port + 1)
      else Some (Some port)
  end.

Definition findAvailablePort (inUse : Z -> bool) (fuel : nat)
  (startPort endPort : Z) : option (option Z) :=
  tryPort inUse endPort fuel startPort.

End GmailUsers.

(** ** Gmail server: helpers of the tool handlers *)

Module GmailTools.
Import JS.

(** *** [extractEmailContent] *)

(** A MIME part: its type, the data of its body when it has a body
    with data, and its parts (none when [parts] is absent). *)
Inductive GmailMessagePart : Type :=
| MessagePart (mimeType : option string) (data : option string)
    (parts : list GmailMessagePart).

Record EmailContent : Type := { text : string; html : string }.

Section Extract.

(** [Buffer.from(data, 'base64').toString('utf8')] *)
Variable decode : string -> string.

Definition own_content (mimeType : option string) (data : option string)
  : EmailContent :=
  if truthy_str data
  then
    let content := decode (match data with Some s => s | None => "" end) in
    match mimeType with
    | Some m =>
        if String.eqb m "text/plain" then {| text := content; html := "" |}
        else if String.eqb m "text/html"
        then {| text := ""; html := content |}
        else {| text := ""; html := "" |}
    | None => {| text := ""; html := "" |}
    end
  else {| text := ""; html := "" |}.

(** [a += b] guarded by [if (b)]. *)
Definition add_if_truthy (a b : string) : string :=
  if negb (String.eqb b "") then a ++ b else a.

Fixpoint extractEmailContent (messagePart : GmailMessagePart)
  : EmailContent :=
  match messagePart with
  | MessagePart mimeType data parts =>
      (fix loop (ps : list GmailMessagePart) (acc : EmailContent)
         : EmailContent :=
         match ps with
         | [] => acc
         | part :: ps' =>
             let r := extractEmailContent part in
             loop ps' {| text := add_if_truthy (text acc) (text r);
                         html := add_if_truthy (html acc) (html r) |}
         end) parts (own_content mimeType data)
  end.

End Extract.

(** *** [processBatches] *)

(** [Array.prototype.slice] on integer bounds. *)
Definition clamp_index (len k : Z) : Z :=
  if k <? 0 then Z.max (len + k) 0 else Z.min k len.

Definition slice {T : Type} (items : list T) (a b : Z) : list T :=
  let len := Z.of_nat (List.length items) in
  let from := clamp_index len a in
  let to := clamp_index len b in
  if from <? to
  then firstn (Z.to_nat (to - from)) (skipn (Z.to_nat from) items)
  else [].

Section Batches.

Variables T R E Service : Type.

(** The processor acts on the state of the mail service; it gives
    its results or raises an error. *)
Variable processor : Service -> list T -> Service * (list R + E).

Record batch_state : Type := {
  service : Service;
  successes : list R;
  failures : list (T * E)
}.

(** The items of a failed batch, one at a time. *)
Fixpoint retry (batch : list T) (st : batch_state) : batch_state :=
  match batch with
  | [] => st
  | item :: rest =>
      match processor (service st) [item] with
      | (s', inl result) =>
          retry rest {| service := s';
                        successes := (successes st ++ result)%list;
                        failures := failures st |}
      | (s', inr itemError) =>
          retry rest {| service := s';
                        successes := successes st;
                        failures :=
                          (failures st ++ [(item, itemError)])%list |}
      end
  end.

(** One batch. *)
Definition process_batch (batch : list T) (st : batch_state) : batch_state :=
  match processor (service st) batch with
  | (s', inl batchResults) =>
      {| service := s';
         successes := (successes st ++ batchResults)%list;
         failures := failures st |}
  | (s', inr _) =>
      retry batch {| service := s'; successes := successes st;
                     failures := failures st |}
  end.

(** The loop [for (let i = 0; i < items.length; i += batchSize)] from
    the index [i]; [None] when the fuel runs out. *)
Fixpoint batches_from (fuel : nat) (items : list T) (batchSize : Z) (i : Z)
  (st : batch_state) : option batch_state :=
  match fuel with
  | O => None
  | S fuel' =>
      if i <? Z.of_nat (List.length items)
      then batches_from fuel' items batchSize (i + batchSize)
             (process_batch (slice items i (i + batchSize)) st)
      else Some st
  end.

Definition processBatches (fuel : nat) (items : list T) (batchSize : Z)
  (s : Service) : option batch_state :=
  batches_from fuel items batchSize 0
    {| service := s; successes := []; failures := [] |}.

End Batches.

Arguments service {T R E Service} _.
Arguments successes {T R E Service} _.
Arguments failures {T R E Service} _.
Arguments retry {T R E Service} processor batch st.
Arguments process_batch {T R E Service} processor batch st.
Arguments batches_from {T R E Service} processor fuel items batchSize i st.
Arguments processBatches {T R E Service} processor fuel items batchSize s.

End GmailTools.

(** ** Calendar server: tool dispatch and the status endpoint *)

Module CalendarServer.
Import JS Fs Exn.

(** *** [getHandler] *)

Inductive handler : Type :=
| ListCalendarsHandler
| ListEventsHandler
| SearchEventsHandler
| ListColorsHandler
| CreateEventHandler
| UpdateEventHandler
| DeleteEventHandler
| FreeBusyEventHandler
| ObjectPrototypeMember.   (* what [handlerMap] inherits *)

Definition handlerMap : list (string * handler) :=
  [ ("list-calendars", ListCalendarsHandler);
    ("list-events", ListEventsHandler);
    ("search-events", SearchEventsHandler);
    ("list-colors", ListColorsHandler);
    ("create-event", CreateEventHandler);
    ("update-event", UpdateEventHandler);
    ("delete-event", DeleteEventHandler);
    ("get-freebusy", FreeBusyEventHandler) ].

(** The properties an object literal inherits from [Object.prototype];
    each holds a truthy value. *)
Definition Object_prototype : list string :=
  [ "constructor"; "__defineGetter__"; "__defineSetter__";
    "hasOwnProperty"; "__lookupGetter__"; "__lookupSetter__";
    "isPrototypeOf"; "propertyIsEnumerable"; "toString"; "valueOf";
    "__proto__"; "toLocaleString" ].

(** [getHandler(toolName)] *)
Definition getHandler (toolName : string) : result handler :=
  match assoc toolName handlerMap with
  | Some h => Ok h
  | None =>
      if arr_includes Object_prototype toolName
      then Ok ObjectPrototypeMember
      else Raise (ErrorMessage ("Unknown tool: " ++ toolName))
  end.

(** [handleCallTool]: [runTool] is what the handler does with the
    arguments; an inherited member has no [runTool]. *)
Definition handleCallTool {A B : Type} (runTool : handler -> A -> result B)
  (name : string) (args : A) : result B :=
  let! h := getHandler name in
  match h with
  | ObjectPrototypeMember => Raise TypeError
  | _ => runTool h args
  end.

(** *** [/checkCalendarStatus] *)

Inductive calendar_status : Type :=
| NoSession                                   (* 401 *)
| TokenFileMissingExpiryDate
| NoAuthenticationTokensFound
| ErrorReadingTokenFile
| TokenStatus (status expired : bool) (expiryDate timeUntilExpiry : Z).

(** The range of time values [new Date(n).toISOString()] accepts. *)
Definition MAX_TIME_VALUE : Z := 8640000000000000.

(** The inner [try] block on the content of the token file, at time
    [currentTime]. *)
Definition status_of_content (currentTime : Z) (content : option text)
  : calendar_status :=
  match content with
  | None => NoAuthenticationTokensFound
  | Some tokenFileContent =>
      match JSON_parse tokenFileContent with
      | None => ErrorReadingTokenFile
      | Some JNull => ErrorReadingTokenFile
      | Some tokenData =>
          match prop "expiry_date" tokenData with
          | Some (JNum expiry_date) =>
              if expiry_date =? 0 then TokenFileMissingExpiryDate
              else if MAX_TIME_VALUE <? Z.abs expiry_date
              then ErrorReadingTokenFile
              else
                let isExpired := expiry_date <=? currentTime in
                TokenStatus (negb isExpired) isExpired expiry_date
                  (if isExpired then 0 else expiry_date - currentTime)
          | _ => TokenFileMissingExpiryDate
          end
      end
  end.

Section WithProjectRoot.

Variable projectRoot : string.
Variable cacheFilePath : string.

(** The endpoint, for the identity cookie [cookie] at time [now] (the
    reading of the clock by the cache) and [currentTime] (the reading
    by the handler): the answer and the cache afterwards. *)
Definition checkCalendarStatus (now currentTime : Z) (c : UserHashCache.t)
  (cookie : option string) : calendar_status * UserHashCache.t :=
  if negb (truthy_str cookie) then (NoSession, c)
  else
    let userHashID := match cookie with Some u => u | None => "" end in
    let (tokenFilePath, c') :=
      Utils.getSecureTokenPathWithCacheAndFuzzyMatching projectRoot
        cacheFilePath now c userHashID in
    (status_of_content currentTime
       (readFileSync (UserHashCache.on_disk c') tokenFilePath),
     c').

End WithProjectRoot.

End CalendarServer.

(** ** Calendar server: [AuthServer] *)

Module AuthServer.
Import JS Fs Exn.

Record t : Type := {
  userID : string;
  tokenManager : TokenManager.t;
  flowOAuth2Client : bool;            (* whether the flow client is set *)
  authCompletedSuccessfully : bool
}.

Inductive auth_page : Type :=
| AuthorizationCodeMissing                  (* 400 *)
| AuthenticationErrorPage (e : string)      (* 400 *)
| FlowNotInitiated                          (* 500 *)
| SuccessPage (sessionID : option string)   (* 200 *)
| FailedPage.                               (* 500 *)

Record outcome : Type := {
  page : auth_page;
  server : t;
  cache : UserHashCache.t;
  exchanged : option string      (* the code sent to the provider *)
}.

Section WithProjectRoot.

Variable projectRoot : string.
Variable cacheFilePath : string.

(** [new AuthServer(oauth2Client, userID)] on the disk [d]. *)
Definition constructor (d : disk) (creds : TokenManager.Credentials)
  (userID : option string) : t :=
  {| userID := if truthy_str userID
               then match userID with Some u => u | None => "" end
               else "abc123456";
     tokenManager :=
       TokenManager.constructor projectRoot d creds
         (if truthy_str userID then userID else None);
     flowOAuth2Client := false;
     authCompletedSuccessfully := false |}.

(** The identity the handler takes from the state; the fallback is the
    identity of the server. *)
Definition userID_of_state (srv : t) (state : option text) : value :=
  match state with
  | None => Some (JStr (userID srv))
  | Some t =>
      match JSON_parse t with
      | None => Some (JStr (userID srv))
      | Some JNull => Some (JStr (userID srv))
      | Some stateData => prop "userID" stateData
      end
  end.

(** The second argument of [saveTokens] for an identity that is a
    string or is falsy; [None] for any other value, which this model
    has no cache key for. *)
Definition cache_identity (v : value) : option (option string) :=
  match v with
  | None => Some None
  | Some (JStr u) => Some (Some u)
  | Some j => if truthy_json j then None else Some None
  end.

Definition answer (p : auth_page) (srv : t) (c : UserHashCache.t)
  (exchanged : option string) : outcome :=
  {| page := p; server := srv; cache := c; exchanged := exchanged |}.

Definition completed (srv : t) (tm : TokenManager.t) (b : bool) : t :=
  {| userID := userID srv; tokenManager := tm;
     flowOAuth2Client := flowOAuth2Client srv;
     authCompletedSuccessfully := b |}.

(** The handler of [/oauth2callback] at time [now]; [None] when the
    state names an identity outside [cache_identity]. *)
Definition oauth2callback
  (getToken : string -> option TokenManager.Credentials) (now : Z)
  (srv : t) (c : UserHashCache.t)
  (code error : option string) (state : option text) : option outcome :=
  if negb (truthy_str code)
  then Some (answer AuthorizationCodeMissing srv c None)
  else if truthy_str error
  then Some (answer
               (AuthenticationErrorPage
                  (match error with Some e => e | None => "" end))
               srv c None)
  else
    let userID := userID_of_state srv state in
    if negb (flowOAuth2Client srv)
    then Some (answer FlowNotInitiated srv c None)
    else
      let code' := match code with Some x => x | None => "" end in
      match getToken code' with
      | None =>
          Some (answer FailedPage
                  (completed srv (tokenManager srv) false) c (Some code'))
      | Some tokens =>
          match cache_identity userID with
          | None => None
          | Some original =>
              match TokenManager.saveTokens cacheFilePath now
                      (tokenManager srv) c tokens original with
              | Ok (tm', c') =>
                  Some (answer (SuccessPage original)
                          (completed srv tm' true) c' (Some code'))
              | Raise _ =>
                  Some (answer FailedPage
                          (completed srv (tokenManager srv) false) c
                          (Some code'))
              end
          end
      end.

(** *** [startServerOnAvailablePort] *)

Inductive listen_result : Type :=
| Bound
| EADDRINUSE
| OtherError.

(** The loop [for (port = start; port <= end; port++)] with [count]
    ports left. *)
Fixpoint probe_ports (listen : Z -> listen_result) (count : nat) (port : Z)
  : option Z :=
  match count with
  | O => None
  | S count' =>
      match listen port with
      | Bound => Some port
      | EADDRINUSE => probe_ports listen count' (port + 1)
      | OtherError => None
      end
  end.

Definition portRange_start : Z := 3101.
Definition portRange_end : Z := 3110.

Definition startServerOnAvailablePort (listen : Z -> listen_result)
  : option Z :=
  probe_ports listen (Z.to_nat (portRange_end - portRange_start + 1))
    portRange_start.

End WithProjectRoot.

End AuthServer.

(** * The specification's wording *)

Module Spec.
Import JS Transport.

(** ** TransportSelector *)

(** An explicit client header requesting streaming. *)
Definition requests_streaming (h : headers) : Prop :=
  (exists a, accept h = Some a /\ includes a "text/event-stream" = true)
  \/ x_prefer_streaming h = Some "true".

(** An explicit client header rejecting streaming. *)
Definition rejects_streaming (h : headers) : Prop :=
  x_prefer_streaming h = Some "false".

(** The request carries no preference. *)
Definition no_preference (req : option headers) : Prop :=
  forall h, req = Some h -> ~ requests_streaming h /\ ~ rejects_streaming h.

(** The priority order of the classifier, for a result [r]: a client
    header wins; then the always-quick list gives [unary], the
    always-heavy list gives [streaming], a variable tool gives
    [heuristic], and anything else gives [unary]. *)
Definition priority_order {R : Type} (quick heavy variable : list string)
  (toolName : string) (req : option headers)
  (streaming unary heuristic r : R) : Prop :=
  (forall h, req = Some h -> requests_streaming h -> r = streaming)
  /\ (forall h, req = Some h -> ~ requests_streaming h ->
      rejects_streaming h -> r = unary)
  /\ (no_preference req ->
      (In toolName quick -> r = unary)
      /\ (~ In toolName quick -> In toolName heavy -> r = streaming)
      /\ (~ In toolName quick -> ~ In toolName heavy ->
          In toolName variable -> r = heuristic)
      /\ (~ In toolName quick -> ~ In toolName heavy ->
          ~ In toolName variable -> r = unary)).

(** ** The fuzzy scan *)

Import Fs.














(** ** Expiry *)

Import TokenFiles TokenManager.

(** The record has no access token at all. *)
Definition no_access_token (c : Credentials) : Prop :=
  truthy (cred "access_token" c) = false.

(** The expiry date of the record lies within the five-minute buffer of
    [now]. *)
Definition within_buffer (now : Z) (c : Credentials) : Prop :=
  exists n, cred "expiry_date" c = Some (JNum n) /\ now >= n - 300000.

(** ** The lookup cache file *)

Import Exn.

(** The structural check for version and entries. *)
Definition has_version_and_entries (j : json) : Prop :=
  truthy (prop "version" j) = true /\ truthy (prop "entries" j) = true.

(** Reading the cache file failed: the file is missing or unreadable,
    is not JSON, or fails the structural check. *)
Definition cache_load_failed (read : result text) : Prop :=
  (exists e, read = Raise e)
  \/ (exists raw, read = Ok (Garbage raw))
  \/ (exists j, read = Ok (Doc j) /\ ~ has_version_and_entries j).

(** ** The resolution order of [load] *)

(** The path, when a file exists there. *)
Definition existing (d : disk) (p : string) : option string :=
  if existsSync d p then Some p else None.

(** The first attempt that yields a file. *)
Fixpoint first_of (attempts : list (option string)) : option string :=
  match attempts with
  | [] => None
  | Some p :: _ => Some p
  | None :: rest => first_of rest
  end.

(** The mapping of the lookup cache for [U], when its file exists. *)
Definition cached (c : UserHashCache.t) (U : string) : option string :=
  match assoc U (UserHashCache.entries (UserHashCache.cache c)) with
  | Some e =>
      existing (UserHashCache.on_disk c) (UserHashCache.actualTokenFilename e)
  | None => None
  end.

(** The cache step of the calendar server: the mapped path, when it is
    not empty and its file exists once the lookup has saved the cache. *)
Definition cache_hit (cacheFilePath : string) (now : Z)
  (c : UserHashCache.t) (U : string) : option string :=
  let hit := UserHashCache.getTokenFilename cacheFilePath now c U in
  match fst hit with
  | Some p =>
      if negb (String.eqb p "")
      then existing (UserHashCache.on_disk (snd hit)) p
      else None
  | None => None
  end.

(** The order the specification gives: (a) the exact path, (b) its
    [.save] variant, (c) the mapping of the lookup cache, (d) the fuzzy
    scan; [None] is NotFound. *)
Definition load_path (dir : string) (c : UserHashCache.t) (U : string)
  : option string :=
  let d := UserHashCache.on_disk c in
  let exact := path_join dir (token_file_name U) in
  first_of [ existing d exact;
             existing d (exact ++ ".save");
             cached c U;
             TokenFiles.findCaseInsensitiveTokenFile dir d U ].

(** ** Persisted records *)

(** The token object [T] with all null and undefined fields removed. *)
Fixpoint without_null_undefined (T : list (string * value))
  : list (string * json) :=
  match T with
  | [] => []
  | (k, None) :: T' => without_null_undefined T'
  | (k, Some JNull) :: T' => without_null_undefined T'
  | (k, Some v) :: T' => (k, v) :: without_null_undefined T'
  end.

(** ** The state parameter of a callback *)

(** The state parameter cannot be parsed. *)
Definition state_unparsable (st : text) : Prop :=
  JSON_parse st = None.

(** The state parameter parses, and its [userID] is not the identity
    [U] of the flow. *)
Definition state_identity_differs (U : string) (st : text) : Prop :=
  exists j, JSON_parse st = Some j /\ prop "userID" j <> Some (JStr U).

(** The state parameter parses, and its [userID] is the identity
    [V]. *)
Definition state_names (V : string) (st : text) : Prop :=
  exists j, JSON_parse st = Some j /\ prop "userID" j = Some (JStr V).

(** ** The routing table *)

(** What every table the dispatcher reaches satisfies: an entry is
    filed under the identity it carries, which is not empty, with a port
    that is not zero. *)
Definition table_inv (servers : gmap string CallbackDispatcher.AuthServerInfo)
  : Prop :=
  forall k info, servers !! k = Some info ->
    CallbackDispatcher.userID info = k /\ k <> ""
    /\ CallbackDispatcher.port info <> 0.

End Spec.

(** * Inputs used in the examples *)

Module Examples.
Import JS Transport.

(** A [list_events] call from 2023-11-14T22:13:20Z on, without
    [timeMax]. *)
Definition list_events_from : Calendar.args :=
  {| Calendar.maxResults := None;
     Calendar.timeMin := Some (Some 1700000000000);
     Calendar.timeMax := None;
     Calendar.searchQuery := None;
     Calendar.calendarIds := None;
     Calendar.events := None;
     Calendar.recurrence := None;
     Calendar.attendees := None;
     Calendar.attachments := None;
     Calendar.query := None;
     Calendar.filters := None;
     Calendar.eventIds := None;
     Calendar.eventId := None;
     Calendar.updates := None;
     Calendar.deleteRecurring := None;
     Calendar.notifyAttendees := None |}.

(** One day and four hundred days after [timeMin]. *)
Definition one_day_later : Z := 1700000000000 + 1 * Calendar.MS_PER_DAY.
Definition a_year_later : Z := 1700000000000 + 400 * Calendar.MS_PER_DAY.

(** The record of identity abcdef123456. *)
Definition stored_record : json :=
  JObj [ ("access_token", JStr "ya29.a0");
         ("refresh_token", JStr "1//0g");
         ("expiry_date", JNum 1700003600000) ].

(** A storage directory holding that record next to the OAuth keys of
    the application. *)
Definition one_user_disk : Fs.disk :=
  {| Fs.dir_exists := true;
     Fs.files :=
       [ ("/srv/tokens/gcp-oauth.keys.json", Doc (JObj []));
         ("/srv/tokens/.abcdef123456-gcp-saved-tokens.json",
          Doc stored_record) ];
     Fs.writable := true |}.

(** A record that expires in an hour and holds no access token. *)
Definition no_access_token_record : TokenManager.Credentials :=
  [ ("refresh_token", Some (JStr "1//0g"));
    ("expiry_date", Some (JNum (1700000000000 + 3600000))) ].

(** The lookup cache without entries, over a disk. *)
Definition empty_cache (d : Fs.disk) : UserHashCache.t :=
  {| UserHashCache.cache :=
       {| UserHashCache.version := "1.0.0"; UserHashCache.entries := [] |};
     UserHashCache.isDirty := false;
     UserHashCache.on_disk := d |}.

(** The state parameter of a callback for identity abcdef123456. *)
Definition state_of_abcdef : text :=
  Doc (JObj [ ("userID", JStr "abcdef123456") ]).

(** A routing table with the auth server of abcdef123456 on port
    3101. *)
Definition one_server : gmap string CallbackDispatcher.AuthServerInfo :=
  {[ "abcdef123456" :=
       {| CallbackDispatcher.userID := "abcdef123456";
          CallbackDispatcher.port := 3101;
          CallbackDispatcher.timestamp := 1700000000000 |} ]}.

(** An auth server that answers every forwarded callback with 500. *)
Definition failing_auth_server (port : Z) : CallbackDispatcher.downstream :=
  CallbackDispatcher.Answer 500 "Internal Server Error"
    (Some "Authentication failed.").

(** A callback that carries a code and an empty state parameter. *)
Definition callback_with_empty_state : UserManager.request :=
  {| UserManager.on_callback_path := true;
     UserManager.code := Some "4/0AeaYSHB";
     UserManager.error := None;
     UserManager.state := Some (Garbage "") |}.

(** Tokens as the provider hands them out, with a null [id_token]. *)
Definition tokens_with_null : list (string * value) :=
  [ ("access_token", Some (JStr "ya29.a0"));
    ("refresh_token", Some (JStr "1//0g"));
    ("id_token", Some JNull);
    ("expiry_date", Some (JNum 1700003600000)) ].

(** A provider that answers every code with these tokens. *)
Definition provider_tokens (code : string) : option (list (string * value)) :=
  Some tokens_with_null.

(** The Gmail server with one running auth server, for ffff0000aaaa. *)
Definition one_flow : UserManager.world :=
  {| UserManager.disk_of := one_user_disk;
     UserManager.authServers := {[ "ffff0000aaaa" ]};
     UserManager.clientCache := ∅ |}.

(** The calendar server before any record is stored. *)
Definition empty_disk : Fs.disk :=
  {| Fs.dir_exists := true; Fs.files := []; Fs.writable := true |}.

(** The token manager of abcdef123456 on the empty disk. *)
Definition manager_of_abcdef : TokenManager.t :=
  TokenManager.constructor "/srv/calendar" empty_disk []
    (Some "abcdef123456").

(** A record that expired long before 1700000000000. *)
Definition expired_record : list (string * json) :=
  [ ("access_token", JStr "ya29.old");
    ("refresh_token", JStr "1//revoked");
    ("expiry_date", JNum 1600000000000) ].

(** The calendar server with that record stored for abcdef123456 and
    mapped in the lookup cache, and the token manager holding it. *)
Definition calendar_disk : Fs.disk :=
  {| Fs.dir_exists := true;
     Fs.files :=
       [ ("/srv/calendar/.abcdef123456-gcp-saved-tokens.json",
          Doc (JObj expired_record)) ];
     Fs.writable := true |}.

Definition cache_of_abcdef : UserHashCache.t :=
  {| UserHashCache.cache :=
       {| UserHashCache.version := "1.0.0";
          UserHashCache.entries :=
            [ ("abcdef123456",
               {| UserHashCache.originalUserHashID := "abcdef123456";
                  UserHashCache.actualTokenFilename :=
                    "/srv/calendar/.abcdef123456-gcp-saved-tokens.json";
                  UserHashCache.createdAt := 1600000000000;
                  UserHashCache.lastAccessed := 1600000000000 |}) ] |};
     UserHashCache.isDirty := false;
     UserHashCache.on_disk := calendar_disk |}.

Definition expired_manager : TokenManager.t :=
  {| TokenManager.tokenPath :=
       "/srv/calendar/.abcdef123456-gcp-saved-tokens.json";
     TokenManager.credentials :=
       TokenManager.of_json (JObj expired_record) |}.

(** The calendar server holding two records, with the lookup cache
    mapping abcdef123456 to the older one. *)
Definition two_records_disk : Fs.disk :=
  {| Fs.dir_exists := true;
     Fs.files :=
       [ ("/srv/calendar/.abcdef123456-gcp-saved-tokens.json",
          Doc stored_record);
         ("/srv/calendar/.abcdef12-gcp-saved-tokens.json",
          Doc (JObj expired_record)) ];
     Fs.writable := true |}.

Definition cache_to_older_record : UserHashCache.t :=
  {| UserHashCache.cache :=
       {| UserHashCache.version := "1.0.0";
          UserHashCache.entries :=
            [ ("abcdef123456",
               {| UserHashCache.originalUserHashID := "abcdef123456";
                  UserHashCache.actualTokenFilename :=
                    "/srv/calendar/.abcdef12-gcp-saved-tokens.json";
                  UserHashCache.createdAt := 1600000000000;
                  UserHashCache.lastAccessed := 1600000000000 |}) ] |};
     UserHashCache.isDirty := false;
     UserHashCache.on_disk := two_records_disk |}.

Definition wants_stream : headers :=
  {| accept := Some "application/json, text/event-stream";
     x_prefer_streaming := None |}.

End Examples.

(** ** Notions used to state further properties *)

Module Props.
Import JS Fs.


(** An entry [cleanup] removes. *)
Definition stale (cutoffTime : Z) (kv : string * UserHashCache.CacheEntry)
  : bool :=
  UserHashCache.lastAccessed (snd kv) <? cutoffTime.

(** An entry whose token file is on the disk. *)
Definition backed (d : disk) (kv : string * UserHashCache.CacheEntry)
  : bool :=
  existsSync d (UserHashCache.actualTokenFilename (snd kv)).

(** Whether an identity is the name of a member that an object literal
    inherits from [Object.prototype].  The lookup cache keeps its
    entries in such an object.  For an inherited name that has no entry
    there, [entries[k]] and [k in entries] answer for the inherited
    member, and an assignment to [entries["__proto__"]] replaces the
    prototype instead of adding an entry; for every other identity
    they act on the entries of the object itself, which is what
    [UserHashCache] models. *)
Definition inherited_name (k : string) : bool :=
  arr_includes CalendarServer.Object_prototype k.

(** The parts of a message in document order: a part, then the parts
    below it from first to last. *)
Fixpoint parts_in_order (m : GmailTools.GmailMessagePart)
  : list GmailTools.GmailMessagePart :=
  match m with
  | GmailTools.MessagePart _ _ parts =>
      m :: (fix below (ps : list GmailTools.GmailMessagePart) :=
              match ps with
              | [] => []
              | p :: ps' => (parts_in_order p ++ below ps')%list
              end) parts
  end.

(** The body a part carries as content of the MIME type [kind]: the
    data of its body when the type of the part is [kind] and the data
    is not empty; a part of another type, without a type, without data
    or with empty data carries none. *)
Definition body_of_type (kind : string) (m : GmailTools.GmailMessagePart)
  : option string :=
  match m with
  | GmailTools.MessagePart (Some mimeType) (Some (String c data)) _ =>
      if String.eqb mimeType kind then Some (String c data) else None
  | _ => None
  end.

(** What one part gives to the text and to the HTML of a message: its
    body decoded when it is a text/plain (text/html) part, nothing
    otherwise. *)
Definition own_text (decode : string -> string)
  (m : GmailTools.GmailMessagePart) : string :=
  match body_of_type "text/plain" m with
  | Some data => decode data
  | None => ""
  end.

Definition own_html (decode : string -> string)
  (m : GmailTools.GmailMessagePart) : string :=
  match body_of_type "text/html" m with
  | Some data => decode data
  | None => ""
  end.

(** The strings of a list, one after the other. *)
Fixpoint joined (l : list string) : string :=
  match l with
  | [] => ""
  | s :: l' => s ++ joined l'
  end.

(** The list cut into consecutive pieces of [size] elements, the last
    one shorter when the length is no multiple of [size]. *)
Fixpoint chunks_upto {T : Type} (fuel size : nat) (l : list T)
  : list (list T) :=
  match fuel with
  | O => []
  | S fuel' =>
      match l with
      | [] => []
      | _ :: _ => firstn size l :: chunks_upto fuel' size (skipn size l)
      end
  end.

Definition chunks {T : Type} (size : nat) (l : list T) : list (list T) :=
  chunks_upto (List.length l) size l.



End Props.

(** ** Further concrete inputs *)

Module MoreExamples.
Import JS Fs Transport Examples.

(** A cache of two identities, the first last used long ago and backed
    by no file. *)
Definition two_entry_cache : UserHashCache.t :=
  {| UserHashCache.cache :=
       {| UserHashCache.version := "1.0.0";
          UserHashCache.entries :=
            [ ("0123456789ab",
               {| UserHashCache.originalUserHashID := "0123456789ab";
                  UserHashCache.actualTokenFilename :=
                    "/srv/calendar/.0123456789ab-gcp-saved-tokens.json";
                  UserHashCache.createdAt := 1500000000000;
                  UserHashCache.lastAccessed := 1500000000000 |});
              ("abcdef123456",
               {| UserHashCache.originalUserHashID := "abcdef123456";
                  UserHashCache.actualTokenFilename :=
                    "/srv/calendar/.abcdef123456-gcp-saved-tokens.json";
                  UserHashCache.createdAt := 1600000000000;
                  UserHashCache.lastAccessed := 1600000000000 |}) ] |};
     UserHashCache.isDirty := false;
     UserHashCache.on_disk := calendar_disk |}.


(** The calendar server with a token file that is not JSON. *)
Definition corrupted_disk : Fs.disk :=
  {| Fs.dir_exists := true;
     Fs.files :=
       [ ("/srv/calendar/.abcdef123456-gcp-saved-tokens.json",
          Garbage "{ access_token: ") ];
     Fs.writable := true |}.

(** What a refresh at the provider gives: no refresh token. *)
Definition refreshed_tokens : TokenManager.Credentials :=
  [ ("access_token", Some (JStr "ya29.new"));
    ("expiry_date", Some (JNum 1700003600000)) ].

(** The storage directory of the Gmail server before anyone has
    authenticated: it holds the OAuth keys of the application only. *)
Definition keys_only_disk : Fs.disk :=
  {| Fs.dir_exists := true;
     Fs.files := [ ("/srv/tokens/gcp-oauth.keys.json", Doc (JObj [])) ];
     Fs.writable := true |}.

(** The Gmail server holding the record of abcdef123456 and a copy of
    it with the suffix save. *)
Definition world_with_save_copy : UserManager.world :=
  {| UserManager.disk_of :=
       {| Fs.dir_exists := true;
          Fs.files :=
            [ ("/srv/tokens/.abcdef123456-gcp-saved-tokens.json",
               Doc stored_record);
              ("/srv/tokens/.abcdef123456-gcp-saved-tokens.json.save",
               Doc stored_record) ];
          Fs.writable := true |};
     UserManager.authServers := ∅;
     UserManager.clientCache := {[ "abcdef123456" ]} |}.

(** A callback that carries a code and the state of abcdef123456. *)
Definition callback_for_abcdef : UserManager.request :=
  {| UserManager.on_callback_path := true;
     UserManager.code := Some "4/0AeaYSHB";
     UserManager.error := None;
     UserManager.state := Some state_of_abcdef |}.

(** The ports below 4012 are taken. *)
Definition taken_below_4012 (port : Z) : bool := port <? 4012.

(** The conversion of a value that is not a string, left open. *)
Definition no_template (v : json) : string := "[object Object]".

(** A processor that deletes messages: it fails on a batch that holds
    the message missing. *)
Definition delete_unless_missing (deleted : list string)
  (batch : list string) : list string * (list string + string) :=
  if existsb (String.eqb "missing") batch
  then (deleted, inr "Requested entity was not found.")
  else ((deleted ++ batch)%list, inl batch).

(** The auth server of abcdef123456 on the calendar disk, with its
    flow client set. *)
Definition auth_server_of_abcdef : AuthServer.t :=
  {| AuthServer.userID := "abcdef123456";
     AuthServer.tokenManager := expired_manager;
     AuthServer.flowOAuth2Client := true;
     AuthServer.authCompletedSuccessfully := false |}.

(** A provider that answers every code with fresh calendar tokens. *)
Definition calendar_provider (code : string)
  : option TokenManager.Credentials :=
  Some [ ("access_token", Some (JStr "ya29.new"));
         ("refresh_token", Some (JStr "1//0g"));
         ("expiry_date", Some (JNum 1700003600000)) ].

(** The state of another identity. *)
Definition state_of_ffff : text :=
  Doc (JObj [ ("userID", JStr "ffff0000aaaa") ]).


End MoreExamples.

(** * Properties of the transport classifier *)

Section TransportFacts.
Import JS Transport Spec.

Lemma arr_includes_In (arr : list string) (x : string) :
  arr_includes arr x = true <-> In x arr.
Proof.
  unfold arr_includes. rewrite existsb_exists. split.
  - intros [y [Hy Heq]]. apply String.eqb_eq in Heq. now subst.
  - intros Hx. exists x. split; [assumption | apply String.eqb_refl].
Qed.

Lemma arr_includes_not_In (arr : list string) (x : string) :
  arr_includes arr x = false <-> ~ In x arr.
Proof.
  rewrite <- arr_includes_In. destruct (arr_includes arr x); split;
    intros H; try reflexivity; try discriminate; try (intros K; discriminate).
  exfalso. now apply H.
Qed.

Lemma client_preference_requests (h : headers) :
  requests_streaming h -> client_preference (Some h) = Some true.
Proof.
  intros [[a [Ha Hinc]] | Hx]; simpl.
  - now rewrite Ha, Hinc.
  - rewrite Hx. simpl. now destruct (accept h) as [a|]; [destruct (includes a _)|].
Qed.

Lemma client_preference_rejects (h : headers) :
  ~ requests_streaming h -> rejects_streaming h ->
  client_preference (Some h) = Some false.
Proof.
  intros Hn Hr. unfold rejects_streaming in Hr. simpl. rewrite Hr. simpl.
  destruct (accept h) as [a|] eqn:Ha; [|reflexivity].
  destruct (includes a "text/event-stream") eqn:Hinc; [|reflexivity].
  exfalso. apply Hn. left. now exists a.
Qed.

Lemma client_preference_none (req : option headers) :
  no_preference req -> client_preference req = None.
Proof.
  intros Hnp. destruct req as [h|]; [|reflexivity].
  destruct (Hnp h eq_refl) as [Hn Hr]. simpl.
  destruct (accept h) as [a|] eqn:Ha.
  - destruct (includes a "text/event-stream") eqn:Hinc.
    + exfalso. apply Hn. left. now exists a.
    + destruct (x_prefer_streaming h) as [v|] eqn:Hv; [|reflexivity].
      destruct (String.eqb_spec v "true") as [->|Ht].
      * exfalso. apply Hn. now right.
      * destruct (String.eqb_spec v "false") as [->|Hf]; [|reflexivity].
        exfalso. now apply Hr.
  - destruct (x_prefer_streaming h) as [v|] eqn:Hv; [|reflexivity].
    destruct (String.eqb_spec v "true") as [->|Ht].
    + exfalso. apply Hn. now right.
    + destruct (String.eqb_spec v "false") as [->|Hf]; [|reflexivity].
      exfalso. now apply Hr.
Qed.

End TransportFacts.

Section TransportPriority.
Import JS Transport Spec.

Variables (toolName : string) (req : option headers).

Lemma gmail_priority (a : option Gmail.args) :
  priority_order
    Gmail.TOOL_COMPLEXITY_simple Gmail.TOOL_COMPLEXITY_complex
    Gmail.TOOL_COMPLEXITY_variable toolName req
    true false (is_complex (Gmail.variable_complexity toolName a))
    (Gmail.shouldUseSSE toolName a req).
Proof.
  unfold priority_order, Gmail.shouldUseSSE. split; [|split].
  - intros h -> Hs. now rewrite (client_preference_requests h Hs).
  - intros h -> Hn Hr. now rewrite (client_preference_rejects h Hn Hr).
  - intros Hnp. rewrite (client_preference_none req Hnp).
    split; [|split; [|split]].
    + intros Hin. apply arr_includes_In in Hin. now rewrite Hin.
    + intros Hs Hc. apply arr_includes_not_In in Hs.
      apply arr_includes_In in Hc. now rewrite Hs, Hc.
    + intros Hs Hc Hv. apply arr_includes_not_In in Hs, Hc.
      apply arr_includes_In in Hv. now rewrite Hs, Hc, Hv.
    + intros Hs Hc Hv. apply arr_includes_not_In in Hs, Hc, Hv.
      now rewrite Hs, Hc, Hv.
Qed.

Lemma calendar_priority (now_min now_max : Z) (a : option Calendar.args) :
  priority_order
    Calendar.TOOL_COMPLEXITY_simple Calendar.TOOL_COMPLEXITY_complex
    Calendar.TOOL_COMPLEXITY_variable toolName req
    (Some true) (Some false)
    (option_map is_complex
       (Calendar.variable_complexity now_min now_max toolName a))
    (Calendar.shouldUseSSE now_min now_max toolName a req).
Proof.
  unfold priority_order, Calendar.shouldUseSSE. split; [|split].
  - intros h -> Hs. now rewrite (client_preference_requests h Hs).
  - intros h -> Hn Hr. now rewrite (client_preference_rejects h Hn Hr).
  - intros Hnp. rewrite (client_preference_none req Hnp).
    split; [|split; [|split]].
    + intros Hin. apply arr_includes_In in Hin. now rewrite Hin.
    + intros Hs Hc. apply arr_includes_not_In in Hs.
      apply arr_includes_In in Hc. now rewrite Hs, Hc.
    + intros Hs Hc Hv. apply arr_includes_not_In in Hs, Hc.
      apply arr_includes_In in Hv. now rewrite Hs, Hc, Hv.
    + intros Hs Hc Hv. apply arr_includes_not_In in Hs, Hc, Hv.
      now rewrite Hs, Hc, Hv.
Qed.

(** The clock is read by [analyzeListEvents] alone, and only for a bound
    that is missing. *)
Lemma calendar_clock_free (n1 n2 m1 m2 : Z) (a : option Calendar.args) :
  toolName <> "list_events"
  \/ (exists r tmin tmax,
        a = Some r /\ Calendar.timeMin r = Some tmin
        /\ Calendar.timeMax r = Some tmax) ->
  Calendar.shouldUseSSE n1 n2 toolName a req
  = Calendar.shouldUseSSE m1 m2 toolName a req.
Proof.
  intros H. unfold Calendar.shouldUseSSE, Calendar.variable_complexity.
  destruct (String.eqb_spec toolName "list_events") as [Heq|Hne];
    [|reflexivity].
  destruct H as [Hne | [r [tmin [tmax [-> [Hmin Hmax]]]]]];
    [contradiction|].
  unfold Calendar.analyzeListEvents. simpl. now rewrite Hmin, Hmax.
Qed.

End TransportPriority.

(** C8, as amended.  Both classifiers obey the priority order: a client
    header that asks for streaming, or rejects it, wins outright;
    otherwise a tool of the simple list resolves unary, one of the
    complex list resolves streaming, one of the variable list resolves
    by the heuristic its [switch] selects, and any other tool resolves
    unary.  The Gmail classifier depends on nothing else; the Calendar
    classifier reads the clock only for [list_events] with [timeMin] or
    [timeMax] missing. *)
Theorem shouldUseSSE_priority_order :
  forall (toolName : string) (req : option Transport.headers)
         (ga : option Transport.Gmail.args)
         (ca : option Transport.Calendar.args) (now_min now_max : Z),
    Spec.priority_order
      Transport.Gmail.TOOL_COMPLEXITY_simple
      Transport.Gmail.TOOL_COMPLEXITY_complex
      Transport.Gmail.TOOL_COMPLEXITY_variable toolName req
      true false
      (Transport.is_complex (Transport.Gmail.variable_complexity toolName ga))
      (Transport.Gmail.shouldUseSSE toolName ga req)
    /\ Spec.priority_order
         Transport.Calendar.TOOL_COMPLEXITY_simple
         Transport.Calendar.TOOL_COMPLEXITY_complex
         Transport.Calendar.TOOL_COMPLEXITY_variable toolName req
         (Some true) (Some false)
         (option_map Transport.is_complex
            (Transport.Calendar.variable_complexity
               now_min now_max toolName ca))
         (Transport.Calendar.shouldUseSSE now_min now_max toolName ca req)
    /\ (forall m1 m2 : Z,
          toolName <> "list_events"
          \/ (exists r tmin tmax,
                ca = Some r /\ Transport.Calendar.timeMin r = Some tmin
                /\ Transport.Calendar.timeMax r = Some tmax) ->
          Transport.Calendar.shouldUseSSE m1 m2 toolName ca req
          = Transport.Calendar.shouldUseSSE now_min now_max toolName ca req).
Proof.
  intros toolName req ga ca now_min now_max. split; [|split].
  - apply gmail_priority.
  - apply calendar_priority.
  - intros m1 m2 H. now apply calendar_clock_free.
Qed.

Lemma shouldUseSSE_priority_order_witness :
  Transport.Gmail.shouldUseSSE "delete_email" None
    (Some Examples.wants_stream) = true
  /\ Transport.Calendar.shouldUseSSE 0 0 "auth_status" None
       (Some Examples.wants_stream) = Some true.
Proof.
  destruct (shouldUseSSE_priority_order "delete_email"
              (Some Examples.wants_stream) None None 0 0)
    as [[Hg _] _].
  destruct (shouldUseSSE_priority_order "auth_status"
              (Some Examples.wants_stream) None None 0 0)
    as [_ [[Hc _] _]].
  split.
  - apply (Hg Examples.wants_stream eq_refl).
    left. exists "application/json, text/event-stream".
    split; reflexivity.
  - apply (Hc Examples.wants_stream eq_refl).
    left. exists "application/json, text/event-stream".
    split; reflexivity.
Defined.

(** C8, as stated, fails: the same tool name, arguments and headers
    resolve unary one day after [timeMin] and streaming four hundred
    days after it. *)
Lemma shouldUseSSE_reads_the_clock :
  Transport.Calendar.shouldUseSSE
    Examples.one_day_later Examples.one_day_later
    "list_events" (Some Examples.list_events_from) None = Some false
  /\ Transport.Calendar.shouldUseSSE
       Examples.a_year_later Examples.a_year_later
       "list_events" (Some Examples.list_events_from) None = Some true.
Proof. split; vm_compute; reflexivity. Qed.

(** * Properties of the fuzzy scan *)

Section FuzzyFacts.
Import JS Fs TokenFiles Spec.


Lemma prefix_empty_r (s : string) :
  String.prefix s EmptyString = true -> s = EmptyString.
Proof. destruct s; simpl; [reflexivity | discriminate]. Qed.
















End FuzzyFacts.


(** * Properties of the expiry test *)

Section ExpiryFacts.
Import JS TokenManager Spec.

Lemma isExpired_with_expiry (now n : Z) (c : Credentials) :
  cred "expiry_date" c = Some (JNum n) -> n <> 0 ->
  isExpired now c = (n - 300000 <=? now).
Proof.
  intros Hn Hnz. unfold isExpired. rewrite Hn. simpl.
  destruct (Z.eqb_spec n 0) as [->|_]; [contradiction|reflexivity].
Qed.

Lemma isExpired_without_expiry (now : Z) (c : Credentials) :
  truthy (cred "expiry_date" c) = false ->
  isExpired now c = negb (truthy (cred "access_token" c)).
Proof. intros H. unfold isExpired. now rewrite H. Qed.

End ExpiryFacts.

(** C6, as amended.  A record whose [expiry_date] is a number other
    than zero counts as expired exactly when
    [now >= expiry_date - 300000], whether it holds an access token or
    not; a record whose [expiry_date] is absent, null or zero counts as
    expired exactly when it holds no access token. *)
Theorem isExpired_by_expiry_then_token :
  forall (now : Z) (c : TokenManager.Credentials),
    (forall n : Z,
        TokenManager.cred "expiry_date" c = Some (JS.JNum n) -> n <> 0 ->
        (TokenManager.isExpired now c = true <-> now >= n - 300000))
    /\ (JS.truthy (TokenManager.cred "expiry_date" c) = false ->
        (TokenManager.isExpired now c = true <-> Spec.no_access_token c)).
Proof.
  intros now c. split.
  - intros n Hn Hnz. rewrite (isExpired_with_expiry now n c Hn Hnz).
    rewrite Z.leb_le. lia.
  - intros H. rewrite (isExpired_without_expiry now c H).
    unfold Spec.no_access_token.
    destruct (JS.truthy (TokenManager.cred "access_token" c));
      simpl; split; congruence.
Qed.

Lemma isExpired_by_expiry_then_token_witness :
  TokenManager.isExpired 1700000000000
    [ ("access_token", Some (JS.JStr "ya29.a0"));
      ("expiry_date", Some (JS.JNum 1700000100000)) ] = true
  /\ TokenManager.isExpired 1700000000000
       [ ("refresh_token", Some (JS.JStr "1//0g")) ] = true.
Proof.
  split.
  - apply (proj1 (isExpired_by_expiry_then_token 1700000000000 _)
             1700000100000); [reflexivity | lia | lia].
  - apply (proj2 (isExpired_by_expiry_then_token 1700000000000 _));
      reflexivity.
Defined.

(** C6, as stated, fails: a record without access token whose
    [expiry_date] is an hour away does not count as expired, and
    [refreshTokensIfNeeded] reports it valid without a refresh. *)
Lemma isExpired_ignores_missing_access_token :
  Spec.no_access_token Examples.no_access_token_record
  /\ TokenManager.isExpired 1700000000000 Examples.no_access_token_record
     = false
  /\ fst (fst (TokenManager.refreshTokensIfNeeded
                 "/srv/tokens/.userhash-cache.json"
                 1700000000000 TokenManager.InvalidGrant
                 {| TokenManager.tokenPath :=
                      "/srv/tokens/.abcdef123456-gcp-saved-tokens.json";
                    TokenManager.credentials :=
                      Examples.no_access_token_record |}
                 (Examples.empty_cache Examples.one_user_disk)))
     = true.
Proof. repeat split. Qed.

(** * Properties of the lookup cache *)

Section CacheLoadFacts.
Import JS Exn UserHashCache Spec.

Lemma emptyCache_well_formed : has_version_and_entries emptyCache.
Proof. split; reflexivity. Qed.

Lemma structure_check_true (j : json) :
  structure_check j = Ok true <-> has_version_and_entries j.
Proof.
  unfold has_version_and_entries. split.
  - destruct j; simpl; try discriminate;
      intros H; injection H as H; now apply andb_true_iff in H.
  - intros [Hv He]. destruct j; simpl in *; try discriminate;
      now rewrite Hv, He.
Qed.

(** The [try] block succeeds exactly on a JSON text that passes the
    structural check. *)
Lemma loadCache_try_Ok (read : result text) (c : json) :
  loadCache_try read = Ok c <->
  read = Ok (Doc c) /\ has_version_and_entries c.
Proof.
  unfold loadCache_try. split.
  - destruct read as [[raw|j]|e]; simpl; try discriminate.
    destruct (structure_check j) as [[|]|e] eqn:Hc; simpl; try discriminate.
    intros H. injection H as <-. split; [reflexivity|].
    now apply structure_check_true.
  - intros [-> Hwf]. simpl.
    apply structure_check_true in Hwf. now rewrite Hwf.
Qed.

Lemma loadCache_try_failed (read : result text) :
  cache_load_failed read -> exists e, loadCache_try read = Raise e.
Proof.
  unfold loadCache_try.
  intros [[e ->] | [[raw ->] | [j [-> Hbad]]]]; simpl; eauto.
  destruct (structure_check j) as [[|]|e] eqn:Hc; simpl; eauto.
  exfalso. apply Hbad. now apply structure_check_true.
Qed.

Lemma entryCount_well_formed (c : json) :
  has_version_and_entries c -> exists n, entryCount c = Ok n.
Proof.
  intros [Hv He]. unfold entryCount.
  destruct c; simpl in *; try discriminate.
  destruct (assoc "entries" fields) as [[| | | | |]|]; simpl in *;
    try discriminate; eauto.
Qed.

Lemma initialize_loaded (cache0 c : json) (read : result text) :
  loadCache_try read = Ok c -> initialize cache0 read = Ok c.
Proof.
  intros H. unfold initialize, loadCache. rewrite H. simpl.
  apply loadCache_try_Ok in H. destruct H as [_ Hwf].
  destruct (entryCount_well_formed c Hwf) as [n ->]. reflexivity.
Qed.

Lemma initialize_reset (cache0 : json) (read : result text) (e : exn) :
  loadCache_try read = Raise e -> initialize cache0 read = Ok emptyCache.
Proof.
  intros H. unfold initialize, loadCache. now rewrite H.
Qed.

End CacheLoadFacts.

(** C10.  [initialize] raises no error, whatever reading the cache file
    gives and whatever cache the constructor left: afterwards the cache
    passes the structural check for version and entries; it is the
    empty table of version 1.0.0 whenever the file is missing or
    unreadable, is not JSON or fails the structural check, and it is the
    document of the file otherwise. *)
Theorem initialize_never_raises :
  forall (cache0 : JS.json) (read : Exn.result JS.text),
    exists c : JS.json,
      UserHashCache.initialize cache0 read = Exn.Ok c
      /\ Spec.has_version_and_entries c
      /\ (Spec.cache_load_failed read -> c = UserHashCache.emptyCache)
      /\ (forall j, read = Exn.Ok (JS.Doc j) ->
          Spec.has_version_and_entries j -> c = j).
Proof.
  intros cache0 read.
  destruct (UserHashCache.loadCache_try read) as [c|e] eqn:Hload.
  - exists c. pose proof (proj1 (loadCache_try_Ok read c) Hload) as [Hr Hwf].
    split; [now apply initialize_loaded|]. split; [assumption|]. split.
    + intros Hfail. apply loadCache_try_failed in Hfail.
      destruct Hfail as [e He]. congruence.
    + intros j Hj _. congruence.
  - exists UserHashCache.emptyCache.
    split; [now apply (initialize_reset cache0 read e)|].
    split; [apply emptyCache_well_formed|]. split; [reflexivity|].
    intros j Hj Hwf.
    assert (UserHashCache.loadCache_try read = Exn.Ok j) as Hok
      by (apply loadCache_try_Ok; now split).
    congruence.
Qed.

(** * Properties of the callback dispatcher *)

Section DispatcherFacts.
Import JS CallbackDispatcher Spec.

Lemma table_inv_delete (servers : table) (u : string) :
  table_inv servers -> table_inv (delete u servers).
Proof.
  intros Hinv k info Hk. apply lookup_delete_Some in Hk.
  destruct Hk as [_ Hk]. now apply Hinv.
Qed.

Lemma table_inv_step (servers servers' : table) :
  table_inv servers -> step servers servers' -> table_inv servers'.
Proof.
  intros Hinv Hstep. destruct Hstep as [fetch st | now u p | u | now].
  - unfold oauth2callback.
    destruct st as [st|]; [|assumption].
    destruct (truthy_text st); simpl; [|assumption].
    destruct (userID_of_state st) as [v|]; [|assumption].
    destruct (get servers v) as [info|]; [|assumption].
    destruct (fetch (port info)) as [status statusText content|];
      [|assumption].
    destruct (ok status); [|assumption].
    destruct content as [content|]; [|assumption]. simpl.
    destruct v as [[| | |u| |]|]; try assumption.
    now apply table_inv_delete.
  - unfold register.
    destruct u as [u|]; [|assumption].
    destruct p as [p|]; [|assumption].
    destruct (String.eqb_spec u "") as [->|Hu]; simpl; [assumption|].
    destruct (Z.eqb_spec p 0) as [->|Hp]; simpl; [assumption|].
    intros k info Hk. apply lookup_insert_Some in Hk.
    destruct Hk as [[<- <-] | [_ Hk]]; [now simpl | now apply Hinv].
  - unfold unregister.
    destruct u as [u|]; [|assumption].
    destruct (String.eqb u ""); simpl; [assumption|].
    now apply table_inv_delete.
  - unfold cleanup. intros k info Hk.
    apply map_lookup_filter_Some in Hk. destruct Hk as [Hk _].
    now apply Hinv.
Qed.

Lemma reachable_inv (servers : table) :
  reachable servers -> table_inv servers.
Proof.
  induction 1 as [|servers servers' _ IH Hstep].
  - intros k info Hk. now rewrite lookup_empty in Hk.
  - now apply (table_inv_step servers).
Qed.

(** A list without two pairs of the same key lists a key at most
    once. *)
Lemma keyed_at_most_once (l : list (string * Z)) (u : string) :
  NoDup (l.*1) ->
  (List.length (filter (fun e => fst e = u) l) <= 1)%nat.
Proof.
  induction l as [|[k v] l IH]; intros Hnd; simpl; [lia|].
  apply NoDup_cons in Hnd. destruct Hnd as [Hk Hnd].
  destruct (decide (k = u)) as [->|Hne].
  - rewrite filter_cons_True by reflexivity. simpl.
    assert (filter (fun e => fst e = u) l = []) as ->; [|simpl; lia].
    apply elem_of_nil_inv. intros [k' v'] Hin.
    apply list_elem_of_filter in Hin. destruct Hin as [Heq Hin].
    simpl in Heq. subst k'. apply Hk.
    apply list_elem_of_fmap. exists (u, v'). now split.
  - rewrite filter_cons_False by (simpl; congruence). now apply IH.
Qed.

Lemma status_servers_keys (servers : table) :
  (status_servers servers).*1 = (map_to_list servers).*1.
Proof.
  unfold status_servers. rewrite <- list_fmap_compose.
  apply list_fmap_ext. now intros _ [k info] _.
Qed.

Lemma status_at_most_once (servers : table) (u : string) :
  (List.length (filter (fun e => fst e = u) (status_servers servers)) <= 1)%nat.
Proof.
  apply keyed_at_most_once. rewrite status_servers_keys.
  apply NoDup_fst_map_to_list.
Qed.

Lemma status_lists_registered (servers : table) (u : string)
  (info : AuthServerInfo) :
  servers !! u = Some info ->
  List.length (filter (fun e => fst e = u) (status_servers servers)) = 1%nat.
Proof.
  intros Hu. pose proof (status_at_most_once servers u) as Hle.
  assert ((u, port info) ∈ filter (fun e => fst e = u) (status_servers servers))
    as Hin.
  { apply list_elem_of_filter. split; [reflexivity|].
    unfold status_servers. apply list_elem_of_fmap.
    exists (u, info). split; [reflexivity|].
    now apply elem_of_map_to_list. }
  destruct (filter (fun e => fst e = u) (status_servers servers)) as [|e l].
  - now apply elem_of_nil in Hin.
  - simpl in *. lia.
Qed.

End DispatcherFacts.

(** C7.  In every table the dispatcher can reach, registering an
    identity with a port leaves exactly one registration for that
    identity, the new one: an earlier registration of the identity is
    replaced, not kept beside it, the other identities keep theirs, the
    table does not grow when the identity was registered already, and
    no identity is ever listed twice. *)
Theorem register_supersedes :
  forall (servers : gmap string CallbackDispatcher.AuthServerInfo)
         (now : Z) (u : string) (p : Z),
    CallbackDispatcher.reachable servers -> u <> "" -> p <> 0 ->
    let servers' :=
      snd (CallbackDispatcher.register now servers (Some u) (Some p)) in
    CallbackDispatcher.reachable servers'
    /\ servers' !! u
       = Some {| CallbackDispatcher.userID := u;
                 CallbackDispatcher.port := p;
                 CallbackDispatcher.timestamp := now |}
    /\ (forall v, v <> u -> servers' !! v = servers !! v)
    /\ (is_Some (servers !! u) -> size servers' = size servers)
    /\ List.length
         (filter (fun e => fst e = u)
            (CallbackDispatcher.status_servers servers')) = 1%nat
    /\ (forall v,
          (List.length
             (filter (fun e => fst e = v)
                (CallbackDispatcher.status_servers servers')) <= 1)%nat)
    /\ (forall k info, servers' !! k = Some info ->
          CallbackDispatcher.userID info = k).
Proof.
  intros servers now u p Hreach Hu Hp servers'.
  assert (servers'
          = <[ u := {| CallbackDispatcher.userID := u;
                       CallbackDispatcher.port := p;
                       CallbackDispatcher.timestamp := now |} ]> servers)
    as Heq.
  { subst servers'. unfold CallbackDispatcher.register.
    destruct (String.eqb_spec u "") as [->|_]; [contradiction|].
    destruct (Z.eqb_spec p 0) as [->|_]; [contradiction|]. reflexivity. }
  assert (CallbackDispatcher.reachable servers') as Hreach'.
  { subst servers'.
    apply (CallbackDispatcher.reachable_step servers); [assumption|].
    apply CallbackDispatcher.step_register. }
  split; [assumption|]. rewrite Heq. split; [apply lookup_insert_eq|].
  split; [intros v Hv; now apply lookup_insert_ne|].
  split; [intros [info Hinfo]; now apply (map_size_insert_Some u _ servers)|].
  split; [apply (status_lists_registered _ u _ (lookup_insert_eq _ _ _))|].
  split; [intros v; apply status_at_most_once|].
  intros k info Hk. rewrite <- Heq in Hk.
  now apply (reachable_inv servers' Hreach' k info).
Qed.

Lemma register_supersedes_witness :
  snd (CallbackDispatcher.register 1700000060000
         (snd (CallbackDispatcher.register 1700000000000 ∅
                 (Some "abcdef123456") (Some 3101)))
         (Some "abcdef123456") (Some 3102))
  !! "abcdef123456"
  = Some {| CallbackDispatcher.userID := "abcdef123456";
            CallbackDispatcher.port := 3102;
            CallbackDispatcher.timestamp := 1700000060000 |}.
Proof.
  apply (register_supersedes
           (snd (CallbackDispatcher.register 1700000000000 ∅
                   (Some "abcdef123456") (Some 3101)))
           1700000060000 "abcdef123456" 3102).
  - apply (CallbackDispatcher.reachable_step ∅).
    + apply CallbackDispatcher.reachable_start.
    + apply CallbackDispatcher.step_register.
  - discriminate.
  - lia.
Defined.

Section ForwardingFacts.
Import JS CallbackDispatcher.

Lemma userID_of_state_truthy (st : text) (v : value) :
  userID_of_state st = Some v -> truthy_text st = true.
Proof.
  unfold userID_of_state. destruct st as [raw|j]; simpl;
    [discriminate | reflexivity].
Qed.

Lemma ok_iff (status : Z) : ok status = true <-> 200 <= status <= 299.
Proof. unfold ok. rewrite andb_true_iff, !Z.leb_le. reflexivity. Qed.

(** The handler on a callback whose identity is registered, by what the
    forwarded request does. *)
Lemma oauth2callback_registered (fetch : Z -> downstream) (servers : table)
  (st : text) (u : string) (info : AuthServerInfo) :
  userID_of_state st = Some (Some (JStr u)) ->
  servers !! u = Some info ->
  oauth2callback fetch servers (Some st)
  = match fetch (port info) with
    | Answer status statusText content =>
        if ok status
        then match content with
             | Some content => (Relayed status content, delete u servers)
             | None => (InternalServerError, servers)
             end
        else (AuthenticationFailed status statusText, servers)
    | FetchError => (InternalServerError, servers)
    end.
Proof.
  intros Hst Hu. unfold oauth2callback.
  rewrite (userID_of_state_truthy st _ Hst), Hst. simpl. rewrite Hu.
  reflexivity.
Qed.

End ForwardingFacts.

(** C9.  When a callback is forwarded to the auth server registered for
    its identity, the registration is deleted only if the auth server
    answered with a status from 200 to 299; on any other status the
    reply carries that status with the failure message, and when the
    forwarded request raises the reply is 500; in both cases the
    routing table stays as it was. *)
Theorem oauth2callback_deletes_only_on_success :
  forall (fetch : Z -> CallbackDispatcher.downstream)
         (servers : gmap string CallbackDispatcher.AuthServerInfo)
         (st : JS.text) (u : string)
         (info : CallbackDispatcher.AuthServerInfo),
    CallbackDispatcher.userID_of_state st = Some (Some (JS.JStr u)) ->
    servers !! u = Some info ->
    let out := CallbackDispatcher.oauth2callback fetch servers (Some st) in
    (snd out !! u = None ->
     exists status statusText content,
       fetch (CallbackDispatcher.port info)
       = CallbackDispatcher.Answer status statusText (Some content)
       /\ 200 <= status <= 299
       /\ out = (CallbackDispatcher.Relayed status content,
                 delete u servers))
    /\ (forall status statusText content,
          fetch (CallbackDispatcher.port info)
          = CallbackDispatcher.Answer status statusText content ->
          ~ 200 <= status <= 299 ->
          out = (CallbackDispatcher.AuthenticationFailed status statusText,
                 servers))
    /\ (fetch (CallbackDispatcher.port info) = CallbackDispatcher.FetchError ->
        out = (CallbackDispatcher.InternalServerError, servers)).
Proof.
  intros fetch servers st u info Hst Hu out. subst out.
  rewrite (oauth2callback_registered fetch servers st u info Hst Hu).
  destruct (fetch (CallbackDispatcher.port info))
    as [status statusText content|] eqn:Hfetch.
  - destruct (CallbackDispatcher.ok status) eqn:Hok.
    + apply ok_iff in Hok. destruct content as [content|]; simpl.
      * split; [intros _; now exists status, statusText, content|].
        split; [|discriminate].
        intros status' statusText' content' Heq Hbad.
        injection Heq as <- <- <-. contradiction.
      * split; [intros Hnone; congruence|].
        split; [|discriminate].
        intros status' statusText' content' Heq Hbad.
        injection Heq as <- <- <-. contradiction.
    + simpl. split; [intros Hnone; congruence|].
      split; [|discriminate].
      intros status' statusText' content' Heq _.
      now injection Heq as <- <- <-.
  - simpl. split; [intros Hnone; congruence|].
    split; [discriminate | reflexivity].
Qed.

Lemma oauth2callback_deletes_only_on_success_witness :
  CallbackDispatcher.oauth2callback Examples.failing_auth_server
    Examples.one_server (Some Examples.state_of_abcdef)
  = (CallbackDispatcher.AuthenticationFailed 500 "Internal Server Error",
     Examples.one_server).
Proof.
  apply (proj1 (proj2 (oauth2callback_deletes_only_on_success
                         Examples.failing_auth_server Examples.one_server
                         Examples.state_of_abcdef "abcdef123456"
                         {| CallbackDispatcher.userID := "abcdef123456";
                            CallbackDispatcher.port := 3101;
                            CallbackDispatcher.timestamp := 1700000000000 |}
                         eq_refl (lookup_singleton_eq _ _)))
           500 "Internal Server Error" (Some "Authentication failed.")).
  - reflexivity.
  - lia.
Defined.

(** * Saving and loading a record *)

Section FsFacts.
Import JS Fs.

Lemma assoc_put_eq (p : string) (t : text) (l : list (string * text)) :
  assoc p (put p t l) = Some t.
Proof.
  induction l as [|[p' t'] l IH]; simpl.
  - now rewrite String.eqb_refl.
  - destruct (String.eqb_spec p p') as [->|Hne]; simpl.
    + now rewrite String.eqb_refl.
    + destruct (String.eqb_spec p p') as [->|_]; [contradiction|exact IH].
Qed.

Lemma assoc_put_ne (p q : string) (t : text) (l : list (string * text)) :
  q <> p -> assoc q (put p t l) = assoc q l.
Proof.
  intros Hne. induction l as [|[p' t'] l IH]; simpl.
  - destruct (String.eqb_spec q p) as [->|_]; [contradiction|reflexivity].
  - destruct (String.eqb_spec p p') as [->|Hpp']; simpl.
    + destruct (String.eqb_spec q p') as [->|_];
        [contradiction|reflexivity].
    + destruct (String.eqb_spec q p'); [reflexivity|exact IH].
Qed.

Lemma writeFileSync_read (d d' : disk) (p : string) (t : text) :
  writeFileSync d p t = Some d' ->
  readFileSync d' p = Some t /\ existsSync d' p = true.
Proof.
  unfold writeFileSync, readFileSync, existsSync.
  destruct (writable d && dir_exists d); [|discriminate].
  intros H. injection H as <-. simpl. now rewrite assoc_put_eq.
Qed.

Lemma writeFileSync_other (d d' : disk) (p q : string) (t : text) :
  writeFileSync d p t = Some d' -> q <> p ->
  readFileSync d' q = readFileSync d q.
Proof.
  unfold writeFileSync, readFileSync.
  destruct (writable d && dir_exists d); [|discriminate].
  intros H Hne. injection H as <-. simpl. now apply assoc_put_ne.
Qed.

End FsFacts.

Section CleanFacts.
Import JS UserManager Spec.

Lemma assoc_None_notin {A : Type} (k : string) (l : list (string * A)) :
  ~ In k (List.map fst l) -> assoc k l = None.
Proof.
  induction l as [|[k' v] l IH]; simpl; [reflexivity|].
  intros Hnin. destruct (String.eqb_spec k k') as [->|_].
  - exfalso. apply Hnin. now left.
  - apply IH. intros Hin. apply Hnin. now right.
Qed.


Lemma without_null_undefined_keys (T : list (string * value)) (k : string) :
  In k (List.map fst (without_null_undefined T)) -> In k (List.map fst T).
Proof.
  induction T as [|[k' [v|]] T IH]; simpl; [tauto| |].
  - destruct v; simpl; intros H;
      try (destruct H as [->|Hin]; [now left | right; now apply IH]).
    right. now apply IH.
  - intros H. right. now apply IH.
Qed.



End CleanFacts.

Section RoundTripFacts.
Import JS Fs Exn Spec.


Lemma saveCache_disk (cacheFilePath : string) (c : UserHashCache.t) :
  UserHashCache.on_disk (UserHashCache.saveCache cacheFilePath c)
  = UserHashCache.on_disk c
  \/ exists content,
      writeFileSync (UserHashCache.on_disk c) cacheFilePath content
      = Some (UserHashCache.on_disk
                (UserHashCache.saveCache cacheFilePath c)).
Proof.
  unfold UserHashCache.saveCache.
  destruct (UserHashCache.isDirty c); [|now left].
  destruct (writeFileSync _ _ _) as [d'|] eqn:Hw; [|now left].
  right. eexists. exact Hw.
Qed.

(** Saving the cache leaves every other file as it was. *)
Lemma saveCache_other (cacheFilePath p : string) (c : UserHashCache.t) :
  p <> cacheFilePath ->
  readFileSync
    (UserHashCache.on_disk (UserHashCache.saveCache cacheFilePath c)) p
  = readFileSync (UserHashCache.on_disk c) p.
Proof.
  intros Hne. destruct (saveCache_disk cacheFilePath c) as [->|[t Hw]];
    [reflexivity|].
  now apply (writeFileSync_other _ _ cacheFilePath p t Hw).
Qed.

Lemma saveCache_dir_exists (cacheFilePath : string) (c : UserHashCache.t) :
  dir_exists (UserHashCache.on_disk c) = true ->
  dir_exists
    (UserHashCache.on_disk (UserHashCache.saveCache cacheFilePath c)) = true.
Proof.
  intros Hdir. destruct (saveCache_disk cacheFilePath c) as [->|[t Hw]];
    [assumption|].
  unfold writeFileSync in Hw.
  destruct (writable _ && dir_exists _); [|discriminate].
  injection Hw as <-. reflexivity.
Qed.

Lemma load_at_found (tm : TokenManager.t) (d : disk)
  (fields : list (string * json)) :
  dir_exists d = true ->
  readFileSync d (TokenManager.tokenPath tm) = Some (Doc (JObj fields)) ->
  TokenManager.load_at tm d
  = (true,
     {| TokenManager.tokenPath := TokenManager.tokenPath tm;
        TokenManager.credentials := TokenManager.of_json (JObj fields) |},
     d).
Proof.
  intros Hdir Hread. unfold TokenManager.load_at, mkdirSync.
  rewrite Hdir. unfold existsSync. unfold readFileSync in Hread.
  rewrite Hread. simpl. unfold readFileSync. now rewrite Hread.
Qed.

Lemma calendar_round_trip (cacheFilePath : string) (now : Z)
  (tm tm' : TokenManager.t) (c c' : UserHashCache.t)
  (T : TokenManager.Credentials) (original : option string) :
  TokenManager.tokenPath tm <> cacheFilePath ->
  TokenManager.saveTokens cacheFilePath now tm c T original = Ok (tm', c') ->
  TokenManager.loadSavedTokens tm' (UserHashCache.on_disk c')
  = (true,
     {| TokenManager.tokenPath := TokenManager.tokenPath tm;
        TokenManager.credentials :=
          TokenManager.of_json (JObj (TokenManager.stringify_fields T)) |},
     UserHashCache.on_disk c').
Proof.
  intros Hne. unfold TokenManager.saveTokens,
    TokenManager.ensureTokenDirectoryExists, TokenManager.writeFile.
  destruct (mkdirSync (UserHashCache.on_disk c)) as [d1|]; [|discriminate].
  simpl. destruct (writeFileSync d1 _ _) as [d2|] eqn:Hw; [|discriminate].
  simpl. pose proof (writeFileSync_read _ _ _ _ Hw) as [Hread _].
  assert (dir_exists d2 = true) as Hdir.
  { unfold writeFileSync in Hw.
    destruct (writable d1 && dir_exists d1); [|discriminate].
    now injection Hw as <-. }
  destruct (truthy_str original
            && negb (String.eqb (TokenManager.tokenPath tm) ""));
    intros H; injection H as <- <-; unfold TokenManager.loadSavedTokens.
  - apply (load_at_found
             {| TokenManager.tokenPath := TokenManager.tokenPath tm;
                TokenManager.credentials := T |}).
    + unfold UserHashCache.addEntry. now apply saveCache_dir_exists.
    + unfold UserHashCache.addEntry. simpl.
      now rewrite saveCache_other.
  - now apply (load_at_found
                 {| TokenManager.tokenPath := TokenManager.tokenPath tm;
                    TokenManager.credentials := T |}).
Qed.



End RoundTripFacts.


(** * The token path of a manager is stable under its own save *)

Section ListingFacts.
Import JS Fs TokenFiles.

Lemma strip_prefix_app (p s n : string) :
  strip_prefix p s = Some n -> s = p ++ n.
Proof.
  revert s. induction p as [|a p IH]; intros s; simpl.
  - intros H. now injection H as <-.
  - destruct s as [|b s]; [discriminate|].
    destruct (Ascii.eqb_spec a b) as [->|_]; [|discriminate].
    intros H. now rewrite (IH s H).
Qed.

Lemma append_cons (x : ascii) (a b : string) :
  String x a ++ b = String x (a ++ b).
Proof. reflexivity. Qed.

Lemma append_assoc (a b c : string) : (a ++ b) ++ c = a ++ b ++ c.
Proof.
  induction a as [|x a IH]; [reflexivity|].
  now rewrite !append_cons, IH.
Qed.

Lemma entry_name_path (dir p n : string) :
  entry_name dir p = Some n -> p = path_join dir n.
Proof.
  unfold entry_name, path_join.
  destruct (strip_prefix (dir ++ "/") p) as [m|] eqn:Hs; [|discriminate].
  destruct (includes m "/"); [discriminate|].
  intros H. injection H as <-.
  rewrite (strip_prefix_app _ _ _ Hs). apply append_assoc.
Qed.

Lemma entry_names_exist (dir : string) (l : list (string * text))
  (n : string) :
  In n (entry_names dir l) ->
  exists t, assoc (path_join dir n) l = Some t.
Proof.
  induction l as [|[p t] l IH]; simpl; [tauto|].
  destruct (entry_name dir p) as [m|] eqn:Hm.
  - intros [<-|Hin].
    + rewrite (entry_name_path dir p m Hm), String.eqb_refl. now exists t.
    + destruct (String.eqb (path_join dir n) p); [now exists t | now apply IH].
  - intros Hin.
    destruct (String.eqb (path_join dir n) p); [now exists t | now apply IH].
Qed.





Lemma includes_suffix (a b sub : string) :
  includes b sub = true -> includes (a ++ b) sub = true.
Proof.
  intros H. induction a as [|c a IH]; [assumption|].
  rewrite append_cons. simpl. rewrite IH. apply orb_true_r.
Qed.

Lemma prefix_append (a b : string) : String.prefix a (a ++ b) = true.
Proof.
  induction a as [|c a IH]; [now destruct b|].
  rewrite append_cons. simpl.
  destruct (ascii_dec c c) as [_|Hne]; [assumption | contradiction].
Qed.

Lemma includes_infix (a b c : string) : includes (a ++ b ++ c) b = true.
Proof.
  apply includes_suffix. pose proof (prefix_append b c) as H.
  destruct (b ++ c) as [|y r]; cbn [includes]; now rewrite H.
Qed.

Lemma scan_files_In (sp : string) (listing : list string) (f : string) :
  scan_files sp listing = Some f ->
  In f listing /\ file_matches sp f = true.
Proof.
  induction listing as [|g rest IH]; simpl; [discriminate|].
  destruct (file_matches sp g) eqn:Hg.
  - intros H. injection H as <-. split; [now left | assumption].
  - intros H. destruct (IH H) as [Hin Hm]. split; [now right | assumption].
Qed.

Lemma scan_lengths_In (target : string) (listing : list string)
  (lengths : list nat) (f : string) :
  scan_lengths target listing lengths = Some f ->
  In f listing /\ includes f "gcp-saved-tokens" = true.
Proof.
  induction lengths as [|k rest IH]; simpl; [discriminate|].
  destruct (scan_files (substring0 k target) listing) as [g|] eqn:Hg.
  - intros H. injection H as <-.
    destruct (scan_files_In _ _ _ Hg) as [Hin Hm]. split; [assumption|].
    unfold file_matches in Hm.
    now destruct (includes g "gcp-saved-tokens").
  - apply IH.
Qed.



End ListingFacts.

Section StabilityFacts.
Import JS Fs TokenFiles.

Variables (projectRoot cacheFilePath U : string).

Lemma exact_is_token_file :
  includes (Utils.getSecureTokenPathWithUserHash projectRoot U)
    "gcp-saved-tokens" = true.
Proof.
  unfold Utils.getSecureTokenPathWithUserHash, path_join.
  do 4 apply includes_suffix. reflexivity.
Qed.

Lemma fuzzy_result (d : disk) (F : string) :
  TokenFiles.findCaseInsensitiveTokenFile projectRoot d U = Some F ->
  dir_exists d = true
  /\ (exists t, assoc F (files d) = Some t)
  /\ includes F "gcp-saved-tokens" = true.
Proof.
  unfold TokenFiles.findCaseInsensitiveTokenFile, readdirSync.
  destruct (dir_exists d); [|discriminate].
  destruct (scan_lengths _ _ _) as [file|] eqn:Hscan; [|discriminate].
  intros H. injection H as <-.
  destruct (scan_lengths_In _ _ _ _ Hscan) as [Hin Hinc].
  split; [reflexivity|]. split; [now apply entry_names_exist|].
  unfold path_join. now do 2 apply includes_suffix.
Qed.



End StabilityFacts.

Section LoadWithHashFacts.
Import JS Fs Exn Spec.




End LoadWithHashFacts.




(** * The invalid-grant branch of [refreshTokensIfNeeded] *)

Section InvalidGrantFacts.
Import JS Fs TokenManager.

Lemma first_entry_for_present (path : string)
  (es : list (string * UserHashCache.CacheEntry)) (U : string) :
  first_entry_for path es = Some U -> exists e, assoc U es = Some e.
Proof.
  induction es as [|[k e] es IH]; simpl; [discriminate|].
  destruct (String.eqb (UserHashCache.actualTokenFilename e) path).
  - intros H. injection H as <-. rewrite String.eqb_refl. now exists e.
  - intros H. destruct (String.eqb U k); [now exists e | now apply IH].
Qed.

Lemma assoc_delete_prop {A : Type} (k : string) (l : list (string * A)) :
  assoc k (delete_prop k l) = None.
Proof.
  induction l as [|[k' v] l IH]; simpl; [reflexivity|].
  destruct (String.eqb k k') eqn:Hk; [exact IH|]. simpl. now rewrite Hk.
Qed.

(** The entry the loop finds names the token path. *)
Lemma first_entry_for_names (path : string)
  (es : list (string * UserHashCache.CacheEntry)) (U : string) :
  first_entry_for path es = Some U ->
  exists e, In (U, e) es /\ UserHashCache.actualTokenFilename e = path.
Proof.
  induction es as [|[k e] es IH]; simpl; [discriminate|].
  destruct (String.eqb_spec (UserHashCache.actualTokenFilename e) path)
    as [Heq|_].
  - intros H. injection H as <-. exists e. split; [now left | assumption].
  - intros H. destruct (IH H) as [e' [Hin Hp]]. exists e'.
    split; [now right | assumption].
Qed.

Lemma removeEntry_present (cacheFilePath : string) (c : UserHashCache.t)
  (U : string) (e : UserHashCache.CacheEntry) :
  assoc U (UserHashCache.entries (UserHashCache.cache c)) = Some e ->
  UserHashCache.entries
    (UserHashCache.cache
       (snd (UserHashCache.removeEntry cacheFilePath c U)))
  = delete_prop U (UserHashCache.entries (UserHashCache.cache c))
  /\ forall p, p <> cacheFilePath ->
       readFileSync
         (UserHashCache.on_disk
            (snd (UserHashCache.removeEntry cacheFilePath c U))) p
       = readFileSync (UserHashCache.on_disk c) p.
Proof.
  intros He. unfold UserHashCache.removeEntry. rewrite He. simpl. split.
  - unfold UserHashCache.saveCache, UserHashCache.with_entries. simpl.
    now destruct (writeFileSync _ _ _).
  - intros p Hp. now rewrite saveCache_other.
Qed.

(** [Object.entries] lists the properties of the object, each once. *)
Lemma In_insert_by_index {A : Type} (n : N) (kv : string * A)
  (l : list (N * (string * A))) (x : N * (string * A)) :
  In x (insert_by_index n kv l) <-> x = (n, kv) \/ In x l.
Proof.
  induction l as [|[m kv'] l IH]; simpl.
  - intuition.
  - destruct (n <=? m)%N; simpl; [intuition|].
    rewrite IH. intuition.
Qed.

Lemma In_index_properties {A : Type} (l : list (string * A)) (n : N)
  (kv : string * A) :
  In (n, kv) (index_properties l)
  <-> In kv l /\ array_index (fst kv) = Some n.
Proof.
  induction l as [|kv' l IH]; simpl; [intuition|].
  destruct (array_index (fst kv')) as [m|] eqn:Hm.
  - rewrite In_insert_by_index, IH. split.
    + intros [Heq | [Hin Hn]]; [|now split; [right|]].
      injection Heq as -> ->. now split; [left|].
    + intros [[-> | Hin] Hn]; [|now right].
      left. congruence.
  - rewrite IH. split.
    + intros [Hin Hn]. now split; [right|].
    + intros [[-> | Hin] Hn]; [congruence | now split].
Qed.

Lemma In_Object_entries {A : Type} (l : list (string * A))
  (kv : string * A) :
  In kv (Object_entries l) <-> In kv l.
Proof.
  unfold Object_entries. rewrite List.in_app_iff, List.in_map_iff,
    List.filter_In.
  split.
  - intros [[[n kv'] [Heq Hin]] | [Hin _]]; [|exact Hin].
    simpl in Heq. subst kv'. now apply In_index_properties in Hin.
  - intros Hin. destruct (array_index (fst kv)) as [n|] eqn:Hn.
    + left. exists (n, kv). split; [reflexivity|].
      now apply In_index_properties.
    + right. now split.
Qed.

Lemma In_assoc {A : Type} (k : string) (v : A) (l : list (string * A)) :
  In (k, v) l -> exists v', assoc k l = Some v'.
Proof.
  induction l as [|[k' v'] l IH]; simpl; [contradiction|].
  intros [Heq | Hin].
  - injection Heq as -> ->. rewrite String.eqb_refl. now exists v.
  - destruct (String.eqb k k'); [now exists v' | now apply IH].
Qed.

(** Keys that are array indices are listed first, in ascending order;
    a numeral with a leading zero or beyond 2^32 - 2 is no array
    index. *)
Example Object_entries_order :
  List.map fst
    (Object_entries
       [ ("zz", 1); ("42", 2); ("007", 3); ("7", 4); ("a", 5);
         ("4294967295", 6); ("0", 7) ])
  = [ "0"; "7"; "42"; "zz"; "007"; "a"; "4294967295" ].
Proof. reflexivity. Qed.

(** The loop finds nothing only when no entry names the path. *)
Lemma first_entry_for_none (path : string)
  (es : list (string * UserHashCache.CacheEntry)) :
  first_entry_for path es = None ->
  forall U e, In (U, e) es -> UserHashCache.actualTokenFilename e <> path.
Proof.
  induction es as [|[k e0] es IH]; simpl; [contradiction|].
  destruct (String.eqb_spec (UserHashCache.actualTokenFilename e0) path)
    as [_|Hne]; [discriminate|].
  intros H U e [Heq | Hin]; [congruence | now apply (IH H U e)].
Qed.

End InvalidGrantFacts.

(** C2, as amended.  On credentials whose expiry date the call can
    print, when [refreshTokensIfNeeded] performs a refresh and the
    provider answers invalid_grant, the call returns false and leaves
    the manager as it was; of the entries of the lookup cache, taken in
    the order of [Object.entries], the first that names the token path
    of the manager is removed, none when no entry names it; the
    credential file is not deleted: it stays on disk with its
    content. *)
Theorem refresh_invalid_grant :
  forall (cacheFilePath : string) (now : Z) (tm : TokenManager.t)
         (c : UserHashCache.t),
    TokenManager.expiry_date_is_logged (TokenManager.credentials tm)
    = true ->
    TokenManager.isExpired now (TokenManager.credentials tm) = true ->
    JS.truthy
      (TokenManager.cred "refresh_token" (TokenManager.credentials tm))
    = true ->
    let out :=
      TokenManager.refreshTokensIfNeeded cacheFilePath now
        TokenManager.InvalidGrant tm c in
    let es := UserHashCache.entries (UserHashCache.cache c) in
    let es' := UserHashCache.entries (UserHashCache.cache (snd out)) in
    let found :=
      TokenManager.first_entry_for (TokenManager.tokenPath tm)
        (JS.Object_entries es) in
    fst (fst out) = false
    /\ snd (fst out) = tm
    /\ es' = match found with
             | Some U => JS.delete_prop U es
             | None => es
             end
    /\ (forall U,
          found = Some U ->
          (exists e,
             In (U, e) es
             /\ UserHashCache.actualTokenFilename e
                = TokenManager.tokenPath tm)
          /\ JS.assoc U es' = None)
    /\ (found = None ->
        forall U e,
          In (U, e) es ->
          UserHashCache.actualTokenFilename e <> TokenManager.tokenPath tm)
    /\ (TokenManager.tokenPath tm <> cacheFilePath ->
        Fs.readFileSync (UserHashCache.on_disk (snd out))
          (TokenManager.tokenPath tm)
        = Fs.readFileSync (UserHashCache.on_disk c)
            (TokenManager.tokenPath tm)).
Proof.
  intros cacheFilePath now tm c _ Hexp Hrefresh out es es' found.
  subst out es es' found. unfold TokenManager.refreshTokensIfNeeded.
  rewrite Hexp, Hrefresh. simpl. unfold UserHashCache.getAllEntries.
  destruct (TokenManager.first_entry_for _ _) as [U|] eqn:Hfirst.
  - destruct (first_entry_for_names _ _ _ Hfirst) as [e [Hin Hname]].
    apply (proj1 (In_Object_entries _ _)) in Hin.
    destruct (In_assoc _ _ _ Hin) as [e' He'].
    destruct (removeEntry_present cacheFilePath c U e' He') as [Hes Hdisk].
    simpl. rewrite Hes.
    split; [reflexivity|]. split; [reflexivity|]. split; [reflexivity|].
    split; [|split; [discriminate|]].
    + intros U' HU'. injection HU' as <-. split.
      * now exists e.
      * apply assoc_delete_prop.
    + intros Hne. now apply Hdisk.
  - simpl.
    split; [reflexivity|]. split; [reflexivity|]. split; [reflexivity|].
    split; [discriminate|]. split; [|reflexivity].
    intros _ U e Hin. apply (first_entry_for_none _ _ Hfirst U e).
    now apply (proj2 (In_Object_entries _ _)).
Qed.

(** The cache maps abcdef123456 and then 42 to the token file of the
    manager: the entry of 42 is listed first and is the one removed. *)
Lemma refresh_invalid_grant_witness :
  let c :=
    UserHashCache.addEntry "/srv/calendar/.userhash-cache.json"
      1650000000000 Examples.cache_of_abcdef "42"
      "/srv/calendar/.abcdef123456-gcp-saved-tokens.json" in
  List.map fst (UserHashCache.entries (UserHashCache.cache c))
  = [ "abcdef123456"; "42" ]
  /\ List.map fst
       (UserHashCache.entries
          (UserHashCache.cache
             (snd (TokenManager.refreshTokensIfNeeded
                     "/srv/calendar/.userhash-cache.json" 1700000000000
                     TokenManager.InvalidGrant Examples.expired_manager c))))
     = [ "abcdef123456" ].
Proof.
  intros c. split; [reflexivity|].
  destruct (refresh_invalid_grant
              "/srv/calendar/.userhash-cache.json" 1700000000000
              Examples.expired_manager c
              eq_refl eq_refl eq_refl) as [_ [_ [Hes _]]].
  rewrite Hes. reflexivity.
Defined.

(** C2, as stated, fails: after the refresh of the record of
    abcdef123456 was answered with invalid_grant, the mapping of
    abcdef123456 is gone from the lookup cache, but the credential file
    is still on disk and loading the record of abcdef123456 finds it. *)
Lemma invalid_grant_keeps_the_file :
  let out :=
    TokenManager.refreshTokensIfNeeded
      "/srv/calendar/.userhash-cache.json" 1700000000000
      TokenManager.InvalidGrant Examples.expired_manager
      Examples.cache_of_abcdef in
  let after := UserHashCache.on_disk (snd out) in
  fst (fst out) = false
  /\ UserHashCache.hasEntry (snd out) "abcdef123456" = false
  /\ Fs.readFileSync after
       "/srv/calendar/.abcdef123456-gcp-saved-tokens.json"
     = Some (JS.Doc (JS.JObj Examples.expired_record))
  /\ fst (fst (TokenManager.loadSavedTokensWithUserHash "/srv/calendar"
                 (TokenManager.constructor "/srv/calendar" after []
                    (Some "abcdef123456"))
                 after "abcdef123456"))
     = true.
Proof. vm_compute. repeat split. Qed.

(** * The resolution order of the credential file *)

Section ResolutionFacts.
Import JS Fs TokenFiles Spec.

Lemma finalCredPath_order (CONFIG_DIR : string) (d : disk) (U : string) :
  UserManager.finalCredPath CONFIG_DIR d U
  = first_of
      [ existing d (UserManager.getCredentialsPath CONFIG_DIR U);
        existing d (UserManager.getCredentialsPath CONFIG_DIR U ++ ".save");
        TokenFiles.findCaseInsensitiveTokenFile CONFIG_DIR d U ].
Proof.
  unfold UserManager.finalCredPath, existing,
    UserManager.findCaseInsensitiveTokenFile. simpl.
  destruct (existsSync d (UserManager.getCredentialsPath CONFIG_DIR U));
    [reflexivity|].
  destruct (existsSync d _); [reflexivity|].
  now destruct (TokenFiles.findCaseInsensitiveTokenFile CONFIG_DIR d U).
Qed.

Lemma fuzzyMatching_order (projectRoot : string) (d : disk) (U : string) :
  Utils.getSecureTokenPathWithFuzzyMatching projectRoot d U
  = match first_of
            [ existing d (Utils.getSecureTokenPathWithUserHash projectRoot U);
              TokenFiles.findCaseInsensitiveTokenFile projectRoot d U ] with
    | Some p => p
    | None => Utils.getSecureTokenPathWithUserHash projectRoot U
    end.
Proof.
  unfold Utils.getSecureTokenPathWithFuzzyMatching, existing,
    Utils.findCaseInsensitiveTokenFile. simpl.
  destruct (existsSync d _); [reflexivity|].
  now destruct (TokenFiles.findCaseInsensitiveTokenFile projectRoot d U).
Qed.

Lemma loadUserCredentials_not_found (CONFIG_DIR : string) (d : disk)
  (U : string) :
  UserManager.finalCredPath CONFIG_DIR d U = None ->
  UserManager.loadUserCredentials CONFIG_DIR d U = JNull.
Proof.
  intros H. unfold UserManager.loadUserCredentials. now rewrite H.
Qed.

Lemma saveCache_cache (cacheFilePath : string) (c : UserHashCache.t) :
  UserHashCache.cache (UserHashCache.saveCache cacheFilePath c)
  = UserHashCache.cache c.
Proof.
  unfold UserHashCache.saveCache.
  destruct (UserHashCache.isDirty c); [|reflexivity].
  now destruct (writeFileSync _ _ _).
Qed.

Lemma assoc_set_prop_eq {A : Type} (k : string) (v : A)
  (l : list (string * A)) :
  assoc k (set_prop k v l) = Some v.
Proof.
  induction l as [|[k' v'] l IH]; simpl.
  - now rewrite String.eqb_refl.
  - destruct (String.eqb k k') eqn:Hk; simpl.
    + now rewrite String.eqb_refl.
    + now rewrite Hk.
Qed.

Lemma cacheAndFuzzy_order (projectRoot cacheFilePath : string) (now : Z)
  (c : UserHashCache.t) (U : string) :
  let out :=
    Utils.getSecureTokenPathWithCacheAndFuzzyMatching
      projectRoot cacheFilePath now c U in
  let d' := UserHashCache.on_disk (snd out) in
  fst out
  = match first_of
            [ cache_hit cacheFilePath now c U;
              existing d' (Utils.getSecureTokenPathWithUserHash projectRoot U);
              TokenFiles.findCaseInsensitiveTokenFile projectRoot d' U ] with
    | Some p => p
    | None => Utils.getSecureTokenPathWithUserHash projectRoot U
    end.
Proof.
  unfold Utils.getSecureTokenPathWithCacheAndFuzzyMatching, cache_hit.
  destruct (UserHashCache.getTokenFilename cacheFilePath now c U)
    as [[p|] c1]; simpl.
  - destruct (String.eqb p ""); simpl.
    + apply fuzzyMatching_order.
    + unfold existing.
      destruct (existsSync (UserHashCache.on_disk c1) p); simpl;
        [reflexivity | apply fuzzyMatching_order].
  - apply fuzzyMatching_order.
Qed.

(** A mapping whose target is missing is removed by the lookup. *)
Lemma cacheAndFuzzy_purges (projectRoot cacheFilePath : string) (now : Z)
  (c : UserHashCache.t) (U : string) (e : UserHashCache.CacheEntry) :
  assoc U (UserHashCache.entries (UserHashCache.cache c)) = Some e ->
  UserHashCache.actualTokenFilename e <> "" ->
  cache_hit cacheFilePath now c U = None ->
  assoc U
    (UserHashCache.entries
       (UserHashCache.cache
          (snd (Utils.getSecureTokenPathWithCacheAndFuzzyMatching
                  projectRoot cacheFilePath now c U))))
  = None.
Proof.
  intros He Hne. unfold Utils.getSecureTokenPathWithCacheAndFuzzyMatching,
    cache_hit, UserHashCache.getTokenFilename. rewrite He. simpl.
  destruct (String.eqb_spec (UserHashCache.actualTokenFilename e) "")
    as [Heq|_]; [contradiction|]. simpl.
  unfold existing.
  destruct (existsSync _ (UserHashCache.actualTokenFilename e));
    [discriminate|]. intros _. simpl.
  unfold UserHashCache.removeEntry.
  rewrite saveCache_cache. simpl. rewrite assoc_set_prop_eq. simpl.
  rewrite saveCache_cache. simpl. apply assoc_delete_prop.
Qed.

End ResolutionFacts.

(** C3, as amended.  [loadUserCredentials] of the Gmail server resolves
    the credential file in the order (a) exact path, (b) its [.save]
    variant, (d) fuzzy scan, without a lookup cache, and returns null
    when the three fail.  The calendar server resolves in the order (c)
    mapping of the lookup cache, provided its file exists, (a) exact
    path, (d) fuzzy scan, without a [.save] step; when the three fail
    it returns the exact path, where no file exists; a mapping whose
    file is missing is removed from the cache. *)
Theorem load_resolution_order :
  forall (CONFIG_DIR projectRoot cacheFilePath : string) (now : Z)
         (d : Fs.disk) (c : UserHashCache.t) (U : string),
    UserManager.finalCredPath CONFIG_DIR d U
    = Spec.first_of
        [ Spec.existing d (UserManager.getCredentialsPath CONFIG_DIR U);
          Spec.existing d
            (UserManager.getCredentialsPath CONFIG_DIR U ++ ".save");
          TokenFiles.findCaseInsensitiveTokenFile CONFIG_DIR d U ]
    /\ (UserManager.finalCredPath CONFIG_DIR d U = None ->
        UserManager.loadUserCredentials CONFIG_DIR d U = JS.JNull)
    /\ (let out :=
          Utils.getSecureTokenPathWithCacheAndFuzzyMatching
            projectRoot cacheFilePath now c U in
        let d' := UserHashCache.on_disk (snd out) in
        fst out
        = match Spec.first_of
                  [ Spec.cache_hit cacheFilePath now c U;
                    Spec.existing d'
                      (Utils.getSecureTokenPathWithUserHash projectRoot U);
                    TokenFiles.findCaseInsensitiveTokenFile
                      projectRoot d' U ] with
          | Some p => p
          | None => Utils.getSecureTokenPathWithUserHash projectRoot U
          end)
    /\ (forall e,
          JS.assoc U (UserHashCache.entries (UserHashCache.cache c))
          = Some e ->
          UserHashCache.actualTokenFilename e <> "" ->
          Spec.cache_hit cacheFilePath now c U = None ->
          JS.assoc U
            (UserHashCache.entries
               (UserHashCache.cache
                  (snd (Utils.getSecureTokenPathWithCacheAndFuzzyMatching
                          projectRoot cacheFilePath now c U))))
          = None).
Proof.
  intros CONFIG_DIR projectRoot cacheFilePath now d c U.
  split; [apply finalCredPath_order|].
  split; [apply loadUserCredentials_not_found|].
  split; [apply cacheAndFuzzy_order|].
  intros e. apply cacheAndFuzzy_purges.
Qed.

Lemma load_resolution_order_witness :
  UserManager.loadUserCredentials "/srv/tokens" Examples.one_user_disk
    "zzzzzz" = JS.JNull.
Proof.
  apply (proj1 (proj2 (load_resolution_order
                         "/srv/tokens" "/srv/calendar"
                         "/srv/calendar/.userhash-cache.json" 0
                         Examples.one_user_disk
                         Examples.cache_to_older_record "zzzzzz"))).
  reflexivity.
Defined.

(** C3, as stated, fails: with the exact file of abcdef123456 on disk
    and the lookup cache mapping abcdef123456 to another existing file,
    the order of the specification yields the exact path, and the
    calendar server yields the mapped file. *)
Lemma cache_mapping_precedes_exact_path :
  Spec.load_path "/srv/calendar" Examples.cache_to_older_record
    "abcdef123456"
  = Some "/srv/calendar/.abcdef123456-gcp-saved-tokens.json"
  /\ fst (Utils.getSecureTokenPathWithCacheAndFuzzyMatching
            "/srv/calendar" "/srv/calendar/.userhash-cache.json"
            1700000000000 Examples.cache_to_older_record "abcdef123456")
     = "/srv/calendar/.abcdef12-gcp-saved-tokens.json".
Proof. vm_compute. split; reflexivity. Qed.

(** * Properties of the callback handler of [authenticateUser] *)

Section StateValidationFacts.
Import JS UserManager Spec.

(** A state parameter that is not empty is accepted only if it parses
    to a document whose [userID] is the identity of the flow. *)
Lemma state_accepted_false (U : string) (st : text) :
  truthy_text st = true ->
  state_unparsable st \/ state_identity_differs U st ->
  state_accepted U (Some st) = false.
Proof.
  intros Htruthy H. unfold state_accepted. rewrite Htruthy.
  destruct H as [Hnone | [j [Hj Hdiff]]].
  - unfold state_unparsable in Hnone. now rewrite Hnone.
  - rewrite Hj. destruct j as [| | | | |fields]; try reflexivity.
    simpl in *. destruct (assoc "userID" fields) as [[| | |u| |]|];
      try reflexivity.
    destruct (String.eqb_spec u U) as [->|_]; [|reflexivity].
    now contradiction Hdiff.
Qed.

Lemma state_accepted_true (U : string) (st : text) :
  truthy_text st = true ->
  state_accepted U (Some st) = true ->
  exists j, JSON_parse st = Some j /\ prop "userID" j = Some (JStr U).
Proof.
  intros Htruthy. unfold state_accepted. rewrite Htruthy.
  destruct (JSON_parse st) as [j|]; [|discriminate].
  destruct j as [| | | | |fields]; try discriminate. simpl.
  destruct (assoc "userID" fields) as [[| | |u| |]|] eqn:Hu;
    try discriminate.
  intros Heq. apply String.eqb_eq in Heq. subst u.
  exists (JObj fields). split; [reflexivity | exact Hu].
Qed.

End StateValidationFacts.

Section CallbackFacts.
Import JS Fs UserManager Spec.

Lemma state_names_doc (V : string) (st : text) :
  state_names V st ->
  exists fields,
    st = Doc (JObj fields) /\ assoc "userID" fields = Some (JStr V).
Proof.
  intros [j [Hj Hu]]. destruct st as [raw|j']; [discriminate|].
  injection Hj as ->. destruct j as [| | | | |fields]; try discriminate.
  now exists fields.
Qed.

(** The handler of [authenticateUser] does not look at a state that is
    absent or empty. *)
Lemma state_accepted_unvalidated (U : string) (st : option text) :
  st = None \/ (exists t, st = Some t /\ truthy_text t = false) ->
  state_accepted U st = true.
Proof.
  intros [-> | [t [-> Ht]]]; [reflexivity|].
  unfold state_accepted. now rewrite Ht.
Qed.

Lemma state_accepted_own (U : string) :
  state_accepted U (Some (Doc (JObj [ ("userID", JStr U) ]))) = true.
Proof. cbn. now rewrite String.eqb_refl. Qed.

End CallbackFacts.

(** C1, as amended.  What each handler of OAuth callbacks does with the
    state parameter.

    The handler [authenticateUser] installs for the flow of [U]
    validates a state that is present and not empty: when it is
    unparsable or carries a [userID] other than [U], the callback is
    rejected with status 400, the code is not sent to the provider, the
    disk is left as it was, the auth server of [U] is cleaned up and
    the pending promise rejected, and for a callback with a code and no
    error the reply is the Invalid State Parameter page.  A state that
    is absent or empty is not validated: the callback is handled like
    one whose state names [U].

    The shared callback server knows no identity of a flow.  It answers
    400 to a state that is unparsable, exchanging and writing nothing;
    a state that names an identity [V] makes it exchange the code and
    save the tokens under [V], whatever authentications are pending
    (for a callback with a code and no error, when the keys are loaded,
    the provider answers with tokens and they can be saved).

    The auth server of the calendar handles a state that is absent or
    unparsable like one that names its own identity.  On a state that
    names an identity [V], which is not the name of a member inherited
    from [Object.prototype], it exchanges the code, writes the tokens
    to its own token path and maps [V] to that path in the lookup cache
    (for a callback with a code and no error, when the flow client is
    set, the provider answers with tokens whose expiry date its log can
    print, and the disk can be written). *)
Theorem oauth_callback_state_handling :
  (forall (CONFIG_DIR : string)
          (getToken : string -> option (list (string * JS.value)))
          (U : string) (w : UserManager.world) (req : UserManager.request)
          (st : JS.text),
      UserManager.on_callback_path req = true ->
      UserManager.state req = Some st ->
      JS.truthy_text st = true ->
      Spec.state_unparsable st \/ Spec.state_identity_differs U st ->
      let o := UserManager.handle_callback CONFIG_DIR getToken U w req in
      UserManager.status (UserManager.resp o) = 400
      /\ UserManager.exchanged o = None
      /\ UserManager.disk_of (UserManager.after o) = UserManager.disk_of w
      /\ UserManager.rejected o = true
      /\ UserManager.authServers (UserManager.after o)
         = UserManager.authServers w ∖ {[ U ]}
      /\ (JS.truthy_str (UserManager.error req) = false ->
          JS.truthy_str (UserManager.code req) = true ->
          UserManager.body (UserManager.resp o)
          = UserManager.InvalidStateParameterPage))
  /\ (forall (CONFIG_DIR : string)
             (getToken : string -> option (list (string * JS.value)))
             (U : string) (w : UserManager.world)
             (req : UserManager.request),
      UserManager.state req = None
      \/ (exists st, UserManager.state req = Some st
                     /\ JS.truthy_text st = false) ->
      UserManager.handle_callback CONFIG_DIR getToken U w req
      = UserManager.handle_callback CONFIG_DIR getToken U w
          {| UserManager.on_callback_path := UserManager.on_callback_path req;
             UserManager.code := UserManager.code req;
             UserManager.error := UserManager.error req;
             UserManager.state :=
               Some (JS.Doc (JS.JObj [ ("userID", JS.JStr U) ])) |})
  /\ (forall (CONFIG_DIR : string) (template : JS.json -> string)
             (globalOAuthKeys : bool)
             (getToken : string -> option (list (string * JS.value)))
             (d : Fs.disk) (pending : gset string)
             (req : UserManager.request) (st : JS.text),
      UserManager.on_callback_path req = true ->
      UserManager.state req = Some st ->
      let out := GmailUsers.shared_callback CONFIG_DIR template
                   globalOAuthKeys getToken d pending req in
      (Spec.state_unparsable st ->
       GmailUsers.shared_status out = 400
       /\ GmailUsers.shared_exchanged out = None
       /\ GmailUsers.shared_disk out = d
       /\ GmailUsers.shared_pending out = pending)
      /\ (forall (V c : string) (tokens : list (string * JS.value))
                 (d' : Fs.disk),
            Spec.state_names V st ->
            V <> "" ->
            JS.truthy_str (UserManager.error req) = false ->
            UserManager.code req = Some c ->
            c <> "" ->
            globalOAuthKeys = true ->
            getToken c = Some tokens ->
            UserManager.saveUserCredentials CONFIG_DIR d V tokens
            = Some d' ->
            GmailUsers.shared_status out = 200
            /\ GmailUsers.shared_exchanged out = Some c
            /\ GmailUsers.shared_disk out = d'
            /\ GmailUsers.shared_pending out = pending ∖ {[ V ]}))
  /\ (forall (cacheFilePath : string)
             (getToken : string -> option TokenManager.Credentials)
             (now : Z) (srv : AuthServer.t) (c : UserHashCache.t)
             (code error : option string) (state : option JS.text),
      state = None
      \/ (exists st, state = Some st /\ Spec.state_unparsable st) ->
      AuthServer.oauth2callback cacheFilePath getToken now srv c code error
        state
      = AuthServer.oauth2callback cacheFilePath getToken now srv c code
          error
          (Some (JS.Doc (JS.JObj [ ("userID",
                                    JS.JStr (AuthServer.userID srv)) ]))))
  /\ (forall (cacheFilePath : string)
             (getToken : string -> option TokenManager.Credentials)
             (now later : Z) (srv : AuthServer.t) (c : UserHashCache.t)
             (code : string) (st : JS.text)
             (tokens : TokenManager.Credentials) (V : string),
      Spec.state_names V st ->
      V <> "" ->
      Props.inherited_name V = false ->
      code <> "" ->
      AuthServer.flowOAuth2Client srv = true ->
      getToken code = Some tokens ->
      TokenManager.expiry_date_is_logged tokens = true ->
      Fs.writable (UserHashCache.on_disk c) = true ->
      Fs.dir_exists (UserHashCache.on_disk c) = true ->
      TokenManager.tokenPath (AuthServer.tokenManager srv) <> "" ->
      TokenManager.tokenPath (AuthServer.tokenManager srv)
      <> cacheFilePath ->
      exists out,
        AuthServer.oauth2callback cacheFilePath getToken now srv c
          (Some code) None (Some st) = Some out
        /\ AuthServer.page out = AuthServer.SuccessPage (Some V)
        /\ AuthServer.exchanged out = Some code
        /\ Fs.readFileSync (UserHashCache.on_disk (AuthServer.cache out))
             (TokenManager.tokenPath (AuthServer.tokenManager srv))
           = Some (JS.Doc (JS.JObj (TokenManager.stringify_fields tokens)))
        /\ fst (UserHashCache.getTokenFilename cacheFilePath later
                  (AuthServer.cache out) V)
           = Some (TokenManager.tokenPath (AuthServer.tokenManager srv))).
Proof.
  split; [|split; [|split; [|split]]].
  - intros CONFIG_DIR getToken U w req st Hpath Hst Htruthy Hbad o.
    subst o. unfold UserManager.handle_callback.
    rewrite Hpath, Hst, (state_accepted_false U st Htruthy Hbad). simpl.
    destruct (JS.truthy_str (UserManager.error req)); simpl.
    + repeat split; intros; discriminate.
    + destruct (JS.truthy_str (UserManager.code req)); simpl.
      * repeat split.
      * repeat split; intros; discriminate.
  - intros CONFIG_DIR getToken U w req Hstate.
    unfold UserManager.handle_callback. cbn [UserManager.on_callback_path
      UserManager.code UserManager.error UserManager.state].
    now rewrite (state_accepted_unvalidated U _ Hstate), state_accepted_own.
  - intros CONFIG_DIR template globalOAuthKeys getToken d pending req st
      Hpath Hst out. subst out. unfold GmailUsers.shared_callback.
    rewrite Hpath, Hst. cbn [negb]. split.
    + intros Hbad. unfold Spec.state_unparsable in Hbad.
      destruct (JS.truthy_str (UserManager.error req)); [now repeat split|].
      destruct (negb (JS.truthy_str (UserManager.code req))
                || negb (JS.truthy_text st)); [now repeat split|].
      rewrite Hbad. now repeat split.
    + intros V c tokens d' Hnames HV Herr Hcode Hc -> Htok Hsave.
      destruct (state_names_doc V st Hnames) as [fields [-> Hu]].
      rewrite Herr, Hcode. cbn [JS.truthy_str JS.truthy_text].
      apply String.eqb_neq in Hc. rewrite Hc. cbn [negb orb].
      cbn [JS.JSON_parse JS.prop]. rewrite Hu.
      cbn [JS.truthy_json]. apply String.eqb_neq in HV. rewrite HV.
      cbn [negb GmailUsers.identity_string]. rewrite Htok, Hsave.
      now repeat split.
  - intros cacheFilePath getToken now srv c code error state Hstate.
    unfold AuthServer.oauth2callback.
    assert (Hid : AuthServer.userID_of_state srv state
                  = Some (JS.JStr (AuthServer.userID srv))).
    { destruct Hstate as [-> | [st [-> Hbad]]]; [reflexivity|].
      unfold Spec.state_unparsable in Hbad. cbn. now rewrite Hbad. }
    now rewrite Hid.
  - intros cacheFilePath getToken now later srv c code st tokens V
      Hnames HV _ Hcode Hflow Htok _ Hw Hd Hpath Hne.
    destruct (state_names_doc V st Hnames) as [fields [-> Hu]].
    unfold AuthServer.oauth2callback. cbn [JS.truthy_str].
    apply String.eqb_neq in Hcode. rewrite Hcode. cbn [negb].
    rewrite Hflow. cbn [negb]. rewrite Htok.
    cbn [AuthServer.userID_of_state JS.JSON_parse JS.prop]. rewrite Hu.
    cbn [AuthServer.cache_identity].
    unfold TokenManager.saveTokens, TokenManager.ensureTokenDirectoryExists,
      TokenManager.writeFile, Fs.mkdirSync, Fs.writeFileSync.
    rewrite Hd. cbn [Exn.bind]. rewrite Hw, Hd.
    cbn [andb Exn.bind JS.truthy_str].
    apply String.eqb_neq in HV. rewrite HV.
    apply String.eqb_neq in Hpath. rewrite Hpath. cbn [negb andb].
    eexists. split; [reflexivity|]. cbn.
    split; [reflexivity|]. split; [reflexivity|]. split.
    + rewrite assoc_put_ne by exact Hne. apply assoc_put_eq.
    + unfold UserHashCache.getTokenFilename.
      cbn [UserHashCache.cache UserHashCache.entries].
      now rewrite assoc_set_prop_eq.
Qed.

Lemma oauth_callback_state_handling_witness :
  UserManager.resp
    (UserManager.handle_callback "/srv/tokens" Examples.provider_tokens
       "ffff0000aaaa" Examples.one_flow MoreExamples.callback_for_abcdef)
  = {| UserManager.status := 400;
       UserManager.body := UserManager.InvalidStateParameterPage |}
  /\ UserManager.handle_callback "/srv/tokens" Examples.provider_tokens
       "ffff0000aaaa" Examples.one_flow Examples.callback_with_empty_state
     = UserManager.handle_callback "/srv/tokens" Examples.provider_tokens
         "ffff0000aaaa" Examples.one_flow
         {| UserManager.on_callback_path := true;
            UserManager.code := Some "4/0AeaYSHB";
            UserManager.error := None;
            UserManager.state :=
              Some (JS.Doc (JS.JObj [ ("userID", JS.JStr "ffff0000aaaa") ])) |}
  /\ GmailUsers.shared_status
       (GmailUsers.shared_callback "/srv/tokens" MoreExamples.no_template
          true Examples.provider_tokens MoreExamples.keys_only_disk
          {[ "ffff0000aaaa" ]} MoreExamples.callback_for_abcdef) = 200
  /\ AuthServer.oauth2callback "/srv/calendar/.user-hash-cache.json"
       MoreExamples.calendar_provider 1700000000000
       MoreExamples.auth_server_of_abcdef Examples.cache_of_abcdef
       (Some "4/0AeaYSHB") None (Some (JS.Garbage "{userID"))
     = AuthServer.oauth2callback "/srv/calendar/.user-hash-cache.json"
         MoreExamples.calendar_provider 1700000000000
         MoreExamples.auth_server_of_abcdef Examples.cache_of_abcdef
         (Some "4/0AeaYSHB") None (Some Examples.state_of_abcdef)
  /\ (exists out,
        AuthServer.oauth2callback "/srv/calendar/.user-hash-cache.json"
          MoreExamples.calendar_provider 1700000000000
          MoreExamples.auth_server_of_abcdef Examples.cache_of_abcdef
          (Some "4/0AeaYSHB") None (Some MoreExamples.state_of_ffff)
        = Some out
        /\ AuthServer.page out = AuthServer.SuccessPage (Some "ffff0000aaaa")
        /\ fst (UserHashCache.getTokenFilename
                  "/srv/calendar/.user-hash-cache.json" 1700000000001
                  (AuthServer.cache out) "ffff0000aaaa")
           = Some "/srv/calendar/.abcdef123456-gcp-saved-tokens.json").
Proof.
  destruct oauth_callback_state_handling
    as [Hauth [Hempty [Hshared [Hfallback Hforeign]]]].
  split; [|split; [|split; [|split]]].
  - assert (Spec.state_unparsable Examples.state_of_abcdef
            \/ Spec.state_identity_differs "ffff0000aaaa"
                 Examples.state_of_abcdef) as Hbad.
    { right. exists (JS.JObj [ ("userID", JS.JStr "abcdef123456") ]).
      split; [reflexivity | discriminate]. }
    destruct (Hauth "/srv/tokens" Examples.provider_tokens "ffff0000aaaa"
                Examples.one_flow MoreExamples.callback_for_abcdef
                Examples.state_of_abcdef eq_refl eq_refl eq_refl Hbad)
      as [Hstatus [_ [_ [_ [_ Hbody]]]]].
    specialize (Hbody eq_refl eq_refl).
    destruct (UserManager.resp _) as [status body].
    simpl in Hstatus, Hbody. now subst.
  - apply (Hempty "/srv/tokens" Examples.provider_tokens "ffff0000aaaa"
             Examples.one_flow Examples.callback_with_empty_state).
    right. exists (JS.Garbage ""). now split.
  - destruct (Hshared "/srv/tokens" MoreExamples.no_template true
                Examples.provider_tokens MoreExamples.keys_only_disk
                {[ "ffff0000aaaa" ]} MoreExamples.callback_for_abcdef
                Examples.state_of_abcdef eq_refl eq_refl) as [_ Hnamed].
    assert (Hsave : exists d',
               UserManager.saveUserCredentials "/srv/tokens"
                 MoreExamples.keys_only_disk "abcdef123456"
                 Examples.tokens_with_null = Some d').
    { eexists. reflexivity. }
    destruct Hsave as [d' Hsave].
    assert (Hnames : Spec.state_names "abcdef123456"
                       Examples.state_of_abcdef).
    { exists (JS.JObj [ ("userID", JS.JStr "abcdef123456") ]). now split. }
    assert (Hid : "abcdef123456" <> "") by discriminate.
    assert (Hcode : "4/0AeaYSHB" <> "") by discriminate.
    exact (proj1 (Hnamed "abcdef123456" "4/0AeaYSHB"
                    Examples.tokens_with_null d' Hnames Hid eq_refl eq_refl
                    Hcode eq_refl eq_refl Hsave)).
  - apply (Hfallback "/srv/calendar/.user-hash-cache.json"
             MoreExamples.calendar_provider 1700000000000
             MoreExamples.auth_server_of_abcdef Examples.cache_of_abcdef
             (Some "4/0AeaYSHB") None (Some (JS.Garbage "{userID"))).
    right. exists (JS.Garbage "{userID"). now split.
  - destruct (Hforeign "/srv/calendar/.user-hash-cache.json"
                MoreExamples.calendar_provider 1700000000000 1700000000001
                MoreExamples.auth_server_of_abcdef Examples.cache_of_abcdef
                "4/0AeaYSHB" MoreExamples.state_of_ffff
                [ ("access_token", Some (JS.JStr "ya29.new"));
                  ("refresh_token", Some (JS.JStr "1//0g"));
                  ("expiry_date", Some (JS.JNum 1700003600000)) ]
                "ffff0000aaaa")
      as [out [H1 [H2 [_ [_ H5]]]]].
    + exists (JS.JObj [ ("userID", JS.JStr "ffff0000aaaa") ]). now split.
    + discriminate.
    + reflexivity.
    + discriminate.
    + reflexivity.
    + reflexivity.
    + reflexivity.
    + reflexivity.
    + reflexivity.
    + discriminate.
    + discriminate.
    + exists out. split; [exact H1|]. split; [exact H2 | exact H5].
Defined.

(** C1, as stated, fails on the handlers that serve callbacks.  The
    auth server of the calendar, started for abcdef123456, receives a
    callback whose state does not parse: it falls back to its own
    identity, sends the code to the provider and answers with the
    success page.  It receives a callback whose state names
    ffff0000aaaa: it sends the code to the provider, answers with the
    success page and maps ffff0000aaaa to the token file of
    abcdef123456.  The shared callback server of the Gmail server, with
    the authentication of abcdef123456 pending, receives a callback
    whose state names ffff0000aaaa: it sends the code to the provider,
    answers 200 and stores the tokens as the record of
    ffff0000aaaa. *)
Lemma oauth_callback_accepts_foreign_state :
  let callback :=
    AuthServer.oauth2callback "/srv/calendar/.user-hash-cache.json"
      MoreExamples.calendar_provider 1700000000000
      MoreExamples.auth_server_of_abcdef Examples.cache_of_abcdef
      (Some "4/0AeaYSHB") None in
  let shared :=
    GmailUsers.shared_callback "/srv/tokens" MoreExamples.no_template true
      Examples.provider_tokens Examples.one_user_disk {[ "abcdef123456" ]}
      {| UserManager.on_callback_path := true;
         UserManager.code := Some "4/0AeaYSHB";
         UserManager.error := None;
         UserManager.state := Some MoreExamples.state_of_ffff |} in
  AuthServer.userID MoreExamples.auth_server_of_abcdef = "abcdef123456"
  /\ Spec.state_unparsable (JS.Garbage "{userID")
  /\ (exists out,
        callback (Some (JS.Garbage "{userID")) = Some out
        /\ AuthServer.page out = AuthServer.SuccessPage (Some "abcdef123456")
        /\ AuthServer.exchanged out = Some "4/0AeaYSHB")
  /\ Spec.state_identity_differs "abcdef123456" MoreExamples.state_of_ffff
  /\ (exists out,
        callback (Some MoreExamples.state_of_ffff) = Some out
        /\ AuthServer.page out = AuthServer.SuccessPage (Some "ffff0000aaaa")
        /\ AuthServer.exchanged out = Some "4/0AeaYSHB"
        /\ fst (UserHashCache.getTokenFilename
                  "/srv/calendar/.user-hash-cache.json" 1700000000001
                  (AuthServer.cache out) "ffff0000aaaa")
           = Some "/srv/calendar/.abcdef123456-gcp-saved-tokens.json")
  /\ GmailUsers.shared_status shared = 200
  /\ GmailUsers.shared_exchanged shared = Some "4/0AeaYSHB"
  /\ Fs.existsSync Examples.one_user_disk
       (UserManager.getCredentialsPath "/srv/tokens" "ffff0000aaaa") = false
  /\ UserManager.loadUserCredentials "/srv/tokens"
       (GmailUsers.shared_disk shared) "ffff0000aaaa"
     = JS.JObj [ ("access_token", JS.JStr "ya29.a0");
                 ("refresh_token", JS.JStr "1//0g");
                 ("expiry_date", JS.JNum 1700003600000) ].
Proof.
  cbv zeta.
  split; [reflexivity|]. split; [reflexivity|]. split.
  { eexists. split; [reflexivity|]. split; reflexivity. }
  split.
  { exists (JS.JObj [ ("userID", JS.JStr "ffff0000aaaa") ]).
    split; [reflexivity | discriminate]. }
  split.
  { eexists. split; [reflexivity|]. repeat split. }
  repeat split.
Qed.

(** * Further properties of the lookup cache *)

Section CacheFacts.
Import JS Fs Exn UserHashCache CacheMaintenance Props.

Lemma assoc_set_prop_ne {A : Type} (k k' : string) (v : A)
  (l : list (string * A)) :
  k' <> k -> assoc k' (set_prop k v l) = assoc k' l.
Proof.
  intros Hne. induction l as [|[k0 v0] l IH]; simpl.
  - now apply String.eqb_neq in Hne as ->.
  - destruct (String.eqb_spec k k0) as [->|Hk]; simpl.
    + now apply String.eqb_neq in Hne as ->.
    + now rewrite IH.
Qed.

Lemma assoc_delete_prop_ne {A : Type} (k k' : string)
  (l : list (string * A)) :
  k' <> k -> assoc k' (delete_prop k l) = assoc k' l.
Proof.
  intros Hne. induction l as [|[k0 v0] l IH]; simpl; [reflexivity|].
  destruct (String.eqb_spec k k0) as [->|Hk]; simpl.
  - rewrite IH. now apply String.eqb_neq in Hne as ->.
  - now rewrite IH.
Qed.


Lemma delete_prop_filter {A : Type} (k : string) (l : list (string * A)) :
  delete_prop k l
  = List.filter (fun kv => negb (String.eqb k (fst kv))) l.
Proof.
  induction l as [|[k0 v0] l IH]; simpl; [reflexivity|].
  destruct (String.eqb k k0); simpl; now rewrite IH.
Qed.

(** Deleting the keys [ks] one after the other. *)
Lemma fold_delete_filter {A : Type} (ks : list string)
  (l : list (string * A)) :
  fold_left (fun es k => delete_prop k es) ks l
  = List.filter (fun kv => negb (existsb (String.eqb (fst kv)) ks)) l.
Proof.
  revert l. induction ks as [|k ks IH]; intros l; simpl.
  - induction l as [|x l IHl]; simpl; [reflexivity | now rewrite <- IHl].
  - rewrite IH, delete_prop_filter. clear IH.
    induction l as [|[k0 v0] l IHl]; simpl; [reflexivity|].
    rewrite (String.eqb_sym k0 k).
    destruct (String.eqb k k0); simpl; [exact IHl|].
    destruct (existsb _ ks); simpl; now rewrite IHl.
Qed.

Lemma cleanup_loop_spec (cutoffTime : Z)
  (snapshot es : list (string * CacheEntry)) (n : Z) :
  cleanup_loop cutoffTime snapshot es n
  = (fold_left (fun es k => delete_prop k es)
       (List.map fst (List.filter (stale cutoffTime) snapshot)) es,
     n + Z.of_nat (List.length (List.filter (stale cutoffTime) snapshot))).
Proof.
  revert es n. induction snapshot as [|[k e] snapshot IH]; intros es n.
  - simpl. f_equal. lia.
  - cbn [cleanup_loop List.filter].
    change (stale cutoffTime (k, e)) with (lastAccessed e <? cutoffTime).
    destruct (lastAccessed e <? cutoffTime); rewrite IH.
    + cbn [List.map fold_left fst List.length]. f_equal. lia.
    + reflexivity.
Qed.

(** With distinct keys, the key of an entry is among the keys selected
    by [f] exactly when [f] selects the entry. *)
Lemma selected_key {A : Type} (f : string * A -> bool)
  (l : list (string * A)) (k : string) (v : A) :
  List.NoDup (List.map fst l) -> In (k, v) l ->
  existsb (String.eqb k) (List.map fst (List.filter f l)) = f (k, v).
Proof.
  intros Hnd Hin. destruct (f (k, v)) eqn:Hf.
  - apply existsb_exists. exists k. split; [|apply String.eqb_refl].
    apply in_map_iff. exists (k, v). split; [reflexivity|].
    apply filter_In. now split.
  - destruct (existsb _ _) eqn:Hex; [|reflexivity]. exfalso.
    apply existsb_exists in Hex as [k' [Hk' Heq]].
    apply String.eqb_eq in Heq. subst k'.
    apply in_map_iff in Hk' as [[k1 v1] [Hk1 Hin1]]. simpl in Hk1. subst k1.
    apply filter_In in Hin1 as [Hin1 Hf1].
    assert (v1 = v) as ->; [|congruence].
    clear Hf Hf1 f. induction l as [|[k0 v0] l IHl]; [contradiction|].
    simpl in Hnd. apply List.NoDup_cons_iff in Hnd as [Hnotin Hnd].
    destruct Hin as [Heq|Hin], Hin1 as [Heq1|Hin1].
    + congruence.
    + injection Heq as -> ->. exfalso. apply Hnotin.
      apply in_map_iff. now exists (k, v1).
    + injection Heq1 as -> ->. exfalso. apply Hnotin.
      apply in_map_iff. now exists (k, v).
    + now apply IHl.
Qed.

Lemma filter_selected_keys {A : Type} (f : string * A -> bool)
  (l : list (string * A)) :
  List.NoDup (List.map fst l) ->
  List.filter
    (fun kv => negb (existsb (String.eqb (fst kv))
                       (List.map fst (List.filter f l)))) l
  = List.filter (fun kv => negb (f kv)) l.
Proof.
  intros Hnd. apply filter_ext_in. intros [k v] Hin. cbn [fst].
  now rewrite (selected_key f l k v Hnd Hin).
Qed.

Lemma filter_length_split {A : Type} (f : A -> bool) (l : list A) :
  (List.length (List.filter f l)
   + List.length (List.filter (fun x => negb (f x)) l))%nat
  = List.length l.
Proof.
  induction l as [|x l IH]; simpl; [reflexivity|].
  destruct (f x); simpl; lia.
Qed.

Lemma validate_loop_spec (d : disk) (snapshot : list (string * CacheEntry))
  (v i : Z) (ks : list string) :
  validate_loop d snapshot v i ks
  = (v + Z.of_nat (List.length (List.filter (backed d) snapshot)),
     i + Z.of_nat (List.length
                     (List.filter (fun kv => negb (backed d kv)) snapshot)),
     (ks ++ List.map fst
              (List.filter (fun kv => negb (backed d kv)) snapshot))%list).
Proof.
  revert v i ks. induction snapshot as [|[k e] snapshot IH]; intros v i ks.
  - simpl. rewrite app_nil_r. f_equal. f_equal; lia.
  - cbn [validate_loop List.filter].
    change (backed d (k, e)) with (existsSync d (actualTokenFilename e)).
    destruct (existsSync d (actualTokenFilename e)); rewrite IH; cbn [negb].
    + cbn [List.length]. f_equal. f_equal. lia.
    + cbn [List.length List.map fst]. rewrite <- app_assoc.
      f_equal. f_equal. lia.
Qed.

Lemma remove_loop_spec (ks : list string) (es : list (string * CacheEntry))
  (n : Z) :
  remove_loop ks es n
  = (fold_left (fun es k => delete_prop k es) ks es,
     n + Z.of_nat (List.length ks)).
Proof.
  revert es n. induction ks as [|k ks IH]; intros es n.
  - simpl. f_equal. lia.
  - cbn [remove_loop fold_left List.length]. rewrite IH. f_equal. lia.
Qed.

(** Writing a file keeps every file there was. *)
Lemma saveCache_keeps_files (cacheFilePath p : string) (c : t) :
  existsSync (on_disk c) p = true ->
  existsSync (on_disk (saveCache cacheFilePath c)) p = true.
Proof.
  intros Hex. destruct (saveCache_disk cacheFilePath c) as [->|[content Hw]];
    [assumption|].
  destruct (String.eqb_spec p cacheFilePath) as [->|Hne];
    [|unfold existsSync in *].
  - now destruct (writeFileSync_read _ _ _ _ Hw) as [_ H].
  - pose proof (writeFileSync_other _ _ cacheFilePath p content Hw Hne) as H.
    unfold readFileSync in H. now rewrite H.
Qed.

Lemma filter_all_kept {A : Type} (f : A -> bool) (l : list A) :
  List.filter (fun x => negb (f x)) l = [] -> List.filter f l = l.
Proof.
  induction l as [|x l IH]; simpl; [reflexivity|].
  destruct (f x); simpl; [|discriminate].
  intros H. f_equal. now apply IH.
Qed.

(** What [cleanup] returns and leaves, for distinct keys. *)
Lemma cleanup_spec (cacheFilePath : string) (now maxAgeMs : Z) (c : t) :
  List.NoDup (List.map fst (entries (cache c))) ->
  fst (cleanup cacheFilePath now maxAgeMs c)
  = Z.of_nat (List.length
                (List.filter (stale (now - maxAgeMs)) (entries (cache c))))
  /\ entries (cache (snd (cleanup cacheFilePath now maxAgeMs c)))
     = List.filter (fun kv => negb (stale (now - maxAgeMs) kv))
         (entries (cache c)).
Proof.
  intros Hnd. unfold cleanup. rewrite cleanup_loop_spec.
  rewrite fold_delete_filter, (filter_selected_keys _ _ Hnd), Z.add_0_l.
  destruct (0 <? Z.of_nat (List.length
                             (List.filter (stale (now - maxAgeMs))
                                (entries (cache c))))) eqn:Hpos;
    cbn [fst snd].
  - split; [reflexivity|]. now rewrite saveCache_cache.
  - split; [reflexivity|]. apply Z.ltb_ge in Hpos. symmetry.
    apply filter_all_kept.
    assert (Hf : List.filter
                   (fun kv => negb (negb (stale (now - maxAgeMs) kv)))
                   (entries (cache c))
                 = List.filter (stale (now - maxAgeMs)) (entries (cache c))).
    { apply filter_ext. intros kv. now destruct (stale _ kv). }
    rewrite Hf. destruct (List.filter _ (entries (cache c)));
      [reflexivity | simpl in Hpos; lia].
Qed.

Lemma removeEntry_drops (cacheFilePath : string) (c : t)
  (original : string) :
  assoc original
    (entries (cache (snd (removeEntry cacheFilePath c original)))) = None.
Proof.
  unfold removeEntry.
  destruct (assoc original (entries (cache c))) as [e|] eqn:He; simpl;
    [|exact He].
  rewrite saveCache_cache. simpl. apply assoc_delete_prop.
Qed.

End CacheFacts.

(** X1.  [addEntry] is an upsert that a later lookup sees.  For an
    identity that is not the name of a member inherited from
    [Object.prototype]: after [addEntry(original, actual)], whether or
    not the cache file could be written, [getTokenFilename(original)]
    returns [actual] and [hasEntry(original)] holds; the entry is
    stamped with the time of the call and keeps the creation time of
    the entry it replaces; the entries of the other identities are as
    they were. *)
Theorem addEntry_then_getTokenFilename
  (cacheFilePath : string) (now later : Z) (c : UserHashCache.t)
  (original actual : string) :
  Props.inherited_name original = false ->
  let c' := UserHashCache.addEntry cacheFilePath now c original actual in
  fst (UserHashCache.getTokenFilename cacheFilePath later c' original)
  = Some actual
  /\ UserHashCache.hasEntry c' original = true
  /\ (exists e,
        JS.assoc original (UserHashCache.entries (UserHashCache.cache c'))
        = Some e
        /\ UserHashCache.lastAccessed e = now
        /\ forall e0,
             JS.assoc original
               (UserHashCache.entries (UserHashCache.cache c)) = Some e0 ->
             UserHashCache.createdAt e0 <> 0 ->
             UserHashCache.createdAt e = UserHashCache.createdAt e0)
  /\ forall other, other <> original ->
       JS.assoc other (UserHashCache.entries (UserHashCache.cache c'))
       = JS.assoc other (UserHashCache.entries (UserHashCache.cache c)).
Proof.
  intros _ c'.
  assert (Hent : UserHashCache.entries (UserHashCache.cache c')
                 = JS.set_prop original
                     {| UserHashCache.originalUserHashID := original;
                        UserHashCache.actualTokenFilename := actual;
                        UserHashCache.createdAt :=
                          match JS.assoc original
                                  (UserHashCache.entries
                                     (UserHashCache.cache c)) with
                          | Some e =>
                              if UserHashCache.createdAt e =? 0 then now
                              else UserHashCache.createdAt e
                          | None => now
                          end;
                        UserHashCache.lastAccessed := now |}
                     (UserHashCache.entries (UserHashCache.cache c))).
  { unfold c', UserHashCache.addEntry. now rewrite saveCache_cache. }
  split; [|split; [|split]].
  - unfold UserHashCache.getTokenFilename.
    now rewrite Hent, assoc_set_prop_eq.
  - unfold UserHashCache.hasEntry. now rewrite Hent, assoc_set_prop_eq.
  - eexists. rewrite Hent, assoc_set_prop_eq. split; [reflexivity|].
    split; [reflexivity|]. intros e0 He0 Hne. cbn. rewrite He0.
    now apply Z.eqb_neq in Hne as ->.
  - intros other Hne. now rewrite Hent, assoc_set_prop_ne.
Qed.

Lemma addEntry_then_getTokenFilename_witness :
  fst (UserHashCache.getTokenFilename "/srv/calendar/.user-hash-cache.json"
         1700000000001
         (UserHashCache.addEntry "/srv/calendar/.user-hash-cache.json"
            1700000000000 Examples.cache_of_abcdef "ffff0000aaaa"
            "/srv/calendar/.ffff0000aaaa-gcp-saved-tokens.json")
         "ffff0000aaaa")
  = Some "/srv/calendar/.ffff0000aaaa-gcp-saved-tokens.json".
Proof.
  apply (addEntry_then_getTokenFilename "/srv/calendar/.user-hash-cache.json"
           1700000000000 1700000000001 Examples.cache_of_abcdef
           "ffff0000aaaa"
           "/srv/calendar/.ffff0000aaaa-gcp-saved-tokens.json").
  reflexivity.
Defined.

(** X2.  [removeEntry] forgets the identity for good.  For an identity
    that is not the name of a member inherited from [Object.prototype]:
    afterwards [hasEntry] is false and [getTokenFilename] misses, a
    second [removeEntry] returns false and changes neither the cache
    nor the disk, and the entries of the other identities are as they
    were. *)
Theorem removeEntry_forgets
  (cacheFilePath : string) (later : Z) (c : UserHashCache.t)
  (original : string) :
  Props.inherited_name original = false ->
  let c' := snd (UserHashCache.removeEntry cacheFilePath c original) in
  UserHashCache.hasEntry c' original = false
  /\ UserHashCache.getTokenFilename cacheFilePath later c' original
     = (None, c')
  /\ UserHashCache.removeEntry cacheFilePath c' original = (false, c')
  /\ forall other, other <> original ->
       JS.assoc other (UserHashCache.entries (UserHashCache.cache c'))
       = JS.assoc other (UserHashCache.entries (UserHashCache.cache c)).
Proof.
  intros _ c'.
  assert (Hnone : JS.assoc original
                    (UserHashCache.entries (UserHashCache.cache c')) = None).
  { apply removeEntry_drops. }
  split; [|split; [|split]].
  - unfold UserHashCache.hasEntry. now rewrite Hnone.
  - unfold UserHashCache.getTokenFilename. now rewrite Hnone.
  - unfold UserHashCache.removeEntry at 1. now rewrite Hnone.
  - intros other Hne. unfold c', UserHashCache.removeEntry.
    destruct (JS.assoc original
                (UserHashCache.entries (UserHashCache.cache c)))
      as [e|] eqn:He; simpl; [|reflexivity].
    rewrite saveCache_cache. simpl. now apply assoc_delete_prop_ne.
Qed.

Lemma removeEntry_forgets_witness :
  UserHashCache.hasEntry
    (snd (UserHashCache.removeEntry "/srv/calendar/.user-hash-cache.json"
            Examples.cache_of_abcdef "abcdef123456"))
    "abcdef123456" = false.
Proof.
  apply (removeEntry_forgets "/srv/calendar/.user-hash-cache.json"
           1700000000001 Examples.cache_of_abcdef "abcdef123456").
  reflexivity.
Defined.



(** X4.  What [addEntry] writes is what [initialize] reads back.  On a
    writable disk whose storage directory exists, and for a cache with
    a non-empty version, [addEntry] clears the dirty flag, and a cache
    object initialized from the file afterwards holds the document of
    the cache in memory. *)
Theorem saved_cache_reloads
  (cacheFilePath : string) (now : Z) (c : UserHashCache.t)
  (original actual : string) :
  Fs.writable (UserHashCache.on_disk c) = true ->
  Fs.dir_exists (UserHashCache.on_disk c) = true ->
  UserHashCache.version (UserHashCache.cache c) <> "" ->
  let c' := UserHashCache.addEntry cacheFilePath now c original actual in
  UserHashCache.isDirty c' = false
  /\ UserHashCache.initialize UserHashCache.emptyCache
       (UserHashCache.readFile (UserHashCache.on_disk c') cacheFilePath)
     = Exn.Ok (UserHashCache.encode (UserHashCache.cache c')).
Proof.
  intros Hw Hd Hv c'. unfold c', UserHashCache.addEntry,
    UserHashCache.saveCache, UserHashCache.with_entries. cbn.
  unfold Fs.writeFileSync. cbn. rewrite Hw, Hd. cbn.
  split; [reflexivity|].
  unfold UserHashCache.readFile, Fs.readFileSync. cbn.
  rewrite assoc_put_eq. apply initialize_loaded, loadCache_try_Ok.
  split; [reflexivity|]. split; [|reflexivity]. cbn.
  apply String.eqb_neq in Hv. now rewrite Hv.
Qed.

Lemma saved_cache_reloads_witness :
  UserHashCache.initialize UserHashCache.emptyCache
    (UserHashCache.readFile
       (UserHashCache.on_disk
          (UserHashCache.addEntry "/srv/calendar/.user-hash-cache.json"
             1700000000000 Examples.cache_of_abcdef "0123456789ab"
             "/srv/calendar/.0123456789ab-gcp-saved-tokens.json"))
       "/srv/calendar/.user-hash-cache.json")
  = Exn.Ok
      (UserHashCache.encode
         (UserHashCache.cache
            (UserHashCache.addEntry "/srv/calendar/.user-hash-cache.json"
               1700000000000 Examples.cache_of_abcdef "0123456789ab"
               "/srv/calendar/.0123456789ab-gcp-saved-tokens.json"))).
Proof.
  apply (saved_cache_reloads "/srv/calendar/.user-hash-cache.json"
           1700000000000 Examples.cache_of_abcdef "0123456789ab"
           "/srv/calendar/.0123456789ab-gcp-saved-tokens.json");
    [reflexivity | reflexivity | discriminate].
Defined.



(** X6.  [validateEntries] leaves a cache in which every entry is
    backed by a file.  For a cache whose keys are distinct, the valid
    and invalid counts add up to the entries there were, every invalid
    entry is removed, the entries left are those whose token file is on
    the disk, in their order, and each of these files is still there
    after the cache file was written. *)
Theorem validateEntries_keeps_backed
  (cacheFilePath : string) (c : UserHashCache.t) :
  List.NoDup (List.map fst (UserHashCache.entries (UserHashCache.cache c))) ->
  let es := UserHashCache.entries (UserHashCache.cache c) in
  let d := UserHashCache.on_disk c in
  let r := CacheMaintenance.validateEntries cacheFilePath c in
  CacheMaintenance.valid (fst r) + CacheMaintenance.invalid (fst r)
  = Z.of_nat (List.length es)
  /\ CacheMaintenance.removed (fst r) = CacheMaintenance.invalid (fst r)
  /\ UserHashCache.entries (UserHashCache.cache (snd r))
     = List.filter (Props.backed d) es
  /\ forall k e,
       In (k, e) (UserHashCache.entries (UserHashCache.cache (snd r))) ->
       Fs.existsSync (UserHashCache.on_disk (snd r))
         (UserHashCache.actualTokenFilename e) = true.
Proof.
  intros Hnd es d r.
  assert (Hent : UserHashCache.entries (UserHashCache.cache (snd r))
                 = List.filter (Props.backed d) es).
  { unfold r, CacheMaintenance.validateEntries.
    rewrite validate_loop_spec, remove_loop_spec. fold es d. cbn [app].
    rewrite fold_delete_filter.
    rewrite (filter_selected_keys (fun kv => negb (Props.backed d kv)) es Hnd).
    assert (Hf : List.filter
                   (fun kv => negb (negb (Props.backed d kv))) es
                 = List.filter (Props.backed d) es).
    { apply filter_ext. intros kv. now destruct (Props.backed d kv). }
    rewrite Hf. cbn [snd].
    destruct (0 <? _) eqn:Hpos.
    - now rewrite saveCache_cache.
    - apply Z.ltb_ge in Hpos. fold es. symmetry.
      assert (Hnil : List.filter (fun kv => negb (Props.backed d kv)) es
                     = []).
      { destruct (List.filter (fun kv => negb (Props.backed d kv)) es);
          [reflexivity|]. simpl in Hpos. lia. }
      assert (Hall : forall kv, In kv es -> Props.backed d kv = true).
      { intros kv Hin. destruct (Props.backed d kv) eqn:Hs; [reflexivity|].
        exfalso.
        assert (Hin' : In kv (List.filter
                                (fun kv => negb (Props.backed d kv)) es))
          by (apply filter_In; split; [assumption | now rewrite Hs]).
        now rewrite Hnil in Hin'. }
      clear Hnil Hnd Hpos Hf. induction es as [|x es' IH]; [reflexivity|].
      simpl. rewrite (Hall x (or_introl eq_refl)). f_equal.
      apply IH. intros kv Hin. apply Hall. now right. }
  split; [|split; [|split]].
  - unfold r, CacheMaintenance.validateEntries.
    rewrite validate_loop_spec, remove_loop_spec. fold es d. cbn.
    rewrite !Z.add_0_l, <- Nat2Z.inj_add. f_equal.
    apply filter_length_split.
  - unfold r, CacheMaintenance.validateEntries.
    rewrite validate_loop_spec, remove_loop_spec. fold es d. cbn.
    now rewrite length_map.
  - exact Hent.
  - intros k e Hin. rewrite Hent in Hin. apply filter_In in Hin as [_ Hb].
    unfold Props.backed in Hb. cbn [snd] in Hb. fold d in Hb.
    unfold r, CacheMaintenance.validateEntries.
    destruct (CacheMaintenance.validate_loop _ _ _ _ _) as [[v i] ks].
    destruct (CacheMaintenance.remove_loop _ _ _) as [es' n].
    cbn [snd]. destruct (0 <? n); [|exact Hb].
    now apply saveCache_keeps_files.
Qed.

Lemma validateEntries_keeps_backed_witness :
  List.map fst
    (UserHashCache.entries
       (UserHashCache.cache
          (snd (CacheMaintenance.validateEntries
                  "/srv/calendar/.user-hash-cache.json"
                  MoreExamples.two_entry_cache))))
  = ["abcdef123456"].
Proof.
  destruct (validateEntries_keeps_backed
              "/srv/calendar/.user-hash-cache.json"
              MoreExamples.two_entry_cache) as [_ [_ [H _]]].
  - repeat constructor; simpl; intuition discriminate.
  - rewrite H. reflexivity.
Defined.

(** * Further properties of the token manager *)

Section TokenLifecycleFacts.
Import JS Fs Exn TokenManager TokenLifecycle.

Lemma unlink_gone (d d' : disk) (p : string) :
  List.NoDup (List.map fst (files d)) ->
  unlink d p = Some d' -> existsSync d' p = false.
Proof.
  intros Hnd. unfold unlink.
  destruct (writable d && existsSync d p); [|discriminate].
  intros H. injection H as <-. unfold existsSync. cbn [files].
  assert (Hr : assoc p (remove p (files d)) = None).
  { clear -Hnd. induction (files d) as [|[p' t'] l IH]; [reflexivity|].
    simpl in Hnd. apply List.NoDup_cons_iff in Hnd as [Hnin Hnd]. simpl.
    destruct (String.eqb_spec p p') as [->|Hne].
    - now apply assoc_None_notin.
    - simpl. destruct (String.eqb_spec p p') as [->|_]; [contradiction|].
      now apply IH. }
  now rewrite Hr.
Qed.

Lemma unlink_other (d d' : disk) (p q : string) :
  q <> p -> unlink d p = Some d' -> readFileSync d' q = readFileSync d q.
Proof.
  intros Hne. unfold unlink.
  destruct (writable d && existsSync d p); [|discriminate].
  intros H. injection H as <-. unfold readFileSync. cbn [files].
  induction (files d) as [|[p' t'] l IH]; [reflexivity|]. simpl.
  destruct (String.eqb_spec p p') as [->|Hpp'].
  - now apply String.eqb_neq in Hne as ->.
  - simpl. now rewrite IH.
Qed.

(** A refresh that answers true leaves an access token whenever there
    was one. *)
Lemma refresh_keeps_access_token (cacheFilePath : string) (now : Z)
  (provider : refresh_response) (tm : t) (c : UserHashCache.t) :
  truthy (cred "access_token" (credentials tm)) = true ->
  fst (fst (refreshTokensIfNeeded cacheFilePath now provider tm c)) = true ->
  truthy (cred "access_token"
            (credentials
               (snd (fst (refreshTokensIfNeeded cacheFilePath now provider
                            tm c))))) = true.
Proof.
  intros Hat. unfold refreshTokensIfNeeded.
  destruct (isExpired now (credentials tm)
            && truthy (cred "refresh_token" (credentials tm))).
  - destruct provider as [newTokens| |]; simpl; try discriminate.
    + destruct (truthy (cred "access_token" newTokens)) eqn:Hn; simpl;
        [now intros _ | discriminate].
    + destruct (first_entry_for _ _); simpl; discriminate.
  - rewrite Hat. simpl. now intros _.
Qed.

Lemma load_at_not_json (tm : t) (d : disk) (raw : string) :
  readFileSync d (tokenPath tm) = Some (Garbage raw) ->
  fst (fst (load_at tm d)) = false
  /\ snd (fst (load_at tm d)) = tm
  /\ readFileSync (snd (load_at tm d)) (tokenPath tm) = Some (Garbage raw).
Proof.
  intros Hread. unfold load_at, mkdirSync.
  destruct (dir_exists d) eqn:Hd.
  - unfold existsSync. unfold readFileSync in Hread. rewrite Hread. simpl.
    unfold readFileSync. rewrite Hread. simpl.
    split; [reflexivity|]. split; [reflexivity|exact Hread].
  - destruct (writable d) eqn:Hw.
    + unfold existsSync, readFileSync in *. cbn [files]. rewrite Hread.
      simpl. split; [reflexivity|]. split; [reflexivity|exact Hread].
    + unfold unlink. rewrite Hw. simpl.
      split; [reflexivity|]. split; [reflexivity|exact Hread].
Qed.

Lemma set_prop_keys {A : Type} (k k' : string) (v : A)
  (l : list (string * A)) :
  In k' (List.map fst (set_prop k v l)) <-> k' = k \/ In k' (List.map fst l).
Proof.
  induction l as [|[k0 v0] l IH]; simpl.
  - intuition.
  - destruct (String.eqb_spec k k0) as [->|Hne]; simpl; [intuition|].
    rewrite IH. intuition.
Qed.

Lemma set_prop_NoDup {A : Type} (k : string) (v : A)
  (l : list (string * A)) :
  List.NoDup (List.map fst l) -> List.NoDup (List.map fst (set_prop k v l)).
Proof.
  induction l as [|[k0 v0] l IH]; simpl; intros Hnd.
  - constructor; [intros []|constructor].
  - apply List.NoDup_cons_iff in Hnd as [Hnin Hnd].
    destruct (String.eqb_spec k k0) as [->|Hne]; simpl.
    + now constructor.
    + constructor; [|now apply IH].
      intros Hin. apply set_prop_keys in Hin as [->|Hin]; [now apply Hne|].
      now apply Hnin.
Qed.

Lemma assign_NoDup (a b : Credentials) :
  List.NoDup (List.map fst a) -> List.NoDup (List.map fst (assign a b)).
Proof.
  unfold assign. revert a. induction b as [|[k v] b IH]; intros a Hnd;
    [exact Hnd|].
  simpl. apply IH. now apply set_prop_NoDup.
Qed.

Lemma assoc_assign (a b : Credentials) (k : string) :
  List.NoDup (List.map fst b) ->
  assoc k (assign a b)
  = match assoc k b with
    | Some v => Some v
    | None => assoc k a
    end.
Proof.
  unfold assign. revert a. induction b as [|[k0 v0] b IH]; intros a Hnd;
    [reflexivity|].
  simpl in Hnd. apply List.NoDup_cons_iff in Hnd as [Hnin Hnd].
  simpl. rewrite (IH _ Hnd).
  destruct (String.eqb_spec k k0) as [->|Hne].
  - rewrite (assoc_None_notin k0 b Hnin). apply assoc_set_prop_eq.
  - destruct (assoc k b); [reflexivity|]. now apply assoc_set_prop_ne.
Qed.

Lemma assoc_stringify_fields (l : Credentials) (k : string) :
  List.NoDup (List.map fst l) ->
  assoc k (stringify_fields l)
  = match assoc k l with
    | Some v => v
    | None => None
    end.
Proof.
  induction l as [|[k0 [v0|]] l IH]; intros Hnd; [reflexivity| |];
    simpl in Hnd; apply List.NoDup_cons_iff in Hnd as [Hnin Hnd]; simpl.
  - destruct (String.eqb k k0); [reflexivity | now apply IH].
  - destruct (String.eqb_spec k k0) as [->|Hne]; [|now apply IH].
    rewrite (IH Hnd). now rewrite (assoc_None_notin k0 l Hnin).
Qed.

Lemma assoc_spread_object (fields : list (string * json)) (k : string) :
  assoc k (spread_json (JObj fields))
  = match assoc k fields with
    | Some v => Some (Some v)
    | None => None
    end.
Proof.
  simpl. induction fields as [|[k0 v0] fields IH]; simpl; [reflexivity|].
  destruct (String.eqb k k0); [reflexivity | exact IH].
Qed.

End TokenLifecycleFacts.

(** X7.  [clearTokens] logs the identity out only when it could delete
    the token file.  It always empties the credentials in memory.  On a
    disk where each path names one file and the token path is not the
    cache file, and for an identity that is not the name of a member
    inherited from [Object.prototype]: when the token file exists and
    may be deleted, the file is gone afterwards and so is the cache
    entry of the identity passed in; when the file is missing or may
    not be deleted, the lookup cache and the disk are left exactly as
    they were, so the entry of the identity stays. *)
Theorem clearTokens_effects
  (cacheFilePath : string) (tm : TokenManager.t) (c : UserHashCache.t)
  (originalUserHashID : string) :
  List.NoDup (List.map fst (Fs.files (UserHashCache.on_disk c))) ->
  TokenManager.tokenPath tm <> cacheFilePath ->
  originalUserHashID <> "" ->
  Props.inherited_name originalUserHashID = false ->
  let r := TokenLifecycle.clearTokens cacheFilePath tm c
             (Some originalUserHashID) in
  TokenManager.credentials (fst r) = []
  /\ (Fs.writable (UserHashCache.on_disk c) = true ->
      Fs.existsSync (UserHashCache.on_disk c) (TokenManager.tokenPath tm)
      = true ->
      Fs.existsSync (UserHashCache.on_disk (snd r))
        (TokenManager.tokenPath tm) = false
      /\ UserHashCache.hasEntry (snd r) originalUserHashID = false)
  /\ (Fs.writable (UserHashCache.on_disk c) = false
      \/ Fs.existsSync (UserHashCache.on_disk c) (TokenManager.tokenPath tm)
         = false ->
      snd r = c).
Proof.
  intros Hnd Hpath Hu _ r. unfold r, TokenLifecycle.clearTokens.
  assert (Ht : JS.truthy_str (Some originalUserHashID) = true).
  { simpl. now apply String.eqb_neq in Hu as ->. }
  rewrite Ht. split; [|split].
  - now destruct (Fs.unlink _ _).
  - intros Hw Hex.
    destruct (Fs.unlink (UserHashCache.on_disk c) (TokenManager.tokenPath tm))
      as [d'|] eqn:Hun.
    + cbn [snd]. pose proof (unlink_gone _ _ _ Hnd Hun) as Hgone.
      set (c1 := TokenLifecycle.with_disk c d').
      split.
      * unfold UserHashCache.removeEntry.
        destruct (JS.assoc originalUserHashID
                    (UserHashCache.entries (UserHashCache.cache c1)));
          cbn [snd]; [|exact Hgone].
        unfold Fs.existsSync in *.
        pose proof (saveCache_other cacheFilePath (TokenManager.tokenPath tm)
                      (UserHashCache.with_entries c1
                         (JS.delete_prop originalUserHashID
                            (UserHashCache.entries
                               (UserHashCache.cache c1)))) Hpath) as Hk.
        unfold Fs.readFileSync in Hk. rewrite Hk. exact Hgone.
      * unfold UserHashCache.hasEntry.
        now rewrite (removeEntry_drops cacheFilePath c1 originalUserHashID).
    + unfold Fs.unlink in Hun. rewrite Hw, Hex in Hun. discriminate.
  - intros Hcase. unfold Fs.unlink.
    destruct Hcase as [-> | ->]; [reflexivity|].
    now rewrite andb_false_r.
Qed.

Lemma clearTokens_effects_witness :
  Fs.existsSync
    (UserHashCache.on_disk
       (snd (TokenLifecycle.clearTokens "/srv/calendar/.user-hash-cache.json"
               Examples.expired_manager Examples.cache_of_abcdef
               (Some "abcdef123456"))))
    "/srv/calendar/.abcdef123456-gcp-saved-tokens.json" = false
  /\ UserHashCache.hasEntry
       (snd (TokenLifecycle.clearTokens "/srv/calendar/.user-hash-cache.json"
               Examples.expired_manager Examples.cache_of_abcdef
               (Some "abcdef123456")))
       "abcdef123456" = false.
Proof.
  destruct (clearTokens_effects "/srv/calendar/.user-hash-cache.json"
              Examples.expired_manager Examples.cache_of_abcdef
              "abcdef123456") as [_ [H _]].
  - repeat constructor; simpl; intuition discriminate.
  - discriminate.
  - discriminate.
  - reflexivity.
  - apply H; reflexivity.
Defined.

(** X8.  A validation that answers true leaves an access token in
    memory.  Whether [validateTokens] or [validateTokensWithUserHash]
    is called, and whatever the disk, the cache and the provider do, a
    result of true means the credentials of the manager hold a truthy
    access token afterwards. *)
Theorem validation_true_has_access_token
  (projectRoot cacheFilePath : string) (now : Z)
  (provider : TokenManager.refresh_response) (tm : TokenManager.t)
  (c : UserHashCache.t) (userHashID : string)
  (r : bool * TokenManager.t * UserHashCache.t) :
  r = TokenLifecycle.validateTokens cacheFilePath now provider tm c
  \/ r = TokenLifecycle.validateTokensWithUserHash projectRoot cacheFilePath
           now provider tm c userHashID ->
  fst (fst r) = true ->
  JS.truthy
    (TokenManager.cred "access_token"
       (TokenManager.credentials (snd (fst r)))) = true.
Proof.
  intros [-> | ->].
  - unfold TokenLifecycle.validateTokens.
    destruct (TokenLifecycle.lacks_access_token tm) eqn:Hl.
    + destruct (TokenManager.loadSavedTokens tm (UserHashCache.on_disk c))
        as [[loaded tm1] d1].
      destruct loaded; cbn [negb]; [|discriminate].
      destruct (TokenLifecycle.lacks_access_token tm1) eqn:Hl1;
        [discriminate|].
      apply refresh_keeps_access_token.
      unfold TokenLifecycle.lacks_access_token in Hl1.
      now apply negb_false_iff in Hl1.
    + apply refresh_keeps_access_token.
      unfold TokenLifecycle.lacks_access_token in Hl.
      now apply negb_false_iff in Hl.
  - unfold TokenLifecycle.validateTokensWithUserHash.
    destruct (TokenLifecycle.lacks_access_token tm) eqn:Hl.
    + destruct (TokenManager.loadSavedTokensWithUserHash projectRoot tm
                  (UserHashCache.on_disk c) userHashID)
        as [[loaded tm1] d1].
      destruct loaded; cbn [negb]; [|discriminate].
      destruct (TokenLifecycle.lacks_access_token tm1) eqn:Hl1;
        [discriminate|].
      apply refresh_keeps_access_token.
      unfold TokenLifecycle.lacks_access_token in Hl1.
      now apply negb_false_iff in Hl1.
    + apply refresh_keeps_access_token.
      unfold TokenLifecycle.lacks_access_token in Hl.
      now apply negb_false_iff in Hl.
Qed.

Lemma validation_true_has_access_token_witness :
  JS.truthy
    (TokenManager.cred "access_token"
       (TokenManager.credentials
          (snd (fst (TokenLifecycle.validateTokensWithUserHash
                       "/srv/calendar" "/srv/calendar/.user-hash-cache.json"
                       1700000000000
                       (TokenManager.Refreshed MoreExamples.refreshed_tokens)
                       Examples.manager_of_abcdef Examples.cache_of_abcdef
                       "abcdef123456"))))) = true.
Proof.
  apply (validation_true_has_access_token
           "/srv/calendar" "/srv/calendar/.user-hash-cache.json"
           1700000000000
           (TokenManager.Refreshed MoreExamples.refreshed_tokens)
           Examples.manager_of_abcdef Examples.cache_of_abcdef
           "abcdef123456");
    [right; reflexivity | reflexivity].
Defined.

(** X9.  A token file that is not JSON is never repaired or removed by
    loading.  When the file at the token path holds a text that
    [JSON.parse] rejects, [loadSavedTokens] returns false, leaves the
    credentials of the manager as they were and leaves the file on disk
    with its content; the same holds for [loadSavedTokensWithUserHash]
    at the path it resolves. *)
Theorem corrupted_token_file_is_kept
  (projectRoot : string) (tm : TokenManager.t) (d : Fs.disk)
  (userHashID raw : string) (path : string)
  (r : bool * TokenManager.t * Fs.disk) :
  (path = TokenManager.tokenPath tm
   /\ r = TokenManager.loadSavedTokens tm d)
  \/ (path = Utils.getSecureTokenPathWithFuzzyMatching projectRoot d
              userHashID
      /\ r = TokenManager.loadSavedTokensWithUserHash projectRoot tm d
               userHashID) ->
  Fs.readFileSync d path = Some (JS.Garbage raw) ->
  fst (fst r) = false
  /\ TokenManager.credentials (snd (fst r)) = TokenManager.credentials tm
  /\ Fs.readFileSync (snd r) path = Some (JS.Garbage raw).
Proof.
  intros [[-> ->] | [-> ->]] Hread.
  - unfold TokenManager.loadSavedTokens.
    destruct (load_at_not_json tm d raw Hread) as [H1 [H2 H3]].
    rewrite H1, H2. now split.
  - unfold TokenManager.loadSavedTokensWithUserHash.
    set (tm' := {| TokenManager.tokenPath :=
                     Utils.getSecureTokenPathWithFuzzyMatching projectRoot d
                       userHashID;
                   TokenManager.credentials := TokenManager.credentials tm |}).
    destruct (load_at_not_json tm' d raw Hread) as [H1 [H2 H3]].
    rewrite H1, H2. now split.
Qed.

Lemma corrupted_token_file_is_kept_witness :
  Fs.readFileSync
    (snd (TokenManager.loadSavedTokens Examples.expired_manager
            MoreExamples.corrupted_disk))
    "/srv/calendar/.abcdef123456-gcp-saved-tokens.json"
  = Some (JS.Garbage "{ access_token: ").
Proof.
  apply (corrupted_token_file_is_kept "/srv/calendar"
           Examples.expired_manager MoreExamples.corrupted_disk
           "abcdef123456" "{ access_token: "
           "/srv/calendar/.abcdef123456-gcp-saved-tokens.json"
           (TokenManager.loadSavedTokens Examples.expired_manager
              MoreExamples.corrupted_disk));
    [left; split; reflexivity | reflexivity].
Defined.

(** X10.  The listener of the tokens event never loses a stored refresh
    token.  On a writable disk whose token file holds an object with a
    refresh token, with distinct keys in the stored object and in the
    new tokens: after the event the file holds an object whose refresh
    token is the new one when the new tokens carry a truthy one and the
    stored one otherwise; every other property the new tokens name has
    their value (none when they hold [undefined]), and every property
    they do not name keeps its stored value. *)
Theorem tokens_event_keeps_refresh_token
  (tm : TokenManager.t) (d : Fs.disk) (fields : list (string * JS.json))
  (newTokens : TokenManager.Credentials) (stored : JS.json) :
  Fs.writable d = true ->
  Fs.dir_exists d = true ->
  Fs.readFileSync d (TokenManager.tokenPath tm)
  = Some (JS.Doc (JS.JObj fields)) ->
  List.NoDup (List.map fst fields) ->
  List.NoDup (List.map fst newTokens) ->
  JS.assoc "refresh_token" fields = Some stored ->
  exists fields',
    Fs.readFileSync (TokenLifecycle.on_tokens tm d newTokens)
      (TokenManager.tokenPath tm) = Some (JS.Doc (JS.JObj fields'))
    /\ JS.assoc "refresh_token" fields'
       = TokenLifecycle.or_else
           (TokenManager.cred "refresh_token" newTokens) (Some stored)
    /\ forall k, k <> "refresh_token" ->
         JS.assoc k fields'
         = match JS.assoc k newTokens with
           | Some v => v
           | None => JS.assoc k fields
           end.
Proof.
  intros Hw Hd Hread Hnf Hnn Hrt.
  exists (TokenManager.stringify_fields
            (TokenLifecycle.updatedTokens (JS.JObj fields) newTokens)).
  assert (Hnd : List.NoDup
                  (List.map fst
                     (TokenLifecycle.updatedTokens (JS.JObj fields)
                        newTokens))).
  { unfold TokenLifecycle.updatedTokens. apply set_prop_NoDup, assign_NoDup.
    simpl. now rewrite List.map_map. }
  split; [|split].
  - unfold TokenLifecycle.on_tokens, Fs.mkdirSync. rewrite Hd, Hread.
    cbn [JS.JSON_parse TokenLifecycle.reads_null].
    unfold Fs.writeFileSync. rewrite Hw, Hd. cbn [andb].
    unfold Fs.readFileSync. cbn [Fs.files]. now rewrite assoc_put_eq.
  - rewrite (assoc_stringify_fields _ _ Hnd).
    unfold TokenLifecycle.updatedTokens. rewrite assoc_set_prop_eq.
    cbn [JS.prop]. rewrite Hrt. unfold TokenLifecycle.or_else.
    destruct (TokenManager.cred "refresh_token" newTokens) as [v|];
      reflexivity.
  - intros k Hk. rewrite (assoc_stringify_fields _ _ Hnd).
    unfold TokenLifecycle.updatedTokens.
    rewrite (assoc_set_prop_ne _ _ _ _ Hk), (assoc_assign _ _ _ Hnn).
    destruct (JS.assoc k newTokens) as [v|]; [reflexivity|].
    rewrite assoc_spread_object. now destruct (JS.assoc k fields).
Qed.

Lemma tokens_event_keeps_refresh_token_witness :
  exists fields',
    Fs.readFileSync
      (TokenLifecycle.on_tokens Examples.expired_manager
         Examples.calendar_disk MoreExamples.refreshed_tokens)
      "/srv/calendar/.abcdef123456-gcp-saved-tokens.json"
    = Some (JS.Doc (JS.JObj fields'))
    /\ JS.assoc "refresh_token" fields' = Some (JS.JStr "1//revoked")
    /\ JS.assoc "access_token" fields' = Some (JS.JStr "ya29.new").
Proof.
  destruct (tokens_event_keeps_refresh_token Examples.expired_manager
              Examples.calendar_disk Examples.expired_record
              MoreExamples.refreshed_tokens (JS.JStr "1//revoked"))
    as [fields' [H1 [H2 H3]]];
    try reflexivity; try (repeat constructor; simpl; intuition discriminate).
  exists fields'. split; [exact H1|]. split; [exact H2|].
  now rewrite (H3 "access_token").
Defined.

(** * Further properties of the Gmail user manager *)

Section GmailUserFacts.
Import JS Fs UserManager GmailUsers.

Lemma assoc_In {A : Type} (k : string) (v : A) (l : list (string * A)) :
  assoc k l = Some v -> In (k, v) l.
Proof.
  induction l as [|[k0 v0] l IH]; simpl; [discriminate|].
  destruct (String.eqb_spec k k0) as [->|_].
  - intros H. injection H as ->. now left.
  - intros H. right. now apply IH.
Qed.

Lemma append_nonempty_ne (s t : string) : t <> "" -> s ++ t <> s.
Proof.
  intros Ht. induction s as [|c s IH].
  - exact Ht.
  - rewrite append_cons. intros H. injection H as H. now apply IH.
Qed.

(** On a disk without token files no identity resolves to a path. *)
Lemma finalCredPath_no_token_files (CONFIG_DIR : string) (d : disk)
  (U : string) :
  (forall p t, In (p, t) (files d) ->
               includes p "gcp-saved-tokens" = false) ->
  finalCredPath CONFIG_DIR d U = None.
Proof.
  intros Hno. unfold finalCredPath.
  assert (Hexact : includes (getCredentialsPath CONFIG_DIR U)
                     "gcp-saved-tokens" = true)
    by apply (exact_is_token_file CONFIG_DIR U).
  assert (Hnot : forall p, includes p "gcp-saved-tokens" = true ->
                           existsSync d p = false).
  { intros p Hinc. unfold existsSync.
    destruct (assoc p (files d)) as [t|] eqn:Hp; [|reflexivity].
    apply assoc_In in Hp. rewrite (Hno p t Hp) in Hinc. discriminate. }
  rewrite (Hnot _ Hexact).
  assert (Hsave : includes (getCredentialsPath CONFIG_DIR U ++ ".save")
                    "gcp-saved-tokens" = true).
  { unfold getCredentialsPath, path_join, TokenFiles.token_file_name.
    rewrite !append_assoc. do 3 apply includes_suffix.
    change ("-gcp-saved-tokens.json" ++ ".save")
      with ("-" ++ "gcp-saved-tokens" ++ ".json.save").
    apply includes_suffix. apply (includes_infix "" "gcp-saved-tokens"). }
  rewrite (Hnot _ Hsave).
  unfold findCaseInsensitiveTokenFile.
  destruct (TokenFiles.findCaseInsensitiveTokenFile CONFIG_DIR d U)
    as [F|] eqn:HF; [|reflexivity].
  destruct (fuzzy_result CONFIG_DIR U d F HF) as [_ [[t Ht] Hinc]].
  apply assoc_In in Ht. rewrite (Hno F t Ht) in Hinc. discriminate.
Qed.

Lemma not_in_difference_singleton (X : gset string) (u : string) :
  u ∉ X ∖ {[ u ]}.
Proof.
  rewrite elem_of_difference, elem_of_singleton. tauto.
Qed.

Lemma difference_singleton_twice (X : gset string) (u : string) :
  X ∖ {[ u ]} ∖ {[ u ]} = X ∖ {[ u ]}.
Proof.
  apply set_eq. intros x. rewrite !elem_of_difference. tauto.
Qed.

End GmailUserFacts.

(** X11.  An identity that was never seen is not authenticated.  On a
    storage directory that holds no token file (no path containing
    gcp-saved-tokens), [loadUserCredentials] returns null for every
    identity, through the exact path, the save copy and the fuzzy scan
    alike; [isUserAuthenticated] is false; and the status endpoint
    answers that no tokens were found without probing the provider. *)
Theorem unknown_identity_is_not_authenticated
  (CONFIG_DIR : string) (d : Fs.disk) (U : string) (probe : bool) :
  (forall p t, In (p, t) (Fs.files d) ->
               JS.includes p "gcp-saved-tokens" = false) ->
  UserManager.loadUserCredentials CONFIG_DIR d U = JS.JNull
  /\ GmailUsers.isUserAuthenticated CONFIG_DIR d U = false
  /\ (U <> "" ->
      GmailUsers.checkGmailStatus CONFIG_DIR d (Some U) probe
      = GmailUsers.NoAuthenticationTokens).
Proof.
  intros Hno.
  assert (Hload : UserManager.loadUserCredentials CONFIG_DIR d U = JS.JNull).
  { unfold UserManager.loadUserCredentials.
    now rewrite (finalCredPath_no_token_files CONFIG_DIR d U Hno). }
  assert (Hauth : GmailUsers.isUserAuthenticated CONFIG_DIR d U = false).
  { unfold GmailUsers.isUserAuthenticated. now rewrite Hload. }
  split; [exact Hload|]. split; [exact Hauth|].
  intros HU. unfold GmailUsers.checkGmailStatus. cbn [JS.truthy_str].
  apply String.eqb_neq in HU. rewrite HU. cbn [negb]. now rewrite Hauth.
Qed.

Lemma unknown_identity_is_not_authenticated_witness :
  GmailUsers.isUserAuthenticated "/srv/tokens" MoreExamples.keys_only_disk
    "abcdef123456" = false.
Proof.
  apply (unknown_identity_is_not_authenticated "/srv/tokens"
           MoreExamples.keys_only_disk "abcdef123456" true).
  intros p t [H|[]]. injection H as <- <-. reflexivity.
Defined.

(** X12.  [removeUser] deletes the exact record of the identity and
    nothing else, and may be repeated.  On a disk where each path names
    one file, a call that does not raise leaves no file at the exact
    credentials path, no cached client and no auth server for the
    identity, and every other file as it was; calling it again changes
    nothing. *)
Theorem removeUser_deletes_exact_file
  (CONFIG_DIR : string) (w w' : UserManager.world) (U : string) :
  List.NoDup (List.map fst (Fs.files (UserManager.disk_of w))) ->
  GmailUsers.removeUser CONFIG_DIR w U = Some w' ->
  Fs.existsSync (UserManager.disk_of w')
    (UserManager.getCredentialsPath CONFIG_DIR U) = false
  /\ (U ∉ UserManager.clientCache w')
  /\ (U ∉ UserManager.authServers w')
  /\ (forall p, p <> UserManager.getCredentialsPath CONFIG_DIR U ->
        Fs.readFileSync (UserManager.disk_of w') p
        = Fs.readFileSync (UserManager.disk_of w) p)
  /\ GmailUsers.removeUser CONFIG_DIR w' U = Some w'.
Proof.
  intros Hnd. unfold GmailUsers.removeUser.
  set (credPath := UserManager.getCredentialsPath CONFIG_DIR U).
  destruct (Fs.existsSync (UserManager.disk_of w) credPath) eqn:Hex.
  - destruct (Fs.unlink (UserManager.disk_of w) credPath) as [d'|] eqn:Hun;
      [|discriminate].
    intros H. injection H as <-. cbn.
    pose proof (unlink_gone (UserManager.disk_of w) d' _ Hnd Hun) as Hgone.
    split; [exact Hgone|].
    split; [apply not_in_difference_singleton|].
    split; [apply not_in_difference_singleton|].
    split; [intros p Hp;
            now apply (unlink_other (UserManager.disk_of w) d' credPath)|].
    rewrite Hgone. f_equal. unfold UserManager.cleanupAuthServer. cbn.
    f_equal; apply difference_singleton_twice.
  - intros H. injection H as <-. cbn.
    split; [exact Hex|].
    split; [apply not_in_difference_singleton|].
    split; [apply not_in_difference_singleton|].
    split; [reflexivity|].
    rewrite Hex. f_equal. unfold UserManager.cleanupAuthServer. cbn.
    f_equal; apply difference_singleton_twice.
Qed.

Lemma removeUser_deletes_exact_file_witness :
  exists w',
    GmailUsers.removeUser "/srv/tokens" MoreExamples.world_with_save_copy
      "abcdef123456" = Some w'
    /\ Fs.existsSync (UserManager.disk_of w')
         "/srv/tokens/.abcdef123456-gcp-saved-tokens.json" = false.
Proof.
  eexists. split; [reflexivity|].
  refine (proj1 (removeUser_deletes_exact_file "/srv/tokens"
                   MoreExamples.world_with_save_copy _ "abcdef123456" _ _)).
  - repeat constructor; simpl; intuition discriminate.
  - reflexivity.
Defined.

(** X13.  [removeUser] does not log out an identity that has a save
    copy.  On a disk where each path names one file, when the copy of
    the record with the suffix save holds a document, then after
    [removeUser] the identity still loads that document, so
    [isUserAuthenticated] answers for it as before the removal of the
    exact file. *)
Theorem removeUser_keeps_save_copy
  (CONFIG_DIR : string) (w w' : UserManager.world) (U : string)
  (j : JS.json) :
  List.NoDup (List.map fst (Fs.files (UserManager.disk_of w))) ->
  GmailUsers.removeUser CONFIG_DIR w U = Some w' ->
  Fs.readFileSync (UserManager.disk_of w)
    (UserManager.getCredentialsPath CONFIG_DIR U ++ ".save")
  = Some (JS.Doc j) ->
  UserManager.loadUserCredentials CONFIG_DIR (UserManager.disk_of w') U = j
  /\ GmailUsers.isUserAuthenticated CONFIG_DIR (UserManager.disk_of w') U
     = JS.truthy_json j
       && (JS.truthy (JS.prop "access_token" j)
           || JS.truthy (JS.prop "refresh_token" j)).
Proof.
  intros Hnd Hrm Hsave.
  assert (Hne : UserManager.getCredentialsPath CONFIG_DIR U ++ ".save"
                <> UserManager.getCredentialsPath CONFIG_DIR U)
    by (apply append_nonempty_ne; discriminate).
  assert (Hgone : Fs.existsSync (UserManager.disk_of w')
                    (UserManager.getCredentialsPath CONFIG_DIR U) = false
                  /\ Fs.readFileSync (UserManager.disk_of w')
                       (UserManager.getCredentialsPath CONFIG_DIR U
                        ++ ".save") = Some (JS.Doc j)).
  { revert Hrm. unfold GmailUsers.removeUser.
    destruct (Fs.existsSync (UserManager.disk_of w)
                (UserManager.getCredentialsPath CONFIG_DIR U)) eqn:Hex.
    - destruct (Fs.unlink (UserManager.disk_of w)
                  (UserManager.getCredentialsPath CONFIG_DIR U))
        as [d'|] eqn:Hun; [|discriminate].
      intros H. injection H as <-. cbn. split.
      + exact (unlink_gone (UserManager.disk_of w) d' _ Hnd Hun).
      + now rewrite (unlink_other (UserManager.disk_of w) d' _ _ Hne Hun).
    - intros H. injection H as <-. cbn. now split. }
  destruct Hgone as [Hex Hread].
  assert (Hload : UserManager.loadUserCredentials CONFIG_DIR
                    (UserManager.disk_of w') U = j).
  { unfold UserManager.loadUserCredentials, UserManager.finalCredPath.
    rewrite Hex. unfold Fs.existsSync. unfold Fs.readFileSync in Hread.
    rewrite Hread. unfold Fs.readFileSync. now rewrite Hread. }
  split; [exact Hload|].
  unfold GmailUsers.isUserAuthenticated. now rewrite Hload.
Qed.

Lemma removeUser_keeps_save_copy_witness :
  exists w',
    GmailUsers.removeUser "/srv/tokens" MoreExamples.world_with_save_copy
      "abcdef123456" = Some w'
    /\ GmailUsers.isUserAuthenticated "/srv/tokens" (UserManager.disk_of w')
         "abcdef123456" = true.
Proof.
  eexists. split; [reflexivity|].
  refine (eq_trans
            (proj2 (removeUser_keeps_save_copy "/srv/tokens"
                      MoreExamples.world_with_save_copy _ "abcdef123456"
                      Examples.stored_record _ _ _)) _).
  - repeat constructor; simpl; intuition discriminate.
  - reflexivity.
  - reflexivity.
  - reflexivity.
Defined.

(** X14.  [findAvailablePort] answers with the lowest free port of the
    range.  Given fuel for one attempt per port of the range and one
    more, the search ends; it resolves with a port of the range that is
    free while every lower port of the range is taken, and it rejects
    exactly when every port of the range is taken. *)
Theorem findAvailablePort_lowest_free
  (inUse : Z -> bool) (fuel : nat) (startPort endPort : Z) :
  (Z.to_nat (endPort - startPort + 1) < fuel)%nat ->
  exists r,
    GmailUsers.findAvailablePort inUse fuel startPort endPort = Some r
    /\ match r with
       | Some p =>
           startPort <= p <= endPort /\ inUse p = false
           /\ forall q, startPort <= q < p -> inUse q = true
       | None => forall q, startPort <= q <= endPort -> inUse q = true
       end.
Proof.
  unfold GmailUsers.findAvailablePort. revert startPort.
  induction fuel as [|fuel IH]; intros port Hfuel; [lia|].
  cbn [GmailUsers.tryPort]. destruct (endPort <? port) eqn:Hend.
  - apply Z.ltb_lt in Hend. exists None. split; [reflexivity|]. lia.
  - apply Z.ltb_ge in Hend. destruct (inUse port) eqn:Hport.
    + destruct (IH (port + 1)) as [r [Hr Hspec]]; [lia|].
      exists r. split; [exact Hr|]. destruct r as [p|].
      * destruct Hspec as [Hp [Hfree Hbusy]].
        split; [lia|]. split; [exact Hfree|].
        intros q Hq. destruct (Z.eq_dec q port) as [->|Hne];
          [exact Hport | apply Hbusy; lia].
      * intros q Hq. destruct (Z.eq_dec q port) as [->|Hne];
          [exact Hport | apply Hspec; lia].
    + exists (Some port). split; [reflexivity|].
      split; [lia|]. split; [exact Hport|]. lia.
Qed.

Lemma findAvailablePort_lowest_free_witness :
  exists r,
    GmailUsers.findAvailablePort MoreExamples.taken_below_4012 100 4010 4100
    = Some r
    /\ match r with
       | Some p =>
           4010 <= p <= 4100 /\ MoreExamples.taken_below_4012 p = false
           /\ forall q, 4010 <= q < p ->
                        MoreExamples.taken_below_4012 q = true
       | None => forall q, 4010 <= q <= 4100 ->
                           MoreExamples.taken_below_4012 q = true
       end.
Proof.
  apply (findAvailablePort_lowest_free MoreExamples.taken_below_4012 100
           4010 4100).
  vm_compute. lia.
Defined.



(** * Further properties of the callback dispatcher *)

Section DispatcherRoutes.
Import JS CallbackDispatcher.

(** The state an auth server puts in its authorization URL:
    [JSON.stringify({ userID })]. *)
Lemma userID_of_own_state (u : string) :
  userID_of_state (Doc (JObj [("userID", JStr u)])) = Some (Some (JStr u)).
Proof. reflexivity. Qed.

Lemma register_inserts (now : Z) (servers : table) (u : string) (p : Z) :
  u <> "" -> p <> 0 ->
  register now servers (Some u) (Some p)
  = (Registered u p,
     <[ u := {| userID := u; port := p; timestamp := now |} ]> servers).
Proof.
  intros Hu Hp. unfold register.
  apply String.eqb_neq in Hu. apply Z.eqb_neq in Hp. now rewrite Hu, Hp.
Qed.

Lemma callback_without_session (fetch : Z -> downstream) (servers : table)
  (u : string) :
  servers !! u = None ->
  oauth2callback fetch servers (Some (Doc (JObj [("userID", JStr u)])))
  = (NoActiveSession (Some (JStr u)), servers).
Proof.
  intros Hnone. unfold oauth2callback. cbn. now rewrite Hnone.
Qed.

End DispatcherRoutes.

(** X16.  A callback reaches the port registered for its identity.
    After an auth server has registered [u] on port [p], a callback
    whose state is the one that server put in its authorization URL is
    forwarded to [p] and to no other port; a successful answer with a
    body is relayed and the identity leaves the table, which is then
    the table from before the registration without [u]; any other
    outcome leaves the registration in place. *)
Theorem registered_callback_reaches_its_port
  (now : Z) (servers : CallbackDispatcher.table) (u : string) (p : Z)
  (fetch : Z -> CallbackDispatcher.downstream) :
  u <> "" -> p <> 0 ->
  let registered :=
    snd (CallbackDispatcher.register now servers (Some u) (Some p)) in
  let answer :=
    CallbackDispatcher.oauth2callback fetch registered
      (Some (JS.Doc (JS.JObj [("userID", JS.JStr u)]))) in
  match fetch p with
  | CallbackDispatcher.Answer status statusText (Some content) =>
      if CallbackDispatcher.ok status
      then answer = (CallbackDispatcher.Relayed status content,
                     delete u servers)
      else answer = (CallbackDispatcher.AuthenticationFailed status statusText,
                     registered)
  | CallbackDispatcher.Answer status statusText None =>
      if CallbackDispatcher.ok status
      then answer = (CallbackDispatcher.InternalServerError, registered)
      else answer = (CallbackDispatcher.AuthenticationFailed status statusText,
                     registered)
  | CallbackDispatcher.FetchError =>
      answer = (CallbackDispatcher.InternalServerError, registered)
  end.
Proof.
  intros Hu Hp registered answer. unfold answer, registered.
  rewrite (register_inserts now servers u p Hu Hp). cbn [snd].
  unfold CallbackDispatcher.oauth2callback.
  cbn [JS.truthy_text negb].
  rewrite userID_of_own_state. cbn [CallbackDispatcher.get].
  rewrite lookup_insert_eq. cbn [CallbackDispatcher.port].
  destruct (fetch p) as [status statusText [content|]|];
    try destruct (CallbackDispatcher.ok status); try reflexivity.
  now rewrite delete_insert_eq.
Qed.

Lemma registered_callback_reaches_its_port_witness :
  CallbackDispatcher.oauth2callback Examples.failing_auth_server
    (snd (CallbackDispatcher.register 1700000000000 ∅
            (Some "abcdef123456") (Some 3101)))
    (Some (JS.Doc (JS.JObj [("userID", JS.JStr "abcdef123456")])))
  = (CallbackDispatcher.AuthenticationFailed 500 "Internal Server Error",
     snd (CallbackDispatcher.register 1700000000000 ∅
            (Some "abcdef123456") (Some 3101))).
Proof.
  apply (registered_callback_reaches_its_port 1700000000000 ∅
           "abcdef123456" 3101 Examples.failing_auth_server);
    discriminate.
Defined.

(** X17.  The sweep ends a registration after thirty minutes and not
    before.  For an auth server registered at time [t]: a sweep at a
    time up to thirty minutes later keeps its entry, port and
    registration time included; a sweep later than that drops it, and a
    callback for the identity is then answered 404, no active session,
    without any forwarding; and whatever the table was, no entry older
    than thirty minutes is left after a sweep. *)
Theorem sweep_expires_registrations
  (t now : Z) (servers : CallbackDispatcher.table) (u : string) (p : Z)
  (fetch : Z -> CallbackDispatcher.downstream) :
  u <> "" -> p <> 0 ->
  let registered :=
    snd (CallbackDispatcher.register t servers (Some u) (Some p)) in
  let swept := CallbackDispatcher.cleanup now registered in
  (now - t <= CallbackDispatcher.maxAge ->
   swept !! u
   = Some {| CallbackDispatcher.userID := u; CallbackDispatcher.port := p;
             CallbackDispatcher.timestamp := t |})
  /\ (now - t > CallbackDispatcher.maxAge ->
      swept !! u = None
      /\ CallbackDispatcher.oauth2callback fetch swept
           (Some (JS.Doc (JS.JObj [("userID", JS.JStr u)])))
         = (CallbackDispatcher.NoActiveSession (Some (JS.JStr u)), swept))
  /\ (forall v info, swept !! v = Some info ->
        now - CallbackDispatcher.timestamp info <= CallbackDispatcher.maxAge).
Proof.
  intros Hu Hp registered swept. unfold swept, registered.
  rewrite (register_inserts t servers u p Hu Hp). cbn [snd].
  unfold CallbackDispatcher.cleanup. split; [|split].
  - intros Hage. apply map_lookup_filter_Some. split.
    + apply lookup_insert_eq.
    + cbn. lia.
  - intros Hage.
    assert (Hnone : filter
                      (fun kv : string * CallbackDispatcher.AuthServerInfo =>
                         ¬ (now - CallbackDispatcher.timestamp (snd kv)
                            > CallbackDispatcher.maxAge))
                      (<[ u := {| CallbackDispatcher.userID := u;
                                  CallbackDispatcher.port := p;
                                  CallbackDispatcher.timestamp := t |} ]>
                         servers) !! u = None).
    { apply map_lookup_filter_None. right. intros info Hinfo.
      rewrite lookup_insert_eq in Hinfo. injection Hinfo as <-. cbn. lia. }
    split; [exact Hnone|]. now apply callback_without_session.
  - intros v info Hv. apply map_lookup_filter_Some in Hv as [_ Hage].
    cbn in Hage. lia.
Qed.

Lemma sweep_expires_registrations_witness :
  CallbackDispatcher.cleanup (1700000000000 + 31 * 60 * 1000)
    (snd (CallbackDispatcher.register 1700000000000 ∅
            (Some "abcdef123456") (Some 3101))) !! "abcdef123456" = None.
Proof.
  refine (proj1 (proj1 (proj2
            (sweep_expires_registrations 1700000000000
               (1700000000000 + 31 * 60 * 1000) ∅ "abcdef123456" 3101
               Examples.failing_auth_server _ _)) _));
    [discriminate | discriminate | reflexivity].
Defined.

(** X18.  Unregistering ends the session of the identity and of no
    other.  After [/unregister-auth-server] for [u] the table has no
    entry for [u] and the entries of the other identities are as they
    were; a callback for [u] is answered 404, no active session,
    without any forwarding; and unregistering [u] again reports that
    nothing was removed and changes nothing. *)
Theorem unregister_ends_the_session
  (servers : CallbackDispatcher.table) (u : string)
  (fetch : Z -> CallbackDispatcher.downstream) :
  u <> "" ->
  let after := snd (CallbackDispatcher.unregister servers (Some u)) in
  after !! u = None
  /\ (forall v, v <> u -> after !! v = servers !! v)
  /\ CallbackDispatcher.oauth2callback fetch after
       (Some (JS.Doc (JS.JObj [("userID", JS.JStr u)])))
     = (CallbackDispatcher.NoActiveSession (Some (JS.JStr u)), after)
  /\ CallbackDispatcher.unregister after (Some u)
     = (CallbackDispatcher.Unregistered u false, after).
Proof.
  intros Hu after.
  assert (Hafter : after = delete u servers).
  { unfold after, CallbackDispatcher.unregister.
    now apply String.eqb_neq in Hu as ->. }
  assert (Hnone : after !! u = None)
    by (rewrite Hafter; apply lookup_delete_eq).
  split; [exact Hnone|]. split; [|split].
  - intros v Hv. rewrite Hafter. now apply lookup_delete_ne.
  - now apply callback_without_session.
  - unfold CallbackDispatcher.unregister.
    apply String.eqb_neq in Hu. rewrite Hu. cbn [negb]. f_equal.
    + f_equal. apply bool_decide_eq_false. rewrite Hnone.
      intros [x Hx]. discriminate.
    + now apply delete_id.
Qed.

Lemma unregister_ends_the_session_witness :
  CallbackDispatcher.oauth2callback Examples.failing_auth_server
    (snd (CallbackDispatcher.unregister Examples.one_server
            (Some "abcdef123456")))
    (Some (JS.Doc (JS.JObj [("userID", JS.JStr "abcdef123456")])))
  = (CallbackDispatcher.NoActiveSession (Some (JS.JStr "abcdef123456")),
     snd (CallbackDispatcher.unregister Examples.one_server
            (Some "abcdef123456"))).
Proof.
  refine (proj1 (proj2 (proj2
            (unregister_ends_the_session Examples.one_server "abcdef123456"
               Examples.failing_auth_server _)))).
  discriminate.
Defined.

(** X19.  A callback that cannot be routed contacts no auth server.
    When the state is missing, or empty, or does not parse, or names an
    identity without an entry in the table, the answer of
    [/oauth2callback] does not depend on what any auth server would
    do, it is 400 or 404, and the table is left as it was. *)
Theorem unroutable_callback_is_not_forwarded
  (fetch fetch' : Z -> CallbackDispatcher.downstream)
  (servers : CallbackDispatcher.table) (st : option JS.text) :
  (forall t u, st = Some t ->
               CallbackDispatcher.userID_of_state t = Some u ->
               CallbackDispatcher.get servers u = None) ->
  CallbackDispatcher.oauth2callback fetch servers st
  = CallbackDispatcher.oauth2callback fetch' servers st
  /\ snd (CallbackDispatcher.oauth2callback fetch servers st) = servers
  /\ (CallbackDispatcher.reply_status
        (fst (CallbackDispatcher.oauth2callback fetch servers st)) = 400
      \/ CallbackDispatcher.reply_status
           (fst (CallbackDispatcher.oauth2callback fetch servers st)) = 404).
Proof.
  intros Hno. unfold CallbackDispatcher.oauth2callback.
  destruct st as [t|]; [|split; [|split]; try reflexivity; now left].
  destruct (negb (JS.truthy_text t));
    [split; [|split]; try reflexivity; now left|].
  destruct (CallbackDispatcher.userID_of_state t) as [u|] eqn:Hu;
    [|split; [|split]; try reflexivity; now left].
  rewrite (Hno t u eq_refl Hu).
  split; [|split]; try reflexivity. now right.
Qed.

Lemma unroutable_callback_is_not_forwarded_witness :
  CallbackDispatcher.reply_status
    (fst (CallbackDispatcher.oauth2callback Examples.failing_auth_server
            Examples.one_server (Some (JS.Garbage "not json")))) = 400
  \/ CallbackDispatcher.reply_status
       (fst (CallbackDispatcher.oauth2callback Examples.failing_auth_server
               Examples.one_server (Some (JS.Garbage "not json")))) = 404.
Proof.
  refine (proj2 (proj2
            (unroutable_callback_is_not_forwarded
               Examples.failing_auth_server Examples.failing_auth_server
               Examples.one_server (Some (JS.Garbage "not json")) _))).
  intros t u Ht Hu. injection Ht as <-. discriminate Hu.
Defined.

(** * Further properties of the calendar transport *)

Section CalendarDispatchFacts.
Import JS Transport Exn CalendarServer.

(** The names [getHandler] resolves. *)
Lemma getHandler_resolves (toolName : string) (h : handler) :
  getHandler toolName = Ok h ->
  In toolName (List.map fst handlerMap) \/ In toolName Object_prototype.
Proof.
  unfold getHandler.
  destruct (assoc toolName handlerMap) as [h'|] eqn:Hh.
  - intros _. left. apply in_map_iff. exists (toolName, h').
    split; [reflexivity|]. revert Hh. clear.
    induction handlerMap as [|[k v] l IH]; simpl; [discriminate|].
    destruct (String.eqb_spec toolName k) as [->|_].
    + intros H. injection H as ->. now left.
    + intros H. right. now apply IH.
  - destruct (arr_includes Object_prototype toolName) eqn:Hp;
      [|discriminate].
    intros _. right. now apply arr_includes_In.
Qed.

End CalendarDispatchFacts.

(** X20.  No tool the calendar server can dispatch is ever streamed by
    the analysis.  The names [getHandler] resolves (the eight
    hyphenated tools of [handlerMap], and the members the map inherits)
    are on none of the three lists of the classifier, whose names are
    underscored; so for every such tool, whatever the arguments and the
    clock, [shouldUseSSE] without a client preference answers false:
    only a request header can select streaming. *)
Theorem dispatched_tools_are_never_streamed
  (now_min now_max : Z) (toolName : string)
  (h : CalendarServer.handler) (a : option Transport.Calendar.args)
  (req : option Transport.headers) :
  CalendarServer.getHandler toolName = Exn.Ok h ->
  Transport.client_preference req = None ->
  Transport.Calendar.shouldUseSSE now_min now_max toolName a req
  = Some false.
Proof.
  intros Hh Hpref. unfold Transport.Calendar.shouldUseSSE. rewrite Hpref.
  apply getHandler_resolves in Hh. cbn in Hh.
  destruct Hh as [Hh|Hh];
    repeat (destruct Hh as [<-|Hh]; [reflexivity|]); contradiction.
Qed.

Lemma dispatched_tools_are_never_streamed_witness :
  Transport.Calendar.shouldUseSSE 1700000000000 1700000000000 "list-events"
    (Some Examples.list_events_from) None = Some false.
Proof.
  apply (dispatched_tools_are_never_streamed 1700000000000 1700000000000
           "list-events" CalendarServer.ListEventsHandler
           (Some Examples.list_events_from) None);
    reflexivity.
Defined.

(** * Properties of the helpers of the Gmail tool handlers *)

Section ExtractFacts.
Import JS GmailTools Props.

Lemma GmailMessagePart_forall (P : GmailMessagePart -> Prop) :
  (forall mimeType data parts,
     Forall P parts -> P (MessagePart mimeType data parts)) ->
  forall m, P m.
Proof.
  intros H. fix IH 1. intros [mimeType data parts]. apply H.
  induction parts as [|p parts IHparts]; constructor;
    [apply IH | exact IHparts].
Qed.

Lemma append_empty_r (s : string) : s ++ "" = s.
Proof.
  induction s as [|c s IH]; [reflexivity|]. now rewrite append_cons, IH.
Qed.

(** The guard [if (text)] skips nothing but the empty string. *)
Lemma add_if_truthy_append (a b : string) : add_if_truthy a b = a ++ b.
Proof.
  unfold add_if_truthy. destruct (String.eqb_spec b "") as [->|_]; simpl;
    [now rewrite append_empty_r | reflexivity].
Qed.

Lemma joined_app (l l' : list string) :
  joined (l ++ l')%list = joined l ++ joined l'.
Proof.
  induction l as [|s l IH]; simpl; [reflexivity|].
  now rewrite IH, append_assoc.
Qed.

(** The two branches on the MIME type of a part with data agree with
    the bodies the part carries. *)
Lemma own_content_bodies (decode : string -> string)
  (mimeType data : option string) (parts : list GmailMessagePart) :
  text (own_content decode mimeType data)
  = own_text decode (MessagePart mimeType data parts)
  /\ html (own_content decode mimeType data)
     = own_html decode (MessagePart mimeType data parts).
Proof.
  unfold own_content, own_text, own_html, body_of_type.
  destruct data as [[|c data]|]; destruct mimeType as [m|];
    cbn [truthy_str String.eqb negb]; try (split; reflexivity).
  destruct (String.eqb_spec m "text/plain") as [->|Hplain];
    [split; reflexivity|].
  destruct (String.eqb_spec m "text/html") as [->|Hhtml];
    split; reflexivity.
Qed.

End ExtractFacts.

(** X21.  [extractEmailContent] returns the bodies of a message in
    document order.  For every MIME tree, the text it returns is the
    concatenation of the decoded bodies of the text/plain parts, and
    the HTML that of the text/html parts, each taken over the part
    itself and then the parts below it from first to last; no body of
    one kind reaches the other result, and a part of any other type
    contributes nothing. *)
Theorem extractEmailContent_in_document_order
  (decode : string -> string) (m : GmailTools.GmailMessagePart) :
  GmailTools.text (GmailTools.extractEmailContent decode m)
  = Props.joined (List.map (Props.own_text decode) (Props.parts_in_order m))
  /\ GmailTools.html (GmailTools.extractEmailContent decode m)
     = Props.joined
         (List.map (Props.own_html decode) (Props.parts_in_order m)).
Proof.
  induction m as [mimeType data parts IH] using GmailMessagePart_forall.
  cbn [GmailTools.extractEmailContent Props.parts_in_order List.map
       Props.joined].
  destruct (own_content_bodies decode mimeType data parts) as [<- <-].
  generalize (GmailTools.own_content decode mimeType data) as acc.
  induction IH as [|p parts [Hp_text Hp_html] _ IHparts]; intros acc.
  - cbn. now rewrite !append_empty_r.
  - cbn [List.map]. rewrite !List.map_app, !joined_app.
    specialize (IHparts
      {| GmailTools.text :=
           GmailTools.add_if_truthy (GmailTools.text acc)
             (GmailTools.text (GmailTools.extractEmailContent decode p));
         GmailTools.html :=
           GmailTools.add_if_truthy (GmailTools.html acc)
             (GmailTools.html (GmailTools.extractEmailContent decode p)) |}).
    destruct IHparts as [Ht Hh]. cbn [GmailTools.text GmailTools.html] in *.
    split.
    + etransitivity; [exact Ht|].
      now rewrite add_if_truthy_append, Hp_text, append_assoc.
    + etransitivity; [exact Hh|].
      now rewrite add_if_truthy_append, Hp_html, append_assoc.
Qed.

Section BatchFacts.
Import JS GmailTools Props.

Context {T R E Service : Type}.
Variable processor : Service -> list T -> Service * (list R + E).

Lemma slice_window (items : list T) (k n : nat) :
  slice items (Z.of_nat k) (Z.of_nat k + Z.of_nat n)
  = firstn n (skipn k items).
Proof.
  unfold slice, clamp_index.
  destruct (Z.of_nat k <? 0) eqn:Hk; [apply Z.ltb_lt in Hk; lia|].
  destruct (Z.of_nat k + Z.of_nat n <? 0) eqn:Hkn;
    [apply Z.ltb_lt in Hkn; lia|].
  destruct (Nat.lt_ge_cases k (List.length items)) as [Hlt|Hge].
  - rewrite (Z.min_l (Z.of_nat k)) by lia. rewrite Nat2Z.id.
    destruct (Nat.le_gt_cases (k + n) (List.length items)) as [Hin|Hout].
    + rewrite Z.min_l by lia.
      destruct (Z.of_nat k <? Z.of_nat k + Z.of_nat n) eqn:Hpos.
      * f_equal. lia.
      * apply Z.ltb_ge in Hpos. assert (n = 0%nat) as -> by lia.
        reflexivity.
    + rewrite Z.min_r by lia.
      assert (Hpos : (Z.of_nat k <? Z.of_nat (List.length items)) = true)
        by (apply Z.ltb_lt; lia).
      rewrite Hpos.
      rewrite !firstn_all2; [reflexivity | |];
        rewrite length_skipn; lia.
  - rewrite !Z.min_r by lia. rewrite Z.ltb_irrefl.
    rewrite skipn_all2 by lia. now destruct n.
Qed.

Lemma chunks_upto_enough (size : nat) (l : list T) :
  (1 <= size)%nat ->
  forall fuel fuel',
    (List.length l <= fuel)%nat -> (List.length l <= fuel')%nat ->
    chunks_upto fuel size l = chunks_upto fuel' size l.
Proof.
  intros Hsize fuel. revert l.
  induction fuel as [|fuel IH]; intros l fuel' Hf Hf'.
  - destruct l; [|simpl in Hf; lia]. now destruct fuel'.
  - destruct l as [|x l]; [now destruct fuel'|].
    destruct fuel' as [|fuel']; [simpl in Hf'; lia|].
    cbn [chunks_upto]. f_equal.
    apply IH; rewrite length_skipn; simpl in *; lia.
Qed.

Lemma chunks_cons (size : nat) (x : T) (l : list T) :
  (1 <= size)%nat ->
  chunks size (x :: l)
  = firstn size (x :: l) :: chunks size (skipn size (x :: l)).
Proof.
  intros Hsize. unfold chunks. cbn [List.length chunks_upto]. f_equal.
  apply chunks_upto_enough; [assumption| |lia].
  rewrite length_skipn. simpl. lia.
Qed.

Lemma concat_chunks (size : nat) (l : list T) :
  (1 <= size)%nat -> List.concat (chunks size l) = l.
Proof.
  intros Hsize. remember (List.length l) as len eqn:Hlen.
  revert l Hlen. induction len as [len IH] using lt_wf_ind.
  intros [|x l] Hlen; [reflexivity|].
  rewrite chunks_cons by assumption. cbn [List.concat].
  rewrite (IH (List.length (skipn size (x :: l)))); [|  |reflexivity].
  - apply firstn_skipn.
  - rewrite length_skipn. subst len. simpl. lia.
Qed.

Lemma chunks_bounded (size : nat) (l : list T) :
  (1 <= size)%nat ->
  Forall (fun b => b <> [] /\ (List.length b <= size)%nat) (chunks size l).
Proof.
  intros Hsize. remember (List.length l) as len eqn:Hlen.
  revert l Hlen. induction len as [len IH] using lt_wf_ind.
  intros [|x l] Hlen; [constructor|].
  rewrite chunks_cons by assumption. constructor.
  - split.
    + destruct size; [lia | discriminate].
    + rewrite length_firstn. lia.
  - apply (IH (List.length (skipn size (x :: l)))); [|reflexivity].
    rewrite length_skipn. subst len. simpl. lia.
Qed.

(** The loop from index [k] handles the chunks of the items from [k]
    on. *)
Lemma batches_from_chunks (items : list T) (size : nat) :
  (1 <= size)%nat ->
  forall fuel k st,
    (List.length (skipn k items) < fuel)%nat ->
    batches_from processor fuel items (Z.of_nat size) (Z.of_nat k) st
    = Some (fold_left (fun st b => process_batch processor b st)
              (chunks size (skipn k items)) st).
Proof.
  intros Hsize fuel. induction fuel as [|fuel IH]; intros k st Hfuel; [lia|].
  cbn [batches_from].
  destruct (Z.of_nat k <? Z.of_nat (List.length items)) eqn:Hk.
  - apply Z.ltb_lt in Hk.
    destruct (skipn k items) as [|x rest] eqn:Hrest.
    + exfalso. assert (H : List.length (skipn k items) = 0%nat)
        by now rewrite Hrest.
      rewrite length_skipn in H. lia.
    + rewrite chunks_cons by assumption. cbn [fold_left].
      rewrite slice_window, Hrest, <- Nat2Z.inj_add.
      rewrite (IH (k + size)%nat).
      * now rewrite Nat.add_comm, <- skipn_skipn, Hrest.
      * rewrite Nat.add_comm, <- skipn_skipn, Hrest, length_skipn.
        simpl in *. lia.
  - apply Z.ltb_ge in Hk. rewrite skipn_all2 by lia. reflexivity.
Qed.

Lemma retry_failures (batch : list T) (st : batch_state T R E Service) :
  exists fs,
    failures (retry processor batch st) = (failures st ++ fs)%list
    /\ sublist (List.map fst fs) batch.
Proof.
  revert st. induction batch as [|item rest IH]; intros st.
  - exists []. split; [now rewrite app_nil_r | constructor].
  - cbn [retry]. destruct (processor (service st) [item]) as [s' [res|e]].
    + destruct (IH {| service := s';
                      successes := (successes st ++ res)%list;
                      failures := failures st |}) as [fs [Hfs Hsub]].
      exists fs. split; [exact Hfs | now apply sublist_cons].
    + destruct (IH {| service := s'; successes := successes st;
                      failures := (failures st ++ [(item, e)])%list |})
        as [fs [Hfs Hsub]].
      exists ((item, e) :: fs). split.
      * rewrite Hfs. cbn [failures]. now rewrite <- app_assoc.
      * cbn. now apply sublist_skip.
Qed.

Lemma process_batch_failures (batch : list T)
  (st : batch_state T R E Service) :
  exists fs,
    failures (process_batch processor batch st) = (failures st ++ fs)%list
    /\ sublist (List.map fst fs) batch.
Proof.
  unfold process_batch.
  destruct (processor (service st) batch) as [s' [res|e]].
  - exists []. split; [now rewrite app_nil_r | apply sublist_nil_l].
  - apply (retry_failures batch
             {| service := s'; successes := successes st;
                failures := failures st |}).
Qed.

Lemma fold_batches_failures (batches : list (list T))
  (st : batch_state T R E Service) :
  exists fs,
    failures (fold_left (fun st b => process_batch processor b st) batches st)
    = (failures st ++ fs)%list
    /\ sublist (List.map fst fs) (List.concat batches).
Proof.
  revert st. induction batches as [|b batches IH]; intros st.
  - exists []. split; [now rewrite app_nil_r | constructor].
  - cbn [fold_left List.concat].
    destruct (process_batch_failures b st) as [fs1 [H1 Hs1]].
    destruct (IH (process_batch processor b st)) as [fs2 [H2 Hs2]].
    exists (fs1 ++ fs2)%list. split.
    + now rewrite H2, H1, <- app_assoc.
    + rewrite List.map_app. now apply sublist_app.
Qed.

End BatchFacts.

(** X22.  [processBatches] hands the processor the items in
    consecutive batches.  For a batch size of at least one the loop
    ends, after at most one round per item: its result is that of
    handling, one after the other, the pieces the items fall into when
    cut every [batchSize] elements; these pieces are not empty, hold at
    most [batchSize] items each, and put together are the items in
    their order, so no item is skipped and none is handed over twice in
    a batch. *)
Theorem processBatches_by_chunks
  (T R E Service : Type)
  (processor : Service -> list T -> Service * (list R + E))
  (fuel : nat) (items : list T) (batchSize : Z) (s : Service) :
  1 <= batchSize ->
  (List.length items < fuel)%nat ->
  GmailTools.processBatches processor fuel items batchSize s
  = Some (fold_left
            (fun st b => GmailTools.process_batch processor b st)
            (Props.chunks (Z.to_nat batchSize) items)
            {| GmailTools.service := s; GmailTools.successes := [];
               GmailTools.failures := [] |})
  /\ List.concat (Props.chunks (Z.to_nat batchSize) items) = items
  /\ Forall (fun b => b <> []
                      /\ (List.length b <= Z.to_nat batchSize)%nat)
       (Props.chunks (Z.to_nat batchSize) items).
Proof.
  intros Hsize Hfuel.
  assert (Hn : (1 <= Z.to_nat batchSize)%nat) by lia.
  split; [|split].
  - unfold GmailTools.processBatches.
    rewrite <- (Z2Nat.id batchSize) at 1 by lia.
    change 0 with (Z.of_nat 0).
    now rewrite (batches_from_chunks processor items _ Hn fuel 0%nat).
  - now apply concat_chunks.
  - now apply chunks_bounded.
Qed.

Lemma processBatches_by_chunks_witness :
  Props.chunks 2 ["m1"; "m2"; "missing"; "m4"; "m5"]
  = [["m1"; "m2"]; ["missing"; "m4"]; ["m5"]]
  /\ GmailTools.processBatches MoreExamples.delete_unless_missing 6
       ["m1"; "m2"; "missing"; "m4"; "m5"] 2 []
     = Some (fold_left
               (fun st b =>
                  GmailTools.process_batch MoreExamples.delete_unless_missing
                    b st)
               (Props.chunks (Z.to_nat 2) ["m1"; "m2"; "missing"; "m4"; "m5"])
               {| GmailTools.service := []; GmailTools.successes := [];
                  GmailTools.failures := [] |}).
Proof.
  split; [reflexivity|].
  apply (processBatches_by_chunks string string string (list string)
           MoreExamples.delete_unless_missing 6
           ["m1"; "m2"; "missing"; "m4"; "m5"] 2 []);
    [lia | simpl; lia].
Defined.

(** X23.  [processBatches] reports an item as failed at most once, and
    only an item it was given.  For a batch size of at least one, and
    whatever the processor does to the mail service, the items of the
    failures it returns are a subsequence of the items passed in: they
    come in the order of the items, none comes twice unless it was
    passed twice, and there are at most as many failures as items. *)
Theorem processBatches_failures_are_items
  (T R E Service : Type)
  (processor : Service -> list T -> Service * (list R + E))
  (fuel : nat) (items : list T) (batchSize : Z) (s : Service) :
  1 <= batchSize ->
  (List.length items < fuel)%nat ->
  exists st,
    GmailTools.processBatches processor fuel items batchSize s = Some st
    /\ sublist (List.map fst (GmailTools.failures st)) items
    /\ (List.length (GmailTools.failures st) <= List.length items)%nat.
Proof.
  intros Hsize Hfuel.
  assert (Hn : (1 <= Z.to_nat batchSize)%nat) by lia.
  exists (fold_left
            (fun st b => GmailTools.process_batch processor b st)
            (Props.chunks (Z.to_nat batchSize) items)
            {| GmailTools.service := s; GmailTools.successes := [];
               GmailTools.failures := [] |}).
  split.
  - unfold GmailTools.processBatches.
    rewrite <- (Z2Nat.id batchSize) at 1 by lia.
    change 0 with (Z.of_nat 0).
    now rewrite (batches_from_chunks processor items _ Hn fuel 0%nat).
  - destruct (fold_batches_failures processor
                (Props.chunks (Z.to_nat batchSize) items)
                {| GmailTools.service := s; GmailTools.successes := [];
                   GmailTools.failures := [] |}) as [fs [Hfs Hsub]].
    rewrite Hfs. cbn [GmailTools.failures app].
    rewrite (concat_chunks _ items Hn) in Hsub.
    split; [exact Hsub|].
    apply sublist_length in Hsub. now rewrite length_map in Hsub.
Qed.

Lemma processBatches_failures_are_items_witness :
  exists st,
    GmailTools.processBatches MoreExamples.delete_unless_missing 6
      ["m1"; "m2"; "missing"; "m4"; "m5"] 2 [] = Some st
    /\ sublist (List.map fst (GmailTools.failures st))
         ["m1"; "m2"; "missing"; "m4"; "m5"]
    /\ (List.length (GmailTools.failures st) <= 5)%nat.
Proof.
  apply (processBatches_failures_are_items string string string (list string)
           MoreExamples.delete_unless_missing 6
           ["m1"; "m2"; "missing"; "m4"; "m5"] 2 []);
    [lia | simpl; lia].
Defined.

(** X24.  With a batch size of zero or less [processBatches] never
    returns.  For items that are not empty the index never reaches
    their length, so the loop does not end however long it runs: no
    amount of fuel gives a result. *)
Theorem processBatches_never_returns
  (T R E Service : Type)
  (processor : Service -> list T -> Service * (list R + E))
  (items : list T) (batchSize : Z) (s : Service) (fuel : nat) :
  batchSize <= 0 ->
  items <> [] ->
  GmailTools.processBatches processor fuel items batchSize s = None.
Proof.
  intros Hsize Hitems. unfold GmailTools.processBatches.
  assert (Hloop : forall i st,
            i <= 0 ->
            GmailTools.batches_from processor fuel items batchSize i st
            = None).
  { induction fuel as [|fuel' IH]; intros i st Hi; [reflexivity|].
    cbn [GmailTools.batches_from].
    assert (Hlen : (i <? Z.of_nat (List.length items)) = true).
    { apply Z.ltb_lt. destruct items; [contradiction | simpl; lia]. }
    rewrite Hlen. apply IH. lia. }
  apply Hloop. lia.
Qed.

Lemma processBatches_never_returns_witness :
  GmailTools.processBatches MoreExamples.delete_unless_missing 1000
    ["m1"; "m2"] (-1) [] = None.
Proof.
  apply (processBatches_never_returns string string string (list string)
           MoreExamples.delete_unless_missing ["m1"; "m2"] (-1) [] 1000);
    [lia | discriminate].
Defined.

(** * Further properties of the calendar server *)

Section CalendarServerFacts.
Import JS Fs Exn TokenManager.

Lemma cred_of_json (fields : list (string * json)) (k : string) :
  cred k (of_json (JObj fields))
  = match assoc k fields with
    | Some v => Some v
    | None => None
    end.
Proof.
  unfold cred. change (of_json (JObj fields))
    with (TokenLifecycle.spread_json (JObj fields)).
  rewrite assoc_spread_object. now destruct (assoc k fields).
Qed.

Lemma probe_ports_spec (listen : Z -> AuthServer.listen_result)
  (count : nat) :
  forall port,
    match AuthServer.probe_ports listen count port with
    | Some p =>
        port <= p < port + Z.of_nat count
        /\ listen p = AuthServer.Bound
        /\ forall q, port <= q < p -> listen q = AuthServer.EADDRINUSE
    | None =>
        (exists q, port <= q < port + Z.of_nat count
                   /\ listen q = AuthServer.OtherError
                   /\ forall q', port <= q' < q ->
                                 listen q' = AuthServer.EADDRINUSE)
        \/ (forall q, port <= q < port + Z.of_nat count ->
                      listen q = AuthServer.EADDRINUSE)
    end.
Proof.
  induction count as [|count IH]; intros port.
  - cbn. right. intros q Hq. lia.
  - cbn [AuthServer.probe_ports]. destruct (listen port) eqn:Hport.
    + split; [lia|]. split; [exact Hport|]. intros q Hq. lia.
    + specialize (IH (port + 1)).
      destruct (AuthServer.probe_ports listen count (port + 1)) as [p|].
      * destruct IH as [Hp [Hb Hbusy]]. split; [lia|].
        split; [exact Hb|]. intros q Hq.
        destruct (Z.eq_dec q port) as [->|Hne];
          [exact Hport | apply Hbusy; lia].
      * destruct IH as [[q [Hq [Hother Hbusy]]]|Hall].
        -- left. exists q. split; [lia|]. split; [exact Hother|].
           intros q' Hq'. destruct (Z.eq_dec q' port) as [->|Hne];
             [exact Hport | apply Hbusy; lia].
        -- right. intros q Hq. destruct (Z.eq_dec q port) as [->|Hne];
             [exact Hport | apply Hall; lia].
    + left. exists port. split; [lia|]. split; [exact Hport|].
      intros q' Hq'. lia.
Qed.

End CalendarServerFacts.

(** X25.  The status endpoint does not know the refresh buffer.  When
    [/checkCalendarStatus] answers that the token is valid, the file it
    read, at the path resolved through the cache and the fuzzy scan,
    holds an object whose [expiry_date] is a number later than the
    current time, and the time left is their difference.  If that
    expiry is five minutes away or less, the token manager already
    counts the same record as expired: the endpoint reports valid what
    [refreshTokensIfNeeded] would refresh. *)
Theorem status_endpoint_ignores_the_refresh_buffer
  (projectRoot cacheFilePath : string) (now currentTime : Z)
  (c c' : UserHashCache.t) (cookie : option string)
  (expiryDate timeUntilExpiry : Z) :
  CalendarServer.checkCalendarStatus projectRoot cacheFilePath now
    currentTime c cookie
  = (CalendarServer.TokenStatus true false expiryDate timeUntilExpiry, c') ->
  exists userHashID fields,
    cookie = Some userHashID
    /\ Fs.readFileSync (UserHashCache.on_disk c')
         (fst (Utils.getSecureTokenPathWithCacheAndFuzzyMatching projectRoot
                 cacheFilePath now c userHashID))
       = Some (JS.Doc (JS.JObj fields))
    /\ JS.assoc "expiry_date" fields = Some (JS.JNum expiryDate)
    /\ currentTime < expiryDate
    /\ timeUntilExpiry = expiryDate - currentTime
    /\ (expiryDate - TokenManager.BUFFER_MS <= currentTime ->
        TokenManager.isExpired currentTime
          (TokenManager.of_json (JS.JObj fields)) = true).
Proof.
  unfold CalendarServer.checkCalendarStatus.
  destruct cookie as [userHashID|]; [|discriminate].
  destruct (negb (JS.truthy_str (Some userHashID))); [discriminate|].
  destruct (Utils.getSecureTokenPathWithCacheAndFuzzyMatching projectRoot
              cacheFilePath now c userHashID) as [tokenFilePath c1]
    eqn:Hresolved.
  intros H. injection H as Hstatus <-.
  unfold CalendarServer.status_of_content in Hstatus.
  destruct (Fs.readFileSync (UserHashCache.on_disk c1) tokenFilePath)
    as [[raw|tokenData]|] eqn:Hread; try discriminate.
  cbn [JS.JSON_parse] in Hstatus.
  destruct tokenData as [|b|n|s|items|fields]; try discriminate.
  cbn [JS.prop] in Hstatus.
  destruct (JS.assoc "expiry_date" fields) as [[|b|n|s|items|fs]|] eqn:He;
    try discriminate.
  destruct (n =? 0) eqn:Hn0; [discriminate|].
  destruct (CalendarServer.MAX_TIME_VALUE <? Z.abs n); [discriminate|].
  destruct (n <=? currentTime) eqn:Hexp; [discriminate|].
  injection Hstatus as <- <-. apply Z.leb_gt in Hexp.
  exists userHashID, fields. rewrite Hresolved. cbn [fst].
  split; [reflexivity|]. split; [exact Hread|]. split; [exact He|].
  split; [exact Hexp|]. split; [reflexivity|].
  intros Hbuf. unfold TokenManager.isExpired. rewrite cred_of_json, He.
  cbn [JS.truthy JS.truthy_json]. rewrite Hn0. cbn [negb].
  now apply Z.leb_le.
Qed.

Lemma status_endpoint_ignores_the_refresh_buffer_witness :
  exists userHashID fields,
    Some "abcdef123456" = Some userHashID
    /\ Fs.readFileSync
         (UserHashCache.on_disk
            (snd (CalendarServer.checkCalendarStatus "/srv/calendar"
                    "/srv/calendar/.user-hash-cache.json" 1599999900000
                    1599999900000 Examples.cache_of_abcdef
                    (Some "abcdef123456"))))
         (fst (Utils.getSecureTokenPathWithCacheAndFuzzyMatching
                 "/srv/calendar" "/srv/calendar/.user-hash-cache.json"
                 1599999900000 Examples.cache_of_abcdef userHashID))
       = Some (JS.Doc (JS.JObj fields))
    /\ JS.assoc "expiry_date" fields = Some (JS.JNum 1600000000000)
    /\ 1599999900000 < 1600000000000
    /\ 100000 = 1600000000000 - 1599999900000
    /\ (1600000000000 - TokenManager.BUFFER_MS <= 1599999900000 ->
        TokenManager.isExpired 1599999900000
          (TokenManager.of_json (JS.JObj fields)) = true).
Proof.
  apply (status_endpoint_ignores_the_refresh_buffer "/srv/calendar"
           "/srv/calendar/.user-hash-cache.json" 1599999900000
           1599999900000 Examples.cache_of_abcdef).
  reflexivity.
Defined.



(** X27.  [startServerOnAvailablePort] binds the lowest port of 3101 to
    3110 it can.  The port it returns lies in that range, listening on
    it succeeded, and every lower port of the range was in use.  It
    returns null in two cases only: listening failed on some port of
    the range with an error other than address-in-use while every lower
    port was in use, or all ten ports are in use. *)
Theorem startServerOnAvailablePort_lowest_bound
  (listen : Z -> AuthServer.listen_result) :
  match AuthServer.startServerOnAvailablePort listen with
  | Some p =>
      3101 <= p <= 3110
      /\ listen p = AuthServer.Bound
      /\ forall q, 3101 <= q < p -> listen q = AuthServer.EADDRINUSE
  | None =>
      (exists q, 3101 <= q <= 3110
                 /\ listen q = AuthServer.OtherError
                 /\ forall q', 3101 <= q' < q ->
                               listen q' = AuthServer.EADDRINUSE)
      \/ (forall q, 3101 <= q <= 3110 -> listen q = AuthServer.EADDRINUSE)
  end.
Proof.
  unfold AuthServer.startServerOnAvailablePort.
  pose proof (probe_ports_spec listen
                (Z.to_nat (AuthServer.portRange_end
                           - AuthServer.portRange_start + 1))
                AuthServer.portRange_start) as H.
  destruct (AuthServer.probe_ports listen _ AuthServer.portRange_start)
    as [p|].
  - destruct H as [Hp [Hb Hbusy]].
    unfold AuthServer.portRange_start, AuthServer.portRange_end in *.
    split; [lia|]. split; [exact Hb|]. exact Hbusy.
  - unfold AuthServer.portRange_start, AuthServer.portRange_end in *.
    destruct H as [[q [Hq [Ho Hbusy]]]|Hall].
    + left. exists q. split; [lia|]. split; [exact Ho | exact Hbusy].
    + right. intros q Hq. apply Hall. lia.
Qed.

(** * The fuzzy scan across identities, and the path of a manager *)

Section CrossIdentityFacts.
Import JS Fs TokenFiles Props.














End CrossIdentityFacts.



Section PathFacts.
Import JS Fs Exn TokenManager.

Lemma load_at_tokenPath (tm : t) (d : disk) :
  tokenPath (snd (fst (load_at tm d))) = tokenPath tm.
Proof.
  unfold load_at. destruct (mkdirSync d) as [d1|]; [|reflexivity].
  destruct (negb (existsSync d1 (tokenPath tm))); [reflexivity|].
  destruct (readFileSync d1 (tokenPath tm)) as [content|]; [|reflexivity].
  destruct (JSON_parse content) as [[| | | | |]|]; reflexivity.
Qed.

Lemma refresh_tokenPath (cacheFilePath : string) (now : Z)
  (provider : refresh_response) (tm : t) (c : UserHashCache.t) :
  tokenPath (snd (fst (refreshTokensIfNeeded cacheFilePath now provider
                         tm c))) = tokenPath tm.
Proof.
  unfold refreshTokensIfNeeded.
  destruct (isExpired now (credentials tm) && _).
  - destruct provider as [newTokens| |]; [|
      destruct (first_entry_for _ _); reflexivity | reflexivity].
    now destruct (truthy (cred "access_token" newTokens)).
  - now destruct (negb _ && negb _).
Qed.

Lemma assoc_filter_kept {A : Type} (f : string * A -> bool) (k : string)
  (v : A) (l : list (string * A)) :
  assoc k l = Some v -> f (k, v) = true ->
  assoc k (List.filter f l) = Some v.
Proof.
  intros Hk Hf. induction l as [|[k0 v0] l IH]; [discriminate|].
  cbn [assoc] in Hk. cbn [List.filter].
  destruct (String.eqb_spec k k0) as [->|Hne].
  - injection Hk as ->. rewrite Hf. cbn [assoc]. now rewrite String.eqb_refl.
  - destruct (f (k0, v0)); [|now apply IH].
    cbn [assoc]. apply String.eqb_neq in Hne. rewrite Hne. now apply IH.
Qed.

End PathFacts.

(** X29.  Validating for a hash moves the token path of the manager.
    A manager that holds no access token and validates with
    [validateTokensWithUserHash(U)] has afterwards, whatever the
    outcome, the token path resolved for [U], not the one it was
    constructed with; tokens saved through it later are written to that
    path.  A manager that holds an access token keeps its path. *)
Theorem validation_moves_the_token_path
  (projectRoot cacheFilePath : string) (now later : Z)
  (provider : TokenManager.refresh_response) (tm : TokenManager.t)
  (c : UserHashCache.t) (U : string)
  (tokens : TokenManager.Credentials) (original : option string)
  (tm' : TokenManager.t) (c' : UserHashCache.t) :
  let r := TokenLifecycle.validateTokensWithUserHash projectRoot
             cacheFilePath now provider tm c U in
  let resolved := Utils.getSecureTokenPathWithFuzzyMatching projectRoot
                    (UserHashCache.on_disk c) U in
  resolved <> cacheFilePath ->
  TokenManager.saveTokens cacheFilePath later (snd (fst r)) (snd r) tokens
    original = Exn.Ok (tm', c') ->
  (TokenLifecycle.lacks_access_token tm = true ->
   TokenManager.tokenPath (snd (fst r)) = resolved
   /\ Fs.readFileSync (UserHashCache.on_disk c') resolved
      = Some (JS.Doc (JS.JObj (TokenManager.stringify_fields tokens))))
  /\ (TokenLifecycle.lacks_access_token tm = false ->
      TokenManager.tokenPath (snd (fst r)) = TokenManager.tokenPath tm).
Proof.
  intros r resolved Hne Hsave.
  assert (Hpath : TokenManager.tokenPath (snd (fst r))
                  = if TokenLifecycle.lacks_access_token tm
                    then resolved else TokenManager.tokenPath tm).
  { unfold r, TokenLifecycle.validateTokensWithUserHash.
    destruct (TokenLifecycle.lacks_access_token tm).
    - unfold TokenManager.loadSavedTokensWithUserHash.
      pose proof (load_at_tokenPath
                    {| TokenManager.tokenPath := resolved;
                       TokenManager.credentials :=
                         TokenManager.credentials tm |}
                    (UserHashCache.on_disk c)) as Hl.
      fold resolved.
      destruct (TokenManager.load_at _ (UserHashCache.on_disk c))
        as [[loaded tm1] d1]. cbn [fst snd] in Hl.
      destruct loaded; cbn [negb]; [|exact Hl].
      destruct (TokenLifecycle.lacks_access_token tm1); [exact Hl|].
      now rewrite refresh_tokenPath.
    - apply refresh_tokenPath. }
  split.
  - intros Hl. rewrite Hl in Hpath. split; [exact Hpath|].
    revert Hsave. unfold TokenManager.saveTokens,
      TokenManager.ensureTokenDirectoryExists, TokenManager.writeFile.
    destruct (Fs.mkdirSync (UserHashCache.on_disk (snd r))) as [d1|];
      [|discriminate].
    cbn [Exn.bind]. rewrite Hpath.
    destruct (Fs.writeFileSync d1 resolved _) as [d2|] eqn:Hw;
      [|discriminate].
    cbn [Exn.bind]. destruct (writeFileSync_read _ _ _ _ Hw) as [Hread _].
    destruct (JS.truthy_str original && _); intros H; injection H as _ <-.
    + unfold UserHashCache.addEntry. now rewrite saveCache_other.
    + exact Hread.
  - intros Hl. now rewrite Hl in Hpath.
Qed.

Lemma validation_moves_the_token_path_witness :
  TokenManager.tokenPath
    (snd (fst (TokenLifecycle.validateTokensWithUserHash "/srv/calendar"
                 "/srv/calendar/.user-hash-cache.json" 1700000000000
                 TokenManager.RefreshFailed
                 (TokenManager.constructor "/srv/calendar"
                    Examples.empty_disk [] None)
                 Examples.cache_of_abcdef "abcdef123456")))
  = "/srv/calendar/.abcdef123456-gcp-saved-tokens.json".
Proof.
  refine (proj1 (proj1
            (validation_moves_the_token_path "/srv/calendar"
               "/srv/calendar/.user-hash-cache.json" 1700000000000
               1700000000001 TokenManager.RefreshFailed
               (TokenManager.constructor "/srv/calendar"
                  Examples.empty_disk [] None)
               Examples.cache_of_abcdef "abcdef123456"
               MoreExamples.refreshed_tokens None _ _ _ _) _));
    [discriminate | reflexivity | reflexivity].
Defined.

(** X30.  An entry that was looked up recently survives [cleanup].
    For a cache whose keys are distinct: after a hit of
    [getTokenFilename] for an identity at time [t], a [cleanup] at any
    time up to [t + maxAgeMs] keeps the entry of that identity, and the
    next lookup still returns its token file. *)
Theorem looked_up_entry_survives_cleanup
  (cacheFilePath : string) (t now maxAgeMs : Z) (c : UserHashCache.t)
  (U : string) (e : UserHashCache.CacheEntry) :
  List.NoDup (List.map fst (UserHashCache.entries (UserHashCache.cache c))) ->
  JS.assoc U (UserHashCache.entries (UserHashCache.cache c)) = Some e ->
  now - maxAgeMs <= t ->
  let looked := snd (UserHashCache.getTokenFilename cacheFilePath t c U) in
  let cleaned := snd (CacheMaintenance.cleanup cacheFilePath now maxAgeMs
                        looked) in
  UserHashCache.hasEntry cleaned U = true
  /\ fst (UserHashCache.getTokenFilename cacheFilePath now cleaned U)
     = Some (UserHashCache.actualTokenFilename e).
Proof.
  intros Hnd He Hage looked cleaned.
  set (e' := {| UserHashCache.originalUserHashID :=
                  UserHashCache.originalUserHashID e;
                UserHashCache.actualTokenFilename :=
                  UserHashCache.actualTokenFilename e;
                UserHashCache.createdAt := UserHashCache.createdAt e;
                UserHashCache.lastAccessed := t |}).
  assert (Hlooked : UserHashCache.entries (UserHashCache.cache looked)
                    = JS.set_prop U e'
                        (UserHashCache.entries (UserHashCache.cache c))).
  { unfold looked, UserHashCache.getTokenFilename. rewrite He. cbn [snd].
    now rewrite saveCache_cache. }
  assert (Hnd' : List.NoDup
                   (List.map fst
                      (UserHashCache.entries (UserHashCache.cache looked)))).
  { rewrite Hlooked. now apply set_prop_NoDup. }
  destruct (cleanup_spec cacheFilePath now maxAgeMs looked Hnd')
    as [_ Hcleaned].
  fold cleaned in Hcleaned.
  assert (Hkept : JS.assoc U
                    (UserHashCache.entries (UserHashCache.cache cleaned))
                  = Some e').
  { rewrite Hcleaned. apply assoc_filter_kept.
    - rewrite Hlooked. apply assoc_set_prop_eq.
    - unfold Props.stale. cbn. apply negb_true_iff, Z.ltb_ge. lia. }
  split.
  - unfold UserHashCache.hasEntry. now rewrite Hkept.
  - unfold UserHashCache.getTokenFilename. now rewrite Hkept.
Qed.

Lemma looked_up_entry_survives_cleanup_witness :
  UserHashCache.hasEntry
    (snd (CacheMaintenance.cleanup "/srv/calendar/.user-hash-cache.json"
            1700000000000 CacheMaintenance.DEFAULT_MAX_AGE_MS
            (snd (UserHashCache.getTokenFilename
                    "/srv/calendar/.user-hash-cache.json" 1699999999000
                    MoreExamples.two_entry_cache "0123456789ab"))))
    "0123456789ab" = true.
Proof.
  refine (proj1
            (looked_up_entry_survives_cleanup
               "/srv/calendar/.user-hash-cache.json" 1699999999000
               1700000000000 CacheMaintenance.DEFAULT_MAX_AGE_MS
               MoreExamples.two_entry_cache "0123456789ab" _ _ _ _)).
  - repeat constructor; simpl; intuition discriminate.
  - reflexivity.
  - unfold CacheMaintenance.DEFAULT_MAX_AGE_MS. lia.
Defined.
